(** * GitInsight-MCP: a shallow embedding of the cache, the GitHub client and
    the tool facade, with the properties of the specification.

    Sources embedded here:
    - [src/utils.ts]                (calculatePercentage, getErrorMessage,
                                     createErrorResponse, truncateString,
                                     isValidGitHubUsername, parseRepoFullName)
    - [src/config.ts]               (validateConfig, getConfig)
    - [src/cache.ts]                (CacheService over node-cache)
    - [src/github-client.ts]        (GitHubClient)
    - [src/tools/*.ts]              (the six public tools, and the derivations
                                     of the skills matrix and of the
                                     portfolio summary)

    Conventions.
    - A JavaScript [number] that holds a count is a [Z]; a percentage is the
      [Q] that its double stands for, computed with the roundings of the
      double operations ([Float64]).
    - A string is the sequence of its code units.
    - A string that the code hands to [new Date] is a [DateString]: either
      the instant it parses to, or an unparseable text (an Invalid Date).
    - Code that can throw returns an [Outcome]. *)

From Stdlib Require Import ZArith QArith Qround Qabs Qpower Lia Lqa String Ascii List.
From Stdlib Require Import Permutation Sorted.
From stdpp Require Import base list strings pretty gmap.

Local Open Scope string_scope.
Local Open Scope Z_scope.
Local Open Scope list_scope.

(** ** JavaScript primitives *)

Module Js.

(** [String.prototype.toLowerCase], on the ASCII letters. The Unicode case
    mapping outside ASCII is not modelled. *)
Definition lower_ascii (c : ascii) : ascii :=
  let n := nat_of_ascii c in
  if ((65 <=? n)%nat && (n <=? 90)%nat)%bool then ascii_of_nat (n + 32) else c.

Fixpoint toLowerCase (s : string) : string :=
  match s with
  | EmptyString => EmptyString
  | String c t => String (lower_ascii c) (toLowerCase t)
  end.

(** [s.includes(sub)] *)
Fixpoint includes (s sub : string) : bool :=
  if String.prefix sub s then true
  else match s with
       | EmptyString => false
       | String _ t => includes t sub
       end.

(** Truthiness of a string: the empty string is falsy. *)
Definition truthy (s : string) : bool :=
  match s with EmptyString => false | _ => true end.

(** [s || d] on strings that may be missing. *)
Definition or_else (o : option string) (d : string) : string :=
  match o with
  | Some s => if truthy s then s else d
  | None => d
  end.

(** [n || 0] on numbers. *)
Definition or_zero (o : option Z) : Z :=
  match o with
  | Some n => if n =? 0 then 0 else n
  | None => 0
  end.

(** A number that may be [NaN]. *)
Definition Num := option Z.

(** [Array.prototype.sort(cmp)]: a stable sort; [a] stays before [b] unless
    [cmp a b > 0]. A comparator result of [NaN] counts as [+0].

    For a comparator that is a consistent order on the elements the result
    is the one the standard prescribes, whatever the algorithm. For one that
    is not (it answers [NaN] for some pair, or never answers 0 for equal
    keys) the standard leaves the order to the engine, and the engine's
    order is not the one of the insertion sort below: the model then tells
    which elements the result holds, not where. What is stated about the
    order of a sorted array therefore carries the condition that makes the
    comparator consistent. *)
Section Sort.
Context {A : Type} (cmp : A -> A -> Num).

Definition keeps (a b : A) : bool :=
  match cmp a b with
  | Some z => z <=? 0
  | None => true
  end.

Fixpoint insert_sorted (x : A) (l : list A) : list A :=
  match l with
  | [] => [x]
  | y :: t => if keeps x y then x :: y :: t else y :: insert_sorted x t
  end.

Fixpoint sort (l : list A) : list A :=
  match l with
  | [] => []
  | x :: t => insert_sorted x (sort t)
  end.
End Sort.

(** [arr.slice(0, end)] for an integral [end]. *)
Definition slice0 {A : Type} (stop : Z) (l : list A) : list A :=
  let len := Z.of_nat (length l) in
  let k := if stop <? 0 then Z.max (len + stop) 0 else Z.min stop len in
  firstn (Z.to_nat k) l.

(** [arr.indexOf(x)] on numbers-as-keys; [-1] when absent. *)
Fixpoint indexOf (x : Z) (l : list Z) : Z :=
  match l with
  | [] => -1
  | y :: t => if x =? y then 0
              else let i := indexOf x t in if i <? 0 then -1 else i + 1
  end.

(** [arr.filter((x, index, self) => p x index self)] *)
Fixpoint filter_from {A : Type} (p : A -> Z -> list A -> bool)
         (self : list A) (i : Z) (l : list A) : list A :=
  match l with
  | [] => []
  | x :: t => if p x i self then x :: filter_from p self (i + 1) t
              else filter_from p self (i + 1) t
  end.

Definition filter_indexed {A : Type} (p : A -> Z -> list A -> bool)
           (l : list A) : list A :=
  filter_from p l 0 l.

(** Thrown values. Every value thrown on the paths embedded here is an
    [Error] instance: a name and a message. *)
Record Error := mkError { err_name : string; err_message : string }.

End Js.

(** ** Outcomes of code that can throw *)

Inductive Outcome (A : Type) : Type :=
| Ok (a : A)
| Throw (e : Js.Error)
| OutOfFuel.
Arguments Ok {A} a.
Arguments Throw {A} e.
Arguments OutOfFuel {A}.

Definition obind {A B} (o : Outcome A) (k : A -> Outcome B) : Outcome B :=
  match o with
  | Ok a => k a
  | Throw e => Throw e
  | OutOfFuel => OutOfFuel
  end.

(** [l.map(f)] where [f] can throw: the first failure aborts the map. *)
Fixpoint omap {A B} (f : A -> Outcome B) (l : list A) : Outcome (list B) :=
  match l with
  | [] => Ok []
  | x :: t => obind (f x) (fun y => obind (omap f t) (fun ys => Ok (y :: ys)))
  end.

(** ** Dates *)

(** A string given to [new Date(...)]. *)
Inductive DateString : Type :=
| Instant (ms : Z)             (* parses to this many ms since the epoch *)
| Unparseable (raw : string).  (* Invalid Date *)

Definition msPerDay : Z := 1000 * 60 * 60 * 24.

(** [new Date(s).getTime()]; [NaN] for an Invalid Date. *)
Definition getTime (d : DateString) : Js.Num :=
  match d with
  | Instant ms => Some ms
  | Unparseable _ => None
  end.

(** A calendar date [YYYY-MM-DD] is represented by the index of the UTC day
    it names (days since the epoch): the text and the index determine each
    other. *)
Abbreviation CalendarDate := Z (only parsing).

(** [new Date(s).toISOString().split('T')[0]]; [toISOString] throws a
    [RangeError] on an Invalid Date. *)
Definition toISODate (d : DateString) : Outcome CalendarDate :=
  match d with
  | Instant ms => Ok (ms / msPerDay)
  | Unparseable _ => Throw (Js.mkError "RangeError" "Invalid time value")
  end.

(** [new Date(day).getTime()] for a date-only text: midnight UTC. *)
Definition dayTime (day : CalendarDate) : Z := day * msPerDay.

(** [a - b] on numbers that may be [NaN]. *)
Definition num_sub (a b : Js.Num) : Js.Num :=
  match a, b with
  | Some x, Some y => Some (x - y)
  | _, _ => None
  end.

(** ** Data model ([src/types/index.ts]) *)

(** Repository information from the GitHub API. [topics] may be missing in a
    listing response. *)
Record Repository := mkRepository {
  repo_id : Z;
  repo_name : string;
  repo_full_name : string;
  repo_description : option string;
  html_url : string;
  stargazers_count : Z;
  forks_count : Z;
  watchers_count : Z;
  repo_language : option string;
  repo_topics : option (list string);
  repo_created_at : DateString;
  updated_at : DateString;
  pushed_at : DateString;
  repo_size : Z;
  open_issues_count : Z;
  is_template : bool;
  visibility : string;
  default_branch : string;
  repo_homepage : option string;
  archived : bool;
  disabled : bool;
  fork : bool
}.

Record RepositoryMetadata := mkRepositoryMetadata {
  name : string;
  full_name : string;
  description : option string;
  url : string;
  stars : Z;
  forks : Z;
  language : option string;
  topics : list string;
  last_updated : DateString;
  created_at : DateString;
  open_issues : Z;
  homepage : option string
}.

(** One item of the [listCommits] response, as far as the client reads it:
    [commit.commit.author] and its fields may be missing. *)
Record CommitAuthor := mkCommitAuthor {
  author_name : option string;
  author_date : option DateString
}.

Record Commit := mkCommit {
  commit_sha : string;
  commit_author : option CommitAuthor;
  commit_message : string;
  commit_html_url : string
}.

Record CommitMetadata := mkCommitMetadata {
  sha : string;
  message : string;
  author : string;
  date : DateString;
  commit_url : string;
  repository : string
}.

Record ContributionActivity := mkContributionActivity {
  total_commits : Z;
  total_prs : Z;
  total_issues : Z;
  total_reviews : Z;
  repositories_contributed_to : Z;
  most_active_day : string + CalendarDate;   (* 'N/A' or a calendar date *)
  contribution_streak : Z
}.

Record LanguageStats := mkLanguageStats {
  ls_language : string;
  count : Z;
  repositories : list string;
  percentage : Q
}.

Record RepositoryStats := mkRepositoryStats {
  total_repositories : Z;
  total_stars : Z;
  total_forks : Z;
  total_size_kb : Z;
  languages : list LanguageStats;
  most_starred_repo : option RepositoryMetadata;
  most_forked_repo : option RepositoryMetadata;
  recently_updated : list RepositoryMetadata;
  total_open_issues : Z
}.

Inductive SortField := SortStars | SortForks | SortUpdated | SortCreated | SortName.
Inductive SortOrder := Asc | Desc.

Record SearchFilters := mkSearchFilters {
  f_language : option string;
  f_topic : option string;
  f_min_stars : option Z;
  f_has_issues : option bool;
  f_is_template : option bool;
  f_is_fork : option bool;
  f_sort_by : option SortField;
  f_order : option SortOrder
}.

Record ErrorResponse := mkErrorResponse {
  er_error : string;
  er_message : string;
  er_timestamp : Z        (* the clock reading that [toISOString] prints *)
}.

Record ToolResult (T : Type) := mkToolResult {
  success : bool;
  data : option T;
  error : option ErrorResponse;
  cached : option bool;
  timestamp : Z           (* the clock reading that [toISOString] prints *)
}.
Arguments mkToolResult {T}.
Arguments success {T}.
Arguments data {T}.
Arguments error {T}.
Arguments cached {T}.
Arguments timestamp {T}.

(** ** [src/utils.ts] *)

(** The arithmetic of the Number type: a finite double is the rational it
    stands for, and an operation returns the double nearest to the exact
    result, halves to the even mantissa (IEEE 754 binary64, 53 bits).  The
    exponent is not bounded: results below 2^-1022 or beyond the largest
    double, which no computation on array lengths reaches, are not
    modelled. *)
Module Float64.

Definition pow2 (e : Z) : Q := (2 ^ e)%Q.

(** To the nearest integer, halves to the even one. *)
Definition round_even (x : Q) : Z :=
  let f := Qfloor x in
  match (x - inject_Z f ?= 1 # 2)%Q with
  | Lt => f
  | Eq => if Z.even f then f else f + 1
  | Gt => f + 1
  end.

(** The exponent [e] of a positive [a]: [2^52 <= a / 2^e < 2^53]. *)
Definition exponent (a : Q) : Z :=
  let k := Z.log2 (Qnum a) - Z.log2 (Z.pos (Qden a)) in
  if Qle_bool (pow2 k) a then k - 52 else k - 53.

Definition round_pos (a : Q) : Q :=
  let e := exponent a in
  (inject_Z (round_even (a / pow2 e)) * pow2 e)%Q.

(** The double nearest to [x]. *)
Definition rnd (x : Q) : Q :=
  match (x ?= 0)%Q with
  | Eq => 0%Q
  | Gt => round_pos x
  | Lt => (- round_pos (- x))%Q
  end.

(** [a / b] and [a * b] on doubles. *)
Definition div (a b : Q) : Q := rnd (a / b).
Definition mul (a b : Q) : Q := rnd (a * b).

(** The unit roundoff, [2^-53]. *)
Definition u : Q := 1 # 9007199254740992.

End Float64.

(** [Math.round]: to the nearest integer, halves upwards; exact on a double. *)
Definition Math_round (x : Q) : Z := Qfloor (x + (1 # 2))%Q.

(** [calculatePercentage]: [Math.round((value / total) * 100 * 100) / 100], a
    division, two multiplications and a division of doubles. *)
Definition calculatePercentage (value total : Z) : Q :=
  if total =? 0 then 0%Q
  else Float64.div
         (inject_Z (Math_round
            (Float64.mul (Float64.mul (Float64.div (inject_Z value) (inject_Z total)) 100)
                         100)))
         100.

(** [getErrorMessage], on [Error] instances. *)
Definition getErrorMessage (e : Js.Error) : string := Js.err_message e.

(** [createErrorResponse]; [details] is never passed by the tools. *)
Definition createErrorResponse (code msg : string) (now : Z) : ErrorResponse :=
  {| er_error := code; er_message := msg; er_timestamp := now |}.

(** ** Insertion-ordered maps ([Map] of JavaScript)

    [Array.from(m.entries())] and [m.forEach] enumerate in insertion order, and
    setting a key that is present keeps its place: an association list. *)

Module JsMap.
Section WithKey.
Context {K V : Type} (eqb : K -> K -> bool).

Fixpoint get (k : K) (m : list (K * V)) : option V :=
  match m with
  | [] => None
  | (k', v) :: t => if eqb k k' then Some v else get k t
  end.

Fixpoint set (k : K) (v : V) (m : list (K * V)) : list (K * V) :=
  match m with
  | [] => [(k, v)]
  | (k', v') :: t => if eqb k k' then (k, v) :: t else (k', v') :: set k v t
  end.
End WithKey.
End JsMap.

(** ** Derivations of the client ([src/github-client.ts]) *)

(** Lines 297-305: group the names by primary language; a repository whose
    language is [null] (or empty) is skipped. *)
Definition languageMap_step (m : list (string * list string))
           (repo : RepositoryMetadata) : list (string * list string) :=
  match language repo with
  | Some l =>
      if Js.truthy l then
        let existing := default [] (JsMap.get String.eqb l m) in
        JsMap.set String.eqb l (existing ++ [name repo]) m
      else m
  | None => m
  end.

Definition languageMap (repos : list RepositoryMetadata) : list (string * list string) :=
  fold_left languageMap_step repos [].

Definition len {A} (l : list A) : Z := Z.of_nat (length l).

(** Lines 307-312. *)
Definition languageEntry (total : Z) (e : string * list string) : LanguageStats :=
  {| ls_language := fst e;
     count := len (snd e);
     repositories := snd e;
     percentage := calculatePercentage (len (snd e)) total |}.

Definition languageBreakdown (repos : list RepositoryMetadata) : list LanguageStats :=
  Js.sort (fun a b => Some (count b - count a))
          (map (languageEntry (len repos)) (languageMap repos)).

(** Lines 314-321: [repos.reduce((max, repo) => repo.f > (max?.f || 0) ? repo : max,
    repos[0] || null)]. *)
Definition most_by (f : RepositoryMetadata -> Z) (repos : list RepositoryMetadata)
  : option RepositoryMetadata :=
  fold_left (fun max repo =>
               if Js.or_zero (f <$> max) <? f repo then Some repo else max)
            repos (head repos).

Definition mostStarred := most_by stars.
Definition mostForked := most_by forks.

(** Lines 323-326. *)
Definition by_time_desc {A} (t : A -> DateString) (a b : A) : Js.Num :=
  num_sub (getTime (t b)) (getTime (t a)).

Definition recentlyUpdated (repos : list RepositoryMetadata) : list RepositoryMetadata :=
  Js.slice0 5 (Js.sort (by_time_desc last_updated) repos).

Definition sum_by {A} (f : A -> Z) (l : list A) : Z :=
  fold_left (fun acc x => acc + f x) l 0.

(** Lines 328-338. *)
Definition repositoryStats (repos : list RepositoryMetadata) : RepositoryStats :=
  {| total_repositories := len repos;
     total_stars := sum_by stars repos;
     total_forks := sum_by forks repos;
     total_size_kb := 0;
     languages := languageBreakdown repos;
     most_starred_repo := mostStarred repos;
     most_forked_repo := mostForked repos;
     recently_updated := recentlyUpdated repos;
     total_open_issues := sum_by open_issues repos |}.

(** Lines 366-383: the filters of [searchProjectsByTech]. A filter that is
    absent (or, for the two texts, empty) is not applied. *)
Definition language_matches (wanted : string) (repo : RepositoryMetadata) : bool :=
  match language repo with
  | Some l => String.eqb (Js.toLowerCase l) (Js.toLowerCase wanted)
  | None => false
  end.

Definition topic_matches (wanted : string) (repo : RepositoryMetadata) : bool :=
  existsb (fun topic => Js.includes (Js.toLowerCase topic) (Js.toLowerCase wanted))
          (topics repo).

Definition applyFilters (filters : SearchFilters) (repos : list RepositoryMetadata)
  : list RepositoryMetadata :=
  let repos :=
    match f_language filters with
    | Some l => if Js.truthy l then List.filter (language_matches l) repos else repos
    | None => repos
    end in
  let repos :=
    match f_topic filters with
    | Some t => if Js.truthy t then List.filter (topic_matches t) repos else repos
    | None => repos
    end in
  match f_min_stars filters with
  | Some m => List.filter (fun repo => m <=? stars repo) repos
  | None => repos
  end.

(** Lines 386-423: the comparator answers [1] or [-1], never [0]. A comparison
    with [NaN] is false. *)
Inductive SortKey := KNum (n : Js.Num) | KStr (s : string).

Definition key_lt (a b : SortKey) : bool :=
  match a, b with
  | KNum (Some x), KNum (Some y) => x <? y
  | KStr x, KStr y => String.ltb x y
  | _, _ => false
  end.

Definition sortKey (field : SortField) (r : RepositoryMetadata) : SortKey :=
  match field with
  | SortStars => KNum (Some (stars r))
  | SortForks => KNum (Some (forks r))
  | SortUpdated => KNum (getTime (last_updated r))
  | SortCreated => KNum (getTime (created_at r))
  | SortName => KStr (Js.toLowerCase (name r))
  end.

Definition searchCompare (field : SortField) (order : SortOrder)
           (a b : RepositoryMetadata) : Js.Num :=
  let aVal := sortKey field a in
  let bVal := sortKey field b in
  match order with
  | Asc => if key_lt bVal aVal then Some 1 else Some (-1)
  | Desc => if key_lt aVal bVal then Some 1 else Some (-1)
  end.

Definition applySort (filters : SearchFilters) (repos : list RepositoryMetadata)
  : list RepositoryMetadata :=
  match f_sort_by filters with
  | Some field => Js.sort (searchCompare field (default Desc (f_order filters))) repos
  | None => repos
  end.

Definition searchRepos (filters : SearchFilters) (repos : list RepositoryMetadata)
  : list RepositoryMetadata :=
  applySort filters (applyFilters filters repos).

(** Lines 487-506: [findMostActiveDay]. *)
Definition dayCount_step (m : list (CalendarDate * Z)) (day : CalendarDate)
  : list (CalendarDate * Z) :=
  JsMap.set Z.eqb day (Js.or_zero (JsMap.get Z.eqb day m) + 1) m.

Definition maxDay_step (acc : option CalendarDate * Z) (e : CalendarDate * Z)
  : option CalendarDate * Z :=
  if snd acc <? snd e then (Some (fst e), snd e) else acc.

Definition findMostActiveDay (commits : list CommitMetadata)
  : Outcome (string + CalendarDate) :=
  if len commits =? 0 then Ok (inl "N/A")
  else
    obind (omap (fun c => toISODate (date c)) commits) (fun days =>
    let dayCount := fold_left dayCount_step days [] in
    match fst (fold_left maxDay_step dayCount (None, 0)) with
    | Some day => Ok (inr day)
    | None => Ok (inl "N/A")
    end).

(** Lines 511-533: [calculateStreak]. *)
Definition first_occurrence (d : CalendarDate) (index : Z) (self : list CalendarDate) : bool :=
  Js.indexOf d self =? index.

Definition streakDates (days : list CalendarDate) : list CalendarDate :=
  Js.sort (fun a b => Some (dayTime b - dayTime a))
          (Js.filter_indexed first_occurrence days).

(** The [for] loop over [dates[i]], [dates[i + 1]], with its [break]. *)
Fixpoint streakLoop (dates : list CalendarDate) (streak : Z) : Z :=
  match dates with
  | current :: (next :: _) as rest =>
      let diffDays := (dayTime current - dayTime next) / msPerDay in
      if diffDays =? 1 then streakLoop rest (streak + 1)
      else if 1 <? diffDays then streak
      else streakLoop rest streak
  | _ => streak
  end.

Definition calculateStreak (commits : list CommitMetadata) : Outcome Z :=
  if len commits =? 0 then Ok 0
  else
    obind (omap (fun c => toISODate (date c)) commits) (fun days =>
    Ok (streakLoop (streakDates days) 1)).

(** Lines 538-561: [handleApiError], on [Error] instances. *)
Definition handleApiError (e : Js.Error) : Js.Error :=
  let message := Js.err_message e in
  if Js.includes message "rate limit" then
    Js.mkError "Error" "GitHub API rate limit exceeded. Please try again later."
  else if (Js.includes message "401" || Js.includes message "Bad credentials")%bool then
    Js.mkError "Error" "Invalid GitHub token. Please check your GITHUB_TOKEN in .env file."
  else if Js.includes message "404" then
    Js.mkError "Error" "Repository or resource not found."
  else e.

(** ** The cache ([src/cache.ts]) *)

Record ServerConfig := mkServerConfig {
  github_token : string;
  github_username : string;
  cache_ttl : Z;
  cache_check_period : Z;
  api_base_url : string
}.

(** Modelled from the spec: the store behind [CacheService] is the third-party
    [node-cache] package, whose code is not in the repository. Section 4.1 of
    the specification describes it: a mapping from string key to (payload,
    insertion time, ttl); an entry is expired when
    [now - insertion_time >= ttl]; [get] checks expiry lazily; a periodic
    sweep removes the expired entries. The ttl is in seconds and the clock in
    milliseconds. *)
Module NodeCache.
Section WithValue.
Context {V : Type}.

(** Modelled from the spec: (payload, insertion time, ttl). *)
Record Entry := mkEntry { payload : V; inserted : Z; ttl : Z }.

(** Modelled from the spec: expired when [now - insertion_time >= ttl]. *)
Definition expired (now : Z) (e : Entry) : bool :=
  ttl e * 1000 <=? now - inserted e.

(** Modelled from the spec: [get] with its lazy expiry check. *)
Definition get (now : Z) (key : string) (c : gmap string Entry)
  : option V * gmap string Entry :=
  match c !! key with
  | Some e => if expired now e then (None, delete key c) else (Some (payload e), c)
  | None => (None, c)
  end.

(** Modelled from the spec: [set] records the payload with the insertion
    time and the ttl. *)
Definition set (now : Z) (key : string) (v : V) (ttl : Z) (c : gmap string Entry)
  : bool * gmap string Entry :=
  (true, <[key := mkEntry v now ttl]> c).

Definition del (key : string) (c : gmap string Entry) : Z * gmap string Entry :=
  match c !! key with
  | Some _ => (1, delete key c)
  | None => (0, c)
  end.

Definition flushAll (c : gmap string Entry) : gmap string Entry := ∅.

(** Modelled from the spec: the periodic sweep removes the expired entries. *)
Definition sweep (now : Z) (c : gmap string Entry) : gmap string Entry :=
  filter (fun kv => expired now (snd kv) = false) c.

Definition has (now : Z) (key : string) (c : gmap string Entry) : bool :=
  match fst (get now key c) with Some _ => true | None => false end.
End WithValue.
Arguments Entry : clear implicits.
End NodeCache.

(** [CacheService]: the wrapper of [src/cache.ts]. The diagnostic lines it
    writes to [console.error] are not modelled. *)
Module CacheService.
Section WithConfig.
Context {V : Type} (config : ServerConfig).

Definition Store := gmap string (NodeCache.Entry V).

Definition get (now : Z) (key : string) (c : Store) : option V * Store :=
  NodeCache.get now key c.

(** [ttl || config.cache_ttl] *)
Definition effective_ttl (ttl : option Z) : Z :=
  match ttl with
  | Some t => if t =? 0 then cache_ttl config else t
  | None => cache_ttl config
  end.

Definition set (now : Z) (key : string) (v : V) (ttl : option Z) (c : Store)
  : bool * Store :=
  NodeCache.set now key v (effective_ttl ttl) c.

Definition delete (key : string) (c : Store) : Z * Store := NodeCache.del key c.

Definition clear (c : Store) : Store := NodeCache.flushAll c.

Definition has (now : Z) (key : string) (c : Store) : bool := NodeCache.has now key c.
End WithConfig.
End CacheService.

(** ** The world of one server process *)

(** What the cache holds. A key's prefix fixes the kind of its value. *)
Inductive CacheValue : Type :=
| CVRepos (l : list RepositoryMetadata)
| CVRepo (r : Repository)
| CVReadme (s : string)
| CVCommits (l : list CommitMetadata)
| CVStats (s : RepositoryStats)
| CVActivity (a : ContributionActivity).

(** Requests sent to the remote API through Octokit. *)
Inductive Request : Type :=
| ListForUser (username : string) (per_page page : Z)
| GetRepo (owner repo : string)
| GetAllTopics (owner repo : string)
| GetReadme (owner repo : string)
| ListCommits (owner repo : string) (per_page : Z) (author : string).

(** What a request settles to. *)
Inductive Response (A : Type) : Type :=
| Resolved (a : A)
| Rejected (e : Js.Error).
Arguments Resolved {A} a.
Arguments Rejected {A} e.

(** The remote API behind Octokit: what each request settles to. The
    arguments are those of the request. *)
Record Octokit := mkOctokit {
  api_listForUser : string -> Z -> Z -> Response (list Repository);
  api_get : string -> string -> Response Repository;
  api_getAllTopics : string -> string -> Response (list string);
  api_getReadme : string -> string -> Response string;
  api_listCommits : string -> string -> Z -> string -> Response (list Commit)
}.

Record World := mkWorld {
  cache : gmap string (NodeCache.Entry CacheValue);
  clock : Z;                  (* [Date.now()], in ms *)
  requests : list Request     (* remote requests issued so far, oldest first *)
}.

(** Code that reads and writes the world and can throw. The clock does not
    advance inside one operation. *)
Definition M (A : Type) : Type := World -> Outcome A * World.

Definition ret {A} (a : A) : M A := fun w => (Ok a, w).

Definition throw {A} (e : Js.Error) : M A := fun w => (Throw e, w).

Definition bind {A B} (m : M A) (k : A -> M B) : M B :=
  fun w =>
    match m w with
    | (Ok a, w') => k a w'
    | (Throw e, w') => (Throw e, w')
    | (OutOfFuel, w') => (OutOfFuel, w')
    end.

(** [try { m } catch (error) { h error }] *)
Definition try_catch {A} (m : M A) (h : Js.Error -> M A) : M A :=
  fun w =>
    match m w with
    | (Throw e, w') => h e w'
    | r => r
    end.

Definition lift {A} (o : Outcome A) : M A := fun w => (o, w).

Definition now : M Z := fun w => (Ok (clock w), w).

Notation "'let*' x ':=' m 'in' k" := (bind m (fun x => k))
  (at level 10, x name, m at level 100, k at level 200).

(** [await Promise.all(l.map(f))]: the requests of [f] go out in list order;
    the first rejection rejects the whole. *)
Fixpoint mapM {A B} (f : A -> M B) (l : list A) : M (list B) :=
  match l with
  | [] => ret []
  | x :: t => let* y := f x in let* ys := mapM f t in ret (y :: ys)
  end.

(** ** The client ([src/github-client.ts]) *)

Section Client.

Variable config : ServerConfig.

(** The remote API behind Octokit: what each request settles to. *)
Variable octokit : Octokit.

(** Library functions whose code is outside the repository. *)
Variable decodeBase64 : string -> string.
Variable JSON_stringify : SearchFilters -> string.
Variable localeCompare : string -> string -> Z.

(** A bound on the number of listing pages one operation reads. *)
Variable fuel : nat.

Definition username : string := github_username config.

Definition settle {A} (r : Response A) : Outcome A :=
  match r with
  | Resolved a => Ok a
  | Rejected e => Throw e
  end.

Definition call {A} (req : Request) (r : Response A) : M A :=
  fun w => (settle r, mkWorld (cache w) (clock w) (requests w ++ [req])).

Definition cache_get (key : string) : M (option CacheValue) :=
  fun w =>
    let '(v, c) := CacheService.get (clock w) key (cache w) in
    (Ok v, mkWorld c (clock w) (requests w)).

Definition cache_set (key : string) (v : CacheValue) : M bool :=
  fun w =>
    let '(b, c) := CacheService.set config (clock w) key v None (cache w) in
    (Ok b, mkWorld c (clock w) (requests w)).

(** [if (useCache) { const cached = cache.get(key); if (cached) return cached; }]
    followed by [body]. [read] projects the cached value to the type the
    caller asks for, and answers [None] for a falsy one (the empty string).
    Keys of different methods differ in their prefix, so a value of another
    kind is never found under the key; [read] answers [None] for it. *)
Definition cached_or {A} (useCache : bool) (key : string)
           (read : CacheValue -> option A) (body : M A) : M A :=
  if useCache then
    let* cached := cache_get key in
    match cached ≫= read with
    | Some a => ret a
    | None => body
    end
  else body.

Definition read_repos (v : CacheValue) : option (list RepositoryMetadata) :=
  match v with CVRepos l => Some l | _ => None end.
Definition read_repo (v : CacheValue) : option Repository :=
  match v with CVRepo r => Some r | _ => None end.
Definition read_readme (v : CacheValue) : option string :=
  match v with CVReadme s => if Js.truthy s then Some s else None | _ => None end.
Definition read_commits (v : CacheValue) : option (list CommitMetadata) :=
  match v with CVCommits l => Some l | _ => None end.
Definition read_stats (v : CacheValue) : option RepositoryStats :=
  match v with CVStats s => Some s | _ => None end.
Definition read_activity (v : CacheValue) : option ContributionActivity :=
  match v with CVActivity a => Some a | _ => None end.

(** Lines 100-113. *)
Definition toMetadata (repo : Repository) : RepositoryMetadata :=
  {| name := repo_name repo;
     full_name := repo_full_name repo;
     description := repo_description repo;
     url := html_url repo;
     stars := stargazers_count repo;
     forks := forks_count repo;
     language := repo_language repo;
     topics := default [] (repo_topics repo);
     last_updated := updated_at repo;
     created_at := repo_created_at repo;
     open_issues := open_issues_count repo;
     homepage := repo_homepage repo |}.

(** Lines 83-95: [while (hasMore)]. *)
Fixpoint fetchPages (n : nat) (page : Z) (repositories : list Repository)
  : M (list Repository) :=
  match n with
  | O => lift OutOfFuel
  | S n' =>
      let* response := call (ListForUser username 100 page)
                            (api_listForUser octokit username 100 page) in
      let repositories := repositories ++ response in
      if len response =? 100 then fetchPages n' (page + 1) repositories
      else ret repositories
  end.

Definition listRepositories (useCache : bool) : M (list RepositoryMetadata) :=
  let cacheKey := "repos:" +:+ username +:+ ":all" in
  cached_or useCache cacheKey read_repos
    (try_catch
       (let* repositories := fetchPages fuel 1 [] in
        let metadata := map toMetadata repositories in
        let* _ := cache_set cacheKey (CVRepos metadata) in
        ret metadata)
       (fun error => throw (handleApiError error))).

Definition with_topics (repo : Repository) (t : list string) : Repository :=
  mkRepository (repo_id repo) (repo_name repo) (repo_full_name repo)
    (repo_description repo) (html_url repo) (stargazers_count repo)
    (forks_count repo) (watchers_count repo) (repo_language repo) (Some t)
    (repo_created_at repo) (updated_at repo) (pushed_at repo) (repo_size repo)
    (open_issues_count repo) (is_template repo) (visibility repo)
    (default_branch repo) (repo_homepage repo) (archived repo) (disabled repo)
    (fork repo).

Definition getRepositoryDetails (repoName : string) (useCache : bool) : M Repository :=
  let cacheKey := "repo:" +:+ username +:+ ":" +:+ repoName in
  cached_or useCache cacheKey read_repo
    (try_catch
       (let* repo := call (GetRepo username repoName) (api_get octokit username repoName) in
        let* repo :=
          try_catch
            (let* names := call (GetAllTopics username repoName)
                                (api_getAllTopics octokit username repoName) in
             ret (with_topics repo names))
            (fun _ => ret (with_topics repo [])) in
        let* _ := cache_set cacheKey (CVRepo repo) in
        ret repo)
       (fun error => throw (handleApiError error))).

Definition getRepositoryReadme (repoName : string) (useCache : bool) : M string :=
  let cacheKey := "readme:" +:+ username +:+ ":" +:+ repoName in
  cached_or useCache cacheKey read_readme
    (try_catch
       (let* response := call (GetReadme username repoName)
                              (api_getReadme octokit username repoName) in
        let content := decodeBase64 response in
        let* _ := cache_set cacheKey (CVReadme content) in
        ret content)
       (fun _ => ret "")).

(** Lines 229-236 and 251-258. *)
Definition toCommitMetadata (repoName : string) (commit : Commit) : CommitMetadata :=
  {| sha := commit_sha commit;
     message := commit_message commit;
     author := Js.or_else (commit_author commit ≫= author_name) "Unknown";
     date := default (Unparseable "") (commit_author commit ≫= author_date);
     commit_url := commit_html_url commit;
     repository := repoName |}.

(** Lines 242-262: one repository of the cross-repository fetch; a failure is
    answered by the empty list. *)
Definition fetchRepoCommits (repo : RepositoryMetadata) : M (list CommitMetadata) :=
  try_catch
    (let* response := call (ListCommits username (name repo) 5 username)
                           (api_listCommits octokit username (name repo) 5 username) in
     ret (map (toCommitMetadata (name repo)) response))
    (fun _ => ret []).

Definition repoName_given (repoName : option string) : option string :=
  match repoName with
  | Some r => if Js.truthy r then Some r else None
  | None => None
  end.

Definition getRecentCommits (repoName : option string) (limit : Z) (useCache : bool)
  : M (list CommitMetadata) :=
  let cacheKey :=
    match repoName_given repoName with
    | Some r => "commits:" +:+ username +:+ ":" +:+ r +:+ ":" +:+ pretty limit
    | None => "commits:" +:+ username +:+ ":all:" +:+ pretty limit
    end in
  cached_or useCache cacheKey read_commits
    (try_catch
       (let* commits :=
          match repoName_given repoName with
          | Some r =>
              let* response := call (ListCommits username r limit username)
                                    (api_listCommits octokit username r limit username) in
              ret (map (toCommitMetadata r) response)
          | None =>
              let* repos := listRepositories useCache in
              let* allCommits := mapM fetchRepoCommits (Js.slice0 10 repos) in
              ret (Js.slice0 limit (Js.sort (by_time_desc date) (concat allCommits)))
          end in
        let* _ := cache_set cacheKey (CVCommits commits) in
        ret commits)
       (fun error => throw (handleApiError error))).

Definition getRepositoryStats (useCache : bool) : M RepositoryStats :=
  let cacheKey := "stats:" +:+ username in
  cached_or useCache cacheKey read_stats
    (try_catch
       (let* repos := listRepositories useCache in
        let stats := repositoryStats repos in
        let* _ := cache_set cacheKey (CVStats stats) in
        ret stats)
       (fun error => throw (handleApiError error))).

(** The in-place [repos.sort] of line 390 sorts the very array that
    [listRepositories] returned when no filter made a copy, and the cache
    holds that array (it does not clone): after such a search the cached
    listing is reordered in the program. That aliasing is not modelled: the
    listing in the cache of the model keeps its order, and nothing is stated
    about the cached listing after a sorted search. *)
Definition searchProjectsByTech (filters : SearchFilters) (useCache : bool)
  : M (list RepositoryMetadata) :=
  let cacheKey := "search:" +:+ username +:+ ":" +:+ JSON_stringify filters in
  cached_or useCache cacheKey read_repos
    (try_catch
       (let* repos := listRepositories useCache in
        let repos := searchRepos filters repos in
        let* _ := cache_set cacheKey (CVRepos repos) in
        ret repos)
       (fun error => throw (handleApiError error))).

Definition distinct_count (l : list string) : Z :=
  Z.of_nat (size (list_to_set l : gset string)).

Definition getContributionActivity (useCache : bool) : M ContributionActivity :=
  let cacheKey := "activity:" +:+ username in
  cached_or useCache cacheKey read_activity
    (try_catch
       (let* commits := getRecentCommits None 100 useCache in
        let* day := lift (findMostActiveDay commits) in
        let* streak := lift (calculateStreak commits) in
        let activity :=
          {| total_commits := len commits;
             total_prs := 0;
             total_issues := 0;
             total_reviews := 0;
             repositories_contributed_to := distinct_count (map repository commits);
             most_active_day := day;
             contribution_streak := streak |} in
        let* _ := cache_set cacheKey (CVActivity activity) in
        ret activity)
       (fun error => throw (handleApiError error))).

(** ** The tools ([src/tools/*.ts]) *)

Definition successResult {T} (d : T) (use_cache : bool) (t : Z) : ToolResult T :=
  {| success := true; data := Some d; error := None;
     cached := Some use_cache; timestamp := t |}.

Definition failureResult {T} (code prefix : string) (e : Js.Error) (t_inner t : Z)
  : ToolResult T :=
  {| success := false; data := None;
     error := Some (createErrorResponse code (prefix +:+ getErrorMessage e) t_inner);
     cached := None; timestamp := t |}.

Definition fail {T} (code prefix : string) (e : Js.Error) : M (ToolResult T) :=
  let* t_inner := now in
  let* t := now in
  ret (failureResult code prefix e t_inner t).

Inductive ListSort := ByStars | ByForks | ByUpdated | ByName.

Record ListRepositoriesArgs := mkListRepositoriesArgs {
  lr_use_cache : option bool;
  lr_sort_by : option ListSort;
  lr_limit : option Z
}.

Definition listCompare (sort_by : ListSort) (a b : RepositoryMetadata) : Js.Num :=
  match sort_by with
  | ByStars => Some (stars b - stars a)
  | ByForks => Some (forks b - forks a)
  | ByUpdated => by_time_desc last_updated a b
  | ByName => Some (localeCompare (name a) (name b))
  end.

Definition tool_listRepositories (args : ListRepositoriesArgs)
  : M (ToolResult (list RepositoryMetadata)) :=
  try_catch
    (let use_cache := default true (lr_use_cache args) in
     let* repos := listRepositories use_cache in
     let repos :=
       match lr_sort_by args with
       | Some sort_by => Js.sort (listCompare sort_by) repos
       | None => repos
       end in
     let repos :=
       match lr_limit args with
       | Some limit => if 0 <? limit then Js.slice0 limit repos else repos
       | None => repos
       end in
     let* t := now in
     ret (successResult repos use_cache t))
    (fail "LIST_REPOSITORIES_ERROR" "Failed to list repositories: ").

Record GetRepositoryDetailsArgs := mkGetRepositoryDetailsArgs {
  rd_repository_name : string;
  rd_use_cache : option bool;
  rd_include_readme : option bool
}.

Record RepositoryDetailsResponse := mkRepositoryDetailsResponse {
  rdr_repository : Repository;
  rdr_readme : option string
}.

Definition tool_getRepositoryDetails (args : GetRepositoryDetailsArgs)
  : M (ToolResult RepositoryDetailsResponse) :=
  try_catch
    (let repository_name := rd_repository_name args in
     let use_cache := default true (rd_use_cache args) in
     let include_readme := default false (rd_include_readme args) in
     if negb (Js.truthy repository_name) then
       throw (Js.mkError "Error" "repository_name is required")
     else
       let* repository := getRepositoryDetails repository_name use_cache in
       let* readme :=
         if include_readme then
           let* r := getRepositoryReadme repository_name use_cache in ret (Some r)
         else ret None in
       let* t := now in
       ret (successResult (mkRepositoryDetailsResponse repository readme) use_cache t))
    (fail "GET_REPOSITORY_DETAILS_ERROR" "Failed to get repository details: ").

Record GetRecentCommitsArgs := mkGetRecentCommitsArgs {
  rc_repository_name : option string;
  rc_limit : option Z;
  rc_use_cache : option bool
}.

Definition tool_getRecentCommits (args : GetRecentCommitsArgs)
  : M (ToolResult (list CommitMetadata)) :=
  try_catch
    (let repository_name := rc_repository_name args in
     let limit := default 50 (rc_limit args) in
     let use_cache := default true (rc_use_cache args) in
     let* commits := getRecentCommits repository_name limit use_cache in
     let* t := now in
     ret (successResult commits use_cache t))
    (fail "GET_RECENT_COMMITS_ERROR" "Failed to get recent commits: ").

Record GetRepositoryStatsArgs := mkGetRepositoryStatsArgs {
  rs_use_cache : option bool
}.

Definition tool_getRepositoryStats (args : GetRepositoryStatsArgs)
  : M (ToolResult RepositoryStats) :=
  try_catch
    (let use_cache := default true (rs_use_cache args) in
     let* stats := getRepositoryStats use_cache in
     let* t := now in
     ret (successResult stats use_cache t))
    (fail "GET_REPOSITORY_STATS_ERROR" "Failed to get repository stats: ").

Record SearchProjectsByTechArgs := mkSearchProjectsByTechArgs {
  sp_filters : SearchFilters;     (* [...filters]: every field but [use_cache] *)
  sp_use_cache : option bool
}.

Definition tool_searchProjectsByTech (args : SearchProjectsByTechArgs)
  : M (ToolResult (list RepositoryMetadata)) :=
  try_catch
    (let use_cache := default true (sp_use_cache args) in
     let* repos := searchProjectsByTech (sp_filters args) use_cache in
     let* t := now in
     ret (successResult repos use_cache t))
    (fail "SEARCH_PROJECTS_ERROR" "Failed to search projects: ").

Record GetContributionActivityArgs := mkGetContributionActivityArgs {
  ca_use_cache : option bool
}.

Definition tool_getContributionActivity (args : GetContributionActivityArgs)
  : M (ToolResult ContributionActivity) :=
  try_catch
    (let use_cache := default true (ca_use_cache args) in
     let* activity := getContributionActivity use_cache in
     let* t := now in
     ret (successResult activity use_cache t))
    (fail "GET_CONTRIBUTION_ACTIVITY_ERROR" "Failed to get contribution activity: ").

End Client.


(** ** The filter predicate, in the words of the specification (section 4.4)

    Exact case-insensitive language match, case-insensitive substring match
    on any topic, inclusive minimum star count. A filter that is not given
    (or is the empty text) asks nothing. *)
Definition language_filter_holds (filters : SearchFilters) (r : RepositoryMetadata) : Prop :=
  forall l, f_language filters = Some l -> l <> "" ->
    exists rl, language r = Some rl /\ Js.toLowerCase rl = Js.toLowerCase l.

Definition topic_filter_holds (filters : SearchFilters) (r : RepositoryMetadata) : Prop :=
  forall t, f_topic filters = Some t -> t <> "" ->
    exists topic pre post,
      In topic (topics r) /\
      Js.toLowerCase topic = pre +:+ Js.toLowerCase t +:+ post.

Definition min_stars_filter_holds (filters : SearchFilters) (r : RepositoryMetadata) : Prop :=
  forall m, f_min_stars filters = Some m -> m <= stars r.

(** ** Sample data *)

Definition sampleRepo (n : string) (lang : option string) (s k : Z)
  : RepositoryMetadata :=
  {| name := n; full_name := "octocat/" +:+ n; description := None;
     url := "https://github.com/octocat/" +:+ n;
     stars := s; forks := k; language := lang; topics := [];
     last_updated := Instant 0; created_at := Instant 0;
     open_issues := 0; homepage := None |}.

Definition goA : RepositoryMetadata := sampleRepo "a" (Some "Go") 5 0.
Definition goB : RepositoryMetadata := sampleRepo "b" (Some "Go") 0 0.
Definition pyC : RepositoryMetadata := sampleRepo "c" (Some "Python") 10 0.

Definition goFilter : SearchFilters :=
  {| f_language := Some "go"; f_topic := None; f_min_stars := Some 1;
     f_has_issues := None; f_is_template := None; f_is_fork := None;
     f_sort_by := None; f_order := None |}.

(** ** The streak, in the words of the specification (section 4.3)

    Over the distinct dates in descending order: one for the first date, plus
    one for each following date that is exactly one day before its
    predecessor, up to the first gap. *)
Fixpoint leadingRun (dates : list CalendarDate) : Z :=
  match dates with
  | a :: (b :: _) as rest => if a - b =? 1 then 1 + leadingRun rest else 0
  | _ => 0
  end.

Definition daysOf (instants : list Z) : list CalendarDate :=
  map (fun t => t / msPerDay) instants.

Definition sampleCommit (d : DateString) : CommitMetadata :=
  {| sha := "0000000"; message := "work"; author := "octocat"; date := d;
     commit_url := "https://github.com/octocat/a/commit/0000000";
     repository := "a" |}.

(** ** Sums over a language breakdown *)

Definition pct_sum (l : list LanguageStats) : Q :=
  fold_right (fun s acc => (percentage s + acc)%Q) 0%Q l.

Definition cnt_sum (l : list LanguageStats) : Z :=
  fold_right (fun s acc => count s + acc) 0 l.

(** The guard of line 300: [if (repo.language)]. *)
Definition has_language (repo : RepositoryMetadata) : bool :=
  match language repo with
  | Some l => Js.truthy l
  | None => false
  end.

Definition withLanguage (repos : list RepositoryMetadata) : Z :=
  len (List.filter has_language repos).

Definition noLanguageRepo : RepositoryMetadata := sampleRepo "notes" None 0 0.

Definition total_len (m : list (string * list string)) : Z :=
  fold_right (fun e acc => len (snd e) + acc) 0 m.

(** [n] repositories, each with a primary language of its own. *)
Definition polyglot (n : nat) : list RepositoryMetadata :=
  map (fun i => sampleRepo ("r" +:+ pretty i) (Some ("lang" +:+ pretty i)) 0 0)
      (seq 0 n).

Definition sampleConfig : ServerConfig :=
  {| github_token := "ghp_example"; github_username := "octocat";
     cache_ttl := 3600; cache_check_period := 600;
     api_base_url := "https://api.github.com" |}.

(** ** Vocabulary for the properties of the client and the tools *)

(** The computation ends (with a value or a throw) within the page bound. *)
Definition finishes {A} (m : M A) : Prop := forall w, fst (m w) <> OutOfFuel.

(** The listing of [user] ends within [n] pages from [page]: some page is
    rejected or is not full. *)
Fixpoint listing_ends (octokit : Octokit) (user : string) (n : nat) (page : Z) : bool :=
  match n with
  | O => false
  | S n' =>
      match api_listForUser octokit user 100 page with
      | Resolved r => if len r =? 100 then listing_ends octokit user n' (page + 1) else true
      | Rejected _ => true
      end
  end.

(** What [cache.get(key)] answers in world [w], and the world it leaves. *)
Definition peek (key : string) (w : World) : option CacheValue :=
  fst (CacheService.get (clock w) key (cache w)).

Definition after_get (key : string) (w : World) : World :=
  mkWorld (snd (CacheService.get (clock w) key (cache w))) (clock w) (requests w).

(** The cache check at the head of a client method finds nothing usable. *)
Definition misses {A} (useCache : bool) (key : string)
           (read : CacheValue -> option A) (w : World) : Prop :=
  useCache = true -> peek key w ≫= read = None.

Definition after_check (useCache : bool) (key : string) (w : World) : World :=
  if useCache then after_get key w else w.

Definition logged (req : Request) (w : World) : World :=
  mkWorld (cache w) (clock w) (requests w ++ [req]).

Definition logged_all (reqs : list Request) (w : World) : World :=
  mkWorld (cache w) (clock w) (requests w ++ reqs).

Definition stored (config : ServerConfig) (key : string) (v : CacheValue) (w : World) : World :=
  mkWorld (snd (CacheService.set config (clock w) key v None (cache w)))
          (clock w) (requests w).

(** The uniform envelope of section 6, returned in world [w'], field by
    field. *)
Definition success_envelope {T} (env : ToolResult T) (w' : World) : Prop :=
  exists (d : T) (use_cache : bool),
    env = {| success := true; data := Some d; error := None;
             cached := Some use_cache; timestamp := clock w' |}.

Definition failure_envelope {T} (code prefix : string) (env : ToolResult T)
           (w' : World) : Prop :=
  exists e : Js.Error,
    env = {| success := false; data := None;
             error := Some {| er_error := code;
                              er_message := prefix +:+ Js.err_message e;
                              er_timestamp := clock w' |};
             cached := None; timestamp := clock w' |}.

Definition returns_envelope {T} (code prefix : string) (m : M (ToolResult T)) : Prop :=
  forall w, exists env w',
    m w = (Ok env, w') /\
    (success_envelope env w' \/ failure_envelope code prefix env w').

(** The tool [tool] wraps the client operation [op]: a value becomes the
    success envelope that carries it, a throw becomes the failure envelope
    with the tool's code and the message of the error after the tool's
    prefix, and nothing else happens. *)
Definition envelope_of {T X} (code prefix : string) (use_cache : bool) (g : X -> T)
           (op : M X) (tool : M (ToolResult T)) : Prop :=
  forall w,
    tool w =
    match op w with
    | (Ok x, w1) =>
        (Ok {| success := true; data := Some (g x); error := None;
               cached := Some use_cache; timestamp := clock w1 |}, w1)
    | (Throw e, w1) =>
        (Ok {| success := false; data := None;
               error := Some {| er_error := code;
                                er_message := prefix +:+ Js.err_message e;
                                er_timestamp := clock w1 |};
               cached := None; timestamp := clock w1 |}, w1)
    | (OutOfFuel, w1) => (OutOfFuel, w1)
    end.

(** What one repository contributes to the cross-repository fetch. *)
Definition commitsOf (config : ServerConfig) (octokit : Octokit)
           (repo : RepositoryMetadata) : list CommitMetadata :=
  match api_listCommits octokit (username config) (name repo) 5 (username config) with
  | Resolved response => map (toCommitMetadata (name repo)) response
  | Rejected _ => []
  end.

Definition commitRequest (config : ServerConfig) (repo : RepositoryMetadata) : Request :=
  ListCommits (username config) (name repo) 5 (username config).

Definition allCommitsKey (config : ServerConfig) (limit : Z) : string :=
  "commits:" +:+ username config +:+ ":all:" +:+ pretty limit.

Definition date_parses (c : CommitMetadata) : Prop :=
  exists ms, date c = Instant ms.

(** Newest first. *)
Definition not_older (a b : CommitMetadata) : Prop :=
  match getTime (date a), getTime (date b) with
  | Some x, Some y => y <= x
  | _, _ => False
  end.

(** What the [try] blocks of [list_repositories] and [get_repository_details]
    compute before the envelope is built. *)
Definition listPostprocess (localeCompare : string -> string -> Z)
           (args : ListRepositoriesArgs) (repos : list RepositoryMetadata)
  : list RepositoryMetadata :=
  let repos :=
    match lr_sort_by args with
    | Some sort_by => Js.sort (listCompare localeCompare sort_by) repos
    | None => repos
    end in
  match lr_limit args with
  | Some limit => if 0 <? limit then Js.slice0 limit repos else repos
  | None => repos
  end.

Definition detailsOp (config : ServerConfig) (octokit : Octokit)
           (decodeBase64 : string -> string) (args : GetRepositoryDetailsArgs)
  : M RepositoryDetailsResponse :=
  let repository_name := rd_repository_name args in
  let use_cache := default true (rd_use_cache args) in
  if negb (Js.truthy repository_name) then
    throw (Js.mkError "Error" "repository_name is required")
  else
    let* repository := getRepositoryDetails config octokit repository_name use_cache in
    let* readme :=
      if default false (rd_include_readme args) then
        let* r := getRepositoryReadme config octokit decodeBase64
                                      repository_name use_cache in ret (Some r)
      else ret None in
    ret (mkRepositoryDetailsResponse repository readme).

(** ** A sample remote *)

Definition sampleRepository (n : string) (lang : option string) (s : Z) : Repository :=
  {| repo_id := 1; repo_name := n; repo_full_name := "octocat/" +:+ n;
     repo_description := None; html_url := "https://github.com/octocat/" +:+ n;
     stargazers_count := s; forks_count := 0; watchers_count := s;
     repo_language := lang; repo_topics := None;
     repo_created_at := Instant 0; updated_at := Instant 0; pushed_at := Instant 0;
     repo_size := 10; open_issues_count := 0; is_template := false;
     visibility := "public"; default_branch := "main"; repo_homepage := None;
     archived := false; disabled := false; fork := false |}.

Definition sampleApiCommit (s : string) (d : option DateString) : Commit :=
  {| commit_sha := s;
     commit_author := Some {| author_name := Some "octocat"; author_date := d |};
     commit_message := "work";
     commit_html_url := "https://github.com/octocat/a/commit/" +:+ s |}.

Definition notFound : Js.Error := Js.mkError "HttpError" "Not Found".

(** Two repositories; the commits of [a] resolve, those of [b] are rejected;
    no repository has a README. *)
Definition sampleOctokit : Octokit :=
  {| api_listForUser := fun _ _ page =>
       if page =? 1
       then Resolved [sampleRepository "a" (Some "Go") 5;
                      sampleRepository "b" (Some "Python") 10]
       else Resolved [];
     api_get := fun _ n => Resolved (sampleRepository n (Some "Go") 5);
     api_getAllTopics := fun _ _ => Rejected notFound;
     api_getReadme := fun _ _ => Rejected notFound;
     api_listCommits := fun _ n _ _ =>
       if String.eqb n "a"
       then Resolved [sampleApiCommit "1111111" (Some (Instant 86400000));
                      sampleApiCommit "2222222" (Some (Instant 172800000))]
       else Rejected notFound |}.

(** The same remote, but one commit of [a] carries no author date. *)
Definition undatedOctokit : Octokit :=
  {| api_listForUser := api_listForUser sampleOctokit;
     api_get := api_get sampleOctokit;
     api_getAllTopics := api_getAllTopics sampleOctokit;
     api_getReadme := api_getReadme sampleOctokit;
     api_listCommits := fun _ n _ _ =>
       if String.eqb n "a"
       then Resolved [sampleApiCommit "1111111" None]
       else Rejected notFound |}.

Definition emptyWorld : World := {| cache := ∅; clock := 1000; requests := [] |}.

Definition statsArgs (use_cache : option bool) : GetRepositoryStatsArgs :=
  {| rs_use_cache := use_cache |}.

(** The commit request of a repository is answered. *)
Definition resolves (config : ServerConfig) (octokit : Octokit)
           (repo : RepositoryMetadata) : bool :=
  match api_listCommits octokit (username config) (name repo) 5 (username config) with
  | Resolved _ => true
  | Rejected _ => false
  end.

Definition commitsArgs (limit : Z) (use_cache : bool) : GetRecentCommitsArgs :=
  {| rc_repository_name := None; rc_limit := Some limit; rc_use_cache := Some use_cache |}.

(** ** Vocabulary for further properties of the client *)

Definition reposKey (config : ServerConfig) : string :=
  "repos:" +:+ username config +:+ ":all".

Definition statsKey (config : ServerConfig) : string :=
  "stats:" +:+ username config.

Definition activityKey (config : ServerConfig) : string :=
  "activity:" +:+ username config.

Definition repoKey (config : ServerConfig) (repoName : string) : string :=
  "repo:" +:+ username config +:+ ":" +:+ repoName.

Definition readmeKey (config : ServerConfig) (repoName : string) : string :=
  "readme:" +:+ username config +:+ ":" +:+ repoName.

Definition repoCommitsKey (config : ServerConfig) (repoName : string) (limit : Z) : string :=
  "commits:" +:+ username config +:+ ":" +:+ repoName +:+ ":" +:+ pretty limit.

(** A remote that serves the listing [all] in pages of 100. *)
Definition page_of (all : list Repository) (page : nat) : list Repository :=
  firstn 100 (skipn (100 * (page - 1)) all).

Definition serves_listing (octokit : Octokit) (user : string) (all : list Repository) : Prop :=
  forall page : nat, (1 <= page)%nat ->
    api_listForUser octokit user 100 (Z.of_nat page) = Resolved (page_of all page).

Definition pageRequests (user : string) (first count : nat) : list Request :=
  map (fun p => ListForUser user 100 (Z.of_nat p)) (seq first count).

Definition rateLimited : Js.Error :=
  Js.mkError "HttpError" "API rate limit exceeded for user (401 then 404)".

(** A remote whose listing is [all], served in pages of 100; every other
    request is rejected. *)
Definition pagedOctokit (all : list Repository) : Octokit :=
  {| api_listForUser := fun _ _ page => Resolved (page_of all (Z.to_nat page));
     api_get := fun _ _ => Rejected notFound;
     api_getAllTopics := fun _ _ => Rejected notFound;
     api_getReadme := fun _ _ => Rejected notFound;
     api_listCommits := fun _ _ _ _ => Rejected notFound |}.

Definition manyRepositories (n : nat) : list Repository :=
  map (fun i => sampleRepository ("r" +:+ pretty i) (Some "Go") (Z.of_nat i)) (seq 0 n).

(** A remote that rejects every request with [e]. *)
Definition failingOctokit (e : Js.Error) : Octokit :=
  {| api_listForUser := fun _ _ _ => Rejected e;
     api_get := fun _ _ => Rejected e;
     api_getAllTopics := fun _ _ => Rejected e;
     api_getReadme := fun _ _ => Rejected e;
     api_listCommits := fun _ _ _ _ => Rejected e |}.

(** A remote whose README of every repository is the given base64 text. *)
Definition readmeOctokit (content : string) : Octokit :=
  {| api_listForUser := api_listForUser sampleOctokit;
     api_get := api_get sampleOctokit;
     api_getAllTopics := fun _ _ => Resolved ["cli"; "go"];
     api_getReadme := fun _ _ => Resolved content;
     api_listCommits := api_listCommits sampleOctokit |}.

(** The names of the repositories whose primary language is [l], in listing
    order. *)
Definition namesOf (l : string) (repos : list RepositoryMetadata) : list string :=
  map name
      (List.filter (fun r => match language r with
                             | Some l' => String.eqb l' l
                             | None => false
                             end) repos).

(** [a] is at least as recent as [b], by the time stamp [t] (both parse). *)
Definition at_least_as_recent {A} (t : A -> DateString) (a b : A) : Prop :=
  match getTime (t a), getTime (t b) with
  | Some x, Some y => y <= x
  | _, _ => False
  end.

Definition parses (d : DateString) : Prop := exists ms, d = Instant ms.

Definition listArgs (sort_by : option ListSort) (limit : option Z) : ListRepositoriesArgs :=
  {| lr_use_cache := None; lr_sort_by := sort_by; lr_limit := limit |}.

(** How many commits of the sample fall on day [d]. *)
Definition occurrences (d : CalendarDate) (days : list CalendarDate) : Z :=
  Z.of_nat (count_occ Z.eq_dec days d).

Definition dayCount (days : list CalendarDate) : list (CalendarDate * Z) :=
  fold_left dayCount_step days [].

(** ** More of [src/utils.ts] *)

(** [s.substring(0, end)] for an integral [end]: the end is clamped to the
    string. A string is its sequence of code units. *)
Definition substring0 (stop : Z) (s : string) : string :=
  String.substring 0 (Z.to_nat (Z.max 0 (Z.min stop (Z.of_nat (String.length s))))) s.

(** [truncateString] *)
Definition truncateString (str : string) (maxLength : Z) : string :=
  if Z.of_nat (String.length str) <=? maxLength then str
  else substring0 (maxLength - 3) str +:+ "...".

(** [s.split(sep)] for a separator of one code unit: at least one piece. *)
Fixpoint split_on (sep : ascii) (s : string) : list string :=
  match s with
  | EmptyString => [EmptyString]
  | String c t =>
      if Ascii.eqb c sep then EmptyString :: split_on sep t
      else match split_on sep t with
           | h :: r => String c h :: r
           | [] => [String c EmptyString]
           end
  end.

Record RepoFullName := mkRepoFullName {
  rfn_owner : string;
  rfn_repo : option string      (* [undefined] when there is no second piece *)
}.

(** [parseRepoFullName]: [const [owner, repo] = fullName.split('/')] *)
Definition parseRepoFullName (fullName : string) : RepoFullName :=
  match split_on "/"%char fullName with
  | owner :: repo :: _ => mkRepoFullName owner (Some repo)
  | [owner] => mkRepoFullName owner None
  | [] => mkRepoFullName EmptyString None
  end.

Fixpoint contains_char (c : ascii) (s : string) : bool :=
  match s with
  | EmptyString => false
  | String d t => Ascii.eqb d c || contains_char c t
  end.

Definition detailsArgs (repository_name : string) : GetRepositoryDetailsArgs :=
  {| rd_repository_name := repository_name; rd_use_cache := None;
     rd_include_readme := Some true |}.

(** ** The skills matrix ([src/tools/get-skills-matrix.ts])

    The derivation of [getSkillsMatrix] from the two values it awaits, the
    listing and the statistics. *)

Inductive Proficiency := Expert | Advanced | Intermediate | Beginner.

Record SkillInfo := mkSkillInfo {
  skill : string;
  proficiency : Proficiency;
  skill_projects : list string
}.

Record SkillCategory := mkSkillCategory {
  category : string;
  skills : list SkillInfo;
  category_total_projects : Z
}.

Record DeveloperProfile := mkDeveloperProfile {
  dp_name : string;
  dp_role : string;
  dp_location : string;
  dp_total_projects : Z
}.

Record TopLanguage := mkTopLanguage {
  tl_language : string;
  tl_percentage : Q;
  tl_projects : Z
}.

Record DomainEntry := mkDomainEntry {
  domain : string;
  domain_projects : list string;
  domain_count : Z
}.

Record SkillsMatrix := mkSkillsMatrix {
  developer_profile : DeveloperProfile;
  technical_skills : list SkillCategory;
  top_languages : list TopLanguage;
  domains : list DomainEntry;
  matrix_summary : string
}.

(** [arr.includes(x)] on an array of strings. *)
Definition array_includes (x : string) (l : list string) : bool :=
  existsb (String.eqb x) l.

(** [repo.language === l] *)
Definition language_is (l : string) (repo : RepositoryMetadata) : bool :=
  match language repo with
  | Some l' => String.eqb l' l
  | None => false
  end.

(** The conditions of lines 62-79, on the lower-cased name, description and
    topics. *)
Definition lower_topics (repo : RepositoryMetadata) : list string :=
  map Js.toLowerCase (topics repo).

Definition is_devops (repo : RepositoryMetadata) : bool :=
  Js.includes (Js.toLowerCase (name repo)) "devops"
  || array_includes "devops" (lower_topics repo)
  || array_includes "ci-cd" (lower_topics repo)
  || Js.includes (Js.toLowerCase (name repo)) "jenkins".

Definition is_web (repo : RepositoryMetadata) : bool :=
  language_is "JavaScript" repo || language_is "TypeScript" repo
  || array_includes "react" (lower_topics repo)
  || array_includes "angular" (lower_topics repo).

Definition is_ai (repo : RepositoryMetadata) : bool :=
  array_includes "machine-learning" (lower_topics repo)
  || array_includes "ai" (lower_topics repo)
  || Js.includes (Js.toLowerCase (name repo)) "ia"
  || Js.includes (Js.toLowerCase (Js.or_else (description repo) "")) "opencv".

Definition is_mobile (repo : RepositoryMetadata) : bool :=
  array_includes "mobile" (lower_topics repo)
  || language_is "Swift" repo || language_is "Kotlin" repo.

Definition is_cloud (repo : RepositoryMetadata) : bool :=
  array_includes "aws" (lower_topics repo)
  || array_includes "docker" (lower_topics repo)
  || array_includes "kubernetes" (lower_topics repo)
  || Js.includes (Js.toLowerCase (name repo)) "aws".

Definition is_microservices (repo : RepositoryMetadata) : bool :=
  array_includes "microservices" (lower_topics repo)
  || Js.includes (Js.toLowerCase (name repo)) "microservice".

(** [domainMapping[key].push(x)] *)
Definition pushTo (key x : string) (m : list (string * list string))
  : list (string * list string) :=
  JsMap.set String.eqb key (default [] (JsMap.get String.eqb key m) ++ [x]) m.

Definition emptyDomainMapping : list (string * list string) :=
  [("DevOps & CI/CD", []); ("Web Development", []); ("AI & Machine Learning", []);
   ("Mobile Development", []); ("Cloud & Infrastructure", []); ("Microservices", []);
   ("IoT & Embedded", []); ("Data Science", [])].

Definition domainMapping_step (m : list (string * list string))
           (repo : RepositoryMetadata) : list (string * list string) :=
  let m := if is_devops repo then pushTo "DevOps & CI/CD" (name repo) m else m in
  let m := if is_web repo then pushTo "Web Development" (name repo) m else m in
  let m := if is_ai repo then pushTo "AI & Machine Learning" (name repo) m else m in
  let m := if is_mobile repo then pushTo "Mobile Development" (name repo) m else m in
  let m := if is_cloud repo then pushTo "Cloud & Infrastructure" (name repo) m else m in
  if is_microservices repo then pushTo "Microservices" (name repo) m else m.

Definition domainMapping (repos : list RepositoryMetadata) : list (string * list string) :=
  fold_left domainMapping_step repos emptyDomainMapping.

(** [domainMapping[key]] *)
Definition domainOf (key : string) (m : list (string * list string)) : list string :=
  default [] (JsMap.get String.eqb key m).

Definition languageProficiency (n : Z) : Proficiency :=
  if 10 <=? n then Expert else if 5 <=? n then Advanced else Intermediate.

Definition languageSkill (lang : LanguageStats) : SkillInfo :=
  {| skill := ls_language lang;
     proficiency := languageProficiency (count lang);
     skill_projects := Js.slice0 5 (repositories lang) |}.

Definition has_topic (t : string) (r : RepositoryMetadata) : bool :=
  array_includes t (topics r).

Definition technicalSkills (repos : list RepositoryMetadata) (stats : RepositoryStats)
           (dm : list (string * list string)) : list SkillCategory :=
  [ {| category := "Programming Languages";
       skills := map languageSkill (Js.slice0 5 (languages stats));
       category_total_projects := len repos |};
    {| category := "DevOps & Tools";
       skills :=
         [ mkSkillInfo "Docker" Advanced
             (Js.slice0 3 (map name (List.filter (has_topic "docker") repos)));
           mkSkillInfo "Jenkins" Advanced
             (Js.slice0 3 (map name
                (List.filter (fun r => Js.includes (Js.toLowerCase (name r)) "jenkins")
                             repos)));
           mkSkillInfo "CI/CD Pipelines" Advanced
             (Js.slice0 3 (domainOf "DevOps & CI/CD" dm));
           mkSkillInfo "Git & GitHub" Expert
             [Js.or_else (name <$> head repos) "All Projects"] ];
       category_total_projects := len (domainOf "DevOps & CI/CD" dm) |};
    {| category := "Cloud & Infrastructure";
       skills :=
         [ mkSkillInfo "AWS" Advanced
             (Js.slice0 3 (map name
                (List.filter (fun r => has_topic "aws" r
                                       || Js.includes (Js.toLowerCase (name r)) "aws")
                             repos)));
           mkSkillInfo "Microservices Architecture" Advanced
             (Js.slice0 3 (domainOf "Microservices" dm)) ];
       category_total_projects := len (domainOf "Cloud & Infrastructure" dm) |} ].

Definition domainEntries (dm : list (string * list string)) : list DomainEntry :=
  Js.sort (fun a b => Some (domain_count b - domain_count a))
    (map (fun e => {| domain := fst e;
                      domain_projects := Js.slice0 5 (snd e);
                      domain_count := len (snd e) |})
         (List.filter (fun e => 0 <? len (snd e)) dm)).

Definition skillsMatrix (repos : list RepositoryMetadata) (stats : RepositoryStats)
  : SkillsMatrix :=
  let dm := domainMapping repos in
  {| developer_profile :=
       {| dp_name := "Wael Marwani";
          dp_role := "Full Stack Developer | DevOps Engineer | IT Engineer";
          dp_location := "Ariana, Tunisia";
          dp_total_projects := len repos |};
     technical_skills := technicalSkills repos stats dm;
     top_languages :=
       map (fun lang => {| tl_language := ls_language lang;
                           tl_percentage := percentage lang;
                           tl_projects := count lang |})
           (Js.slice0 5 (languages stats));
     domains := domainEntries dm;
     matrix_summary :=
       "Experienced " +:+ pretty (len repos) +:+ "-project developer specializing in "
       +:+ Js.or_else (ls_language <$> head (languages stats)) "Full Stack"
       +:+ " development with " +:+ pretty (total_stars stats)
       +:+ " GitHub stars across portfolio. Strong expertise in DevOps, Cloud Infrastructure, and Modern Web Technologies." |}.

(** The repositories that match a condition, by name, in listing order. *)
Definition namesWhere (p : RepositoryMetadata -> bool) (repos : list RepositoryMetadata)
  : list string :=
  map name (List.filter p repos).

Definition topicRepo (n : string) (lang : option string) (ts : list string)
  : RepositoryMetadata :=
  {| name := n; full_name := "octocat/" +:+ n; description := None;
     url := "https://github.com/octocat/" +:+ n;
     stars := 1; forks := 0; language := lang; topics := ts;
     last_updated := Instant 0; created_at := Instant 0;
     open_issues := 0; homepage := None |}.

(** The six classification rules of lines 66-83, by domain name. *)
Definition domainRules : list (string * (RepositoryMetadata -> bool)) :=
  [("DevOps & CI/CD", is_devops); ("Web Development", is_web);
   ("AI & Machine Learning", is_ai); ("Mobile Development", is_mobile);
   ("Cloud & Infrastructure", is_cloud); ("Microservices", is_microservices)].

(** ** The portfolio summary ([src/tools/generate-portfolio-summary.ts])

    The derivation of [generatePortfolioSummary] from the three values it
    awaits. *)














(** ** Regular expressions, as [RegExp.prototype.test] decides them

    The patterns of the program use character classes, concatenation,
    repetition and optional groups between [^] and [$], without flags: [test]
    tells whether the whole string is in the language of the pattern.  It is
    decided here with derivatives. *)
Module Regex.

Inductive t :=
| Empty
| Eps
| Class (p : ascii -> bool)
| Cat (a b : t)
| Alt (a b : t)
| Star (a : t).

(** [(a)?] *)
Definition Opt (a : t) : t := Alt a Eps.

Fixpoint nullable (r : t) : bool :=
  match r with
  | Empty => false
  | Eps => true
  | Class _ => false
  | Cat a b => nullable a && nullable b
  | Alt a b => nullable a || nullable b
  | Star _ => true
  end.

Fixpoint deriv (c : ascii) (r : t) : t :=
  match r with
  | Empty | Eps => Empty
  | Class p => if p c then Eps else Empty
  | Cat a b =>
      if nullable a then Alt (Cat (deriv c a) b) (deriv c b) else Cat (deriv c a) b
  | Alt a b => Alt (deriv c a) (deriv c b)
  | Star a => Cat (deriv c a) (Star a)
  end.

(** [/^r$/.test(s)] *)
Fixpoint test (r : t) (s : string) : bool :=
  match s with
  | EmptyString => nullable r
  | String c rest => test (deriv c r) rest
  end.

(** The language of a pattern. *)
Inductive Lang : t -> string -> Prop :=
| L_Eps : Lang Eps ""
| L_Class p c : p c = true -> Lang (Class p) (String c "")
| L_Cat a b s1 s2 : Lang a s1 -> Lang b s2 -> Lang (Cat a b) (s1 +:+ s2)
| L_AltL a b s : Lang a s -> Lang (Alt a b) s
| L_AltR a b s : Lang b s -> Lang (Alt a b) s
| L_Star0 a : Lang (Star a) ""
| L_StarS a s1 s2 : Lang a s1 -> Lang (Star a) s2 -> Lang (Star a) (s1 +:+ s2).

End Regex.

Definition char_between (lo hi c : ascii) : bool :=
  (nat_of_ascii lo <=? nat_of_ascii c)%nat && (nat_of_ascii c <=? nat_of_ascii hi)%nat.

(** [[a-zA-Z0-9]] *)
Definition isAlnum (c : ascii) : bool :=
  char_between "a" "z" c || char_between "A" "Z" c || char_between "0" "9" c.

(** [[a-zA-Z0-9-]] *)
Definition isAlnumHyphen (c : ascii) : bool :=
  char_between "a" "z" c || char_between "A" "Z" c || char_between "0" "9" c
  || Ascii.eqb c "-".

(** [/^[a-zA-Z0-9]([a-zA-Z0-9-]*[a-zA-Z0-9])?$/] *)
Definition usernameRegex : Regex.t :=
  Regex.Cat (Regex.Class isAlnum)
    (Regex.Opt (Regex.Cat (Regex.Star (Regex.Class isAlnumHyphen)) (Regex.Class isAlnum))).

(** [isValidGitHubUsername] ([src/utils.ts], lines 59-63). *)
Definition isValidGitHubUsername (username : string) : bool :=
  Regex.test usernameRegex username && (Z.of_nat (String.length username) <=? 39).

Fixpoint all_chars (p : ascii -> bool) (s : string) : bool :=
  match s with
  | EmptyString => true
  | String c rest => p c && all_chars p rest
  end.

Definition first_char (s : string) : option ascii :=
  match s with
  | EmptyString => None
  | String c _ => Some c
  end.

Fixpoint last_char (s : string) : option ascii :=
  match s with
  | EmptyString => None
  | String c EmptyString => Some c
  | String _ rest => last_char rest
  end.

(** ** The configuration ([src/config.ts])

    [process.env] after [dotenv.config()] is a partial map from names to
    strings. *)
Definition Env := string -> option string.

(** [!process.env[key]] *)
Definition unset (env : Env) (key : string) : bool :=
  match env key with
  | Some v => negb (Js.truthy v)
  | None => true
  end.

(** A string is read as the sequence of its code units, each below 256.  Of
    the white space that [parseInt] skips this leaves TAB, LF, VT, FF, CR,
    the space and the no-break space U+00A0. *)
Definition isWhiteSpace (c : ascii) : bool :=
  char_between (ascii_of_nat 9) (ascii_of_nat 13) c || Ascii.eqb c " "
  || Ascii.eqb c (ascii_of_nat 160).

Definition isDigit (c : ascii) : bool := char_between "0" "9" c.

Fixpoint skipWhiteSpace (s : string) : string :=
  match s with
  | EmptyString => EmptyString
  | String c rest => if isWhiteSpace c then skipWhiteSpace rest else s
  end.

(** The value of the longest prefix of decimal digits, continuing [acc]. *)
Fixpoint digitsValue (acc : Z) (s : string) : Z :=
  match s with
  | EmptyString => acc
  | String c rest =>
      if isDigit c then digitsValue (10 * acc + (Z.of_nat (nat_of_ascii c) - 48)) rest
      else acc
  end.

(** What [parseInt] returns: [NaN], a double that is a whole number, or an
    infinity.  The sign of zero is not kept. *)
Inductive Number :=
| NaN
| Finite (n : Z)
| Infinity (negative : bool).

(** The Number for a natural number: the nearest double, which is a whole
    number, and [Infinity] from [2^1024 - 2^970] on.  (Past 20 significant
    digits the standard lets an engine read the further digits as zeros; the
    nearest double is taken here.) *)
Definition numberOfNat (m : Z) : Number :=
  if 2 ^ 1024 - 2 ^ 970 <=? m then Infinity false
  else Finite (Qfloor (Float64.rnd (inject_Z m))).

Definition negate (x : Number) : Number :=
  match x with
  | NaN => NaN
  | Finite n => Finite (- n)
  | Infinity negative => Infinity (negb negative)
  end.

(** The digits after the sign: [NaN] when there is none. *)
Definition parseDigits (s : string) : Number :=
  match s with
  | EmptyString => NaN
  | String c _ => if isDigit c then numberOfNat (digitsValue 0 s) else NaN
  end.

(** [parseInt(s, 10)] *)
Definition parseInt10 (s : string) : Number :=
  match skipWhiteSpace s with
  | String c rest =>
      if Ascii.eqb c "-" then negate (parseDigits rest)
      else if Ascii.eqb c "+" then parseDigits rest
      else parseDigits (String c rest)
  | EmptyString => NaN
  end.

(** The settings as [getConfig] builds them: the two numbers are what
    [parseInt] returns, [NaN] included. *)
Record LoadedConfig := mkLoadedConfig {
  loaded_github_token : string;
  loaded_github_username : string;
  loaded_cache_ttl : Number;
  loaded_cache_check_period : Number;
  loaded_api_base_url : string
}.

Definition requiredVariables : list string := ["GITHUB_TOKEN"; "GITHUB_USERNAME"].

Definition missingVariables (env : Env) : list string :=
  List.filter (unset env) requiredVariables.

Definition validateConfig (env : Env) : Js.Error + unit :=
  let missing := missingVariables env in
  if 0 <? len missing then
    inl (Js.mkError "Error"
           ("Missing required environment variables: " +:+ String.concat ", " missing
            +:+ String (ascii_of_nat 10) ""
            +:+ "Please create a .env file based on .env.example"))
  else inr tt.

Definition getConfig (env : Env) : Js.Error + LoadedConfig :=
  match validateConfig env with
  | inl e => inl e
  | inr _ =>
      inr {| loaded_github_token := default "" (env "GITHUB_TOKEN");
             loaded_github_username := default "" (env "GITHUB_USERNAME");
             loaded_cache_ttl := parseInt10 (Js.or_else (env "CACHE_TTL_SECONDS") "3600");
             loaded_cache_check_period :=
               parseInt10 (Js.or_else (env "CACHE_CHECK_PERIOD_SECONDS") "600");
             loaded_api_base_url :=
               Js.or_else (env "GITHUB_API_BASE_URL") "https://api.github.com" |}
  end.

(** The settings the client and the cache work with, when both numbers are
    numbers. *)
Definition asServerConfig (c : LoadedConfig) : option ServerConfig :=
  match loaded_cache_ttl c, loaded_cache_check_period c with
  | Finite ttl, Finite period =>
      Some {| github_token := loaded_github_token c;
              github_username := loaded_github_username c;
              cache_ttl := ttl; cache_check_period := period;
              api_base_url := loaded_api_base_url c |}
  | _, _ => None
  end.

Definition starts_with_digit (s : string) : bool :=
  match s with
  | EmptyString => false
  | String c _ => isDigit c
  end.

Definition sampleEnv : Env :=
  fun key =>
    if String.eqb key "GITHUB_TOKEN" then Some "ghp_example"
    else if String.eqb key "GITHUB_USERNAME" then Some "octocat"
    else if String.eqb key "CACHE_TTL_SECONDS" then Some " 60s"
    else None.
(** * Properties *)

(** ** The sort *)

Section SortFacts.
Context {A : Type} (cmp : A -> A -> Js.Num).

Lemma insert_sorted_perm (x : A) (l : list A) :
  Permutation (Js.insert_sorted cmp x l) (x :: l).
Proof.
  induction l as [|y t IH]; simpl; [reflexivity|].
  destruct (Js.keeps cmp x y); [reflexivity|].
  rewrite IH. apply perm_swap.
Qed.

Lemma sort_perm (l : list A) : Permutation (Js.sort cmp l) l.
Proof.
  induction l as [|x t IH]; simpl; [reflexivity|].
  rewrite insert_sorted_perm. now constructor.
Qed.

Lemma sort_In (l : list A) (x : A) : In x (Js.sort cmp l) <-> In x l.
Proof.
  split; apply Permutation_in; [|symmetry]; apply sort_perm.
Qed.

Lemma sort_length (l : list A) : length (Js.sort cmp l) = length l.
Proof. apply Permutation_length, sort_perm. Qed.

(** When the comparator never answers "swap" in both directions, the result
    is ordered pair by pair. *)
Hypothesis keeps_total : forall a b, Js.keeps cmp a b = false -> Js.keeps cmp b a = true.

Lemma insert_sorted_Sorted (x : A) (l : list A) :
  Sorted (fun a b => Js.keeps cmp a b = true) l ->
  Sorted (fun a b => Js.keeps cmp a b = true) (Js.insert_sorted cmp x l).
Proof.
  induction l as [|y t IH]; intros Hs; simpl.
  - repeat constructor.
  - destruct (Js.keeps cmp x y) eqn:Hxy.
    + constructor; [assumption|]. now constructor.
    + inversion Hs as [|? ? Ht Hhd]; subst.
      constructor; [now apply IH|].
      destruct t as [|z t']; simpl.
      * constructor. now apply keeps_total.
      * destruct (Js.keeps cmp x z); constructor.
        -- now apply keeps_total.
        -- now inversion Hhd.
Qed.

Lemma sort_Sorted (l : list A) :
  Sorted (fun a b => Js.keeps cmp a b = true) (Js.sort cmp l).
Proof.
  induction l as [|x t IH]; simpl; [constructor|].
  now apply insert_sorted_Sorted.
Qed.
End SortFacts.

(** ** Most starred, most forked *)

Lemma most_by_step (f : RepositoryMetadata -> Z) (l pre : list RepositoryMetadata)
      (m : RepositoryMetadata) (i : nat) :
  pre !! i = Some m ->
  (forall r', In r' pre -> f r' <= f m) ->
  (forall j r', (j < i)%nat -> pre !! j = Some r' -> f r' < f m) ->
  exists i' r,
    (pre ++ l) !! i' = Some r /\
    fold_left (fun max repo =>
                 if Js.or_zero (f <$> max) <? f repo then Some repo else max)
              l (Some m) = Some r /\
    (forall r', In r' (pre ++ l) -> f r' <= f r) /\
    (forall j r', (j < i')%nat -> (pre ++ l) !! j = Some r' -> f r' < f r).
Proof.
  revert pre m i. induction l as [|x t IH]; intros pre m i Hi Hmax Hfirst.
  - exists i, m. rewrite app_nil_r. auto.
  - cbn [fold_left].
    assert (Hz : Js.or_zero (f <$> Some m) = f m).
    { cbn. destruct (f m =? 0) eqn:E; [apply Z.eqb_eq in E; lia | reflexivity]. }
    rewrite Hz.
    replace (pre ++ x :: t) with ((pre ++ [x]) ++ t) by (rewrite <- app_assoc; reflexivity).
    destruct (f m <? f x) eqn:Hlt.
    + apply Z.ltb_lt in Hlt.
      apply (IH (pre ++ [x]) x (length pre)).
      * rewrite lookup_app_r by lia. now rewrite Nat.sub_diag.
      * intros r' Hin. apply in_app_or in Hin as [Hin|[<-|[]]]; [|lia].
        specialize (Hmax _ Hin). lia.
      * intros j r' Hj Hl. rewrite lookup_app_l in Hl by lia.
        assert (In r' pre) by (apply list_elem_of_In; eapply list_elem_of_lookup_2; eauto).
        specialize (Hmax r' H). lia.
    + apply Z.ltb_ge in Hlt.
      apply (IH (pre ++ [x]) m i).
      * rewrite lookup_app_l; [assumption|]. eapply lookup_lt_Some; eauto.
      * intros r' Hin. apply in_app_or in Hin as [Hin|[<-|[]]]; [auto|lia].
      * intros j r' Hj Hl. apply (Hfirst j r' Hj).
        rewrite lookup_app_l in Hl; [assumption|].
        apply lookup_lt_Some in Hi. lia.
Qed.

Lemma most_by_first_max (f : RepositoryMetadata -> Z) (repos : list RepositoryMetadata) :
  repos <> [] ->
  exists i r,
    repos !! i = Some r /\ most_by f repos = Some r /\
    (forall r', In r' repos -> f r' <= f r) /\
    (forall j r', (j < i)%nat -> repos !! j = Some r' -> f r' < f r).
Proof.
  destruct repos as [|x t]; [congruence|]. intros _.
  unfold most_by. cbn [head fold_left].
  assert (Hz : (Js.or_zero (f <$> Some x) <? f x) = false).
  { cbn. destruct (f x =? 0) eqn:E; [apply Z.eqb_eq in E|]; apply Z.ltb_ge; lia. }
  rewrite Hz.
  apply (most_by_step f t [x] x 0%nat).
  - reflexivity.
  - intros r' [<-|[]]. lia.
  - intros j r' Hj. lia.
Qed.

(** C8: for a non-empty list, [most_starred_repo] is the earliest repository
    whose star count is the maximum, and [most_forked_repo] the earliest whose
    fork count is the maximum; for the empty list both are [null]. *)
Theorem C8_most_starred_forked_first_max (repos : list RepositoryMetadata) :
  most_starred_repo (repositoryStats []) = None /\
  most_forked_repo (repositoryStats []) = None /\
  (repos <> [] ->
   (exists i r,
      repos !! i = Some r /\ most_starred_repo (repositoryStats repos) = Some r /\
      (forall r', In r' repos -> stars r' <= stars r) /\
      (forall j r', (j < i)%nat -> repos !! j = Some r' -> stars r' < stars r)) /\
   (exists i r,
      repos !! i = Some r /\ most_forked_repo (repositoryStats repos) = Some r /\
      (forall r', In r' repos -> forks r' <= forks r) /\
      (forall j r', (j < i)%nat -> repos !! j = Some r' -> forks r' < forks r))).
Proof.
  split; [reflexivity|]. split; [reflexivity|].
  intros Hne. split; cbn [most_starred_repo most_forked_repo repositoryStats];
    now apply most_by_first_max.
Qed.

Lemma C8_witness :
  [goA; goB; pyC] <> [] /\
  exists i r,
    [goA; goB; pyC] !! i = Some r /\
    most_starred_repo (repositoryStats [goA; goB; pyC]) = Some r /\
    (forall r', In r' [goA; goB; pyC] -> stars r' <= stars r) /\
    (forall j r', (j < i)%nat -> [goA; goB; pyC] !! j = Some r' -> stars r' < stars r).
Proof.
  assert (Hne : [goA; goB; pyC] <> []) by discriminate.
  split; [exact Hne|].
  exact (proj1 (proj2 (proj2 (C8_most_starred_forked_first_max [goA; goB; pyC])) Hne)).
Defined.

(** ** The search filter *)

Lemma prefix_spec (p s : string) :
  String.prefix p s = true <-> exists post, s = p +:+ post.
Proof.
  revert s. induction p as [|c p IH]; intros s.
  - split; [intros _; now exists s | intros _; now destruct s].
  - destruct s as [|d s]; simpl.
    + split; [discriminate | intros [post H]; discriminate].
    + destruct (Ascii.ascii_dec c d) as [->|Hne].
      * rewrite IH. split; intros [post H]; exists post; [now rewrite H | now injection H].
      * split; [discriminate | intros [post H]; injection H; congruence].
Qed.

Lemma includes_unfold (s sub : string) :
  Js.includes s sub =
  if String.prefix sub s then true
  else match s with
       | EmptyString => false
       | String _ t => Js.includes t sub
       end.
Proof. now destruct s. Qed.

Lemma includes_spec (s sub : string) :
  Js.includes s sub = true <-> exists pre post, s = pre +:+ sub +:+ post.
Proof.
  induction s as [|c s IH]; rewrite includes_unfold.
  - destruct (String.prefix sub "") eqn:Hp.
    + split; [intros _|reflexivity]. apply prefix_spec in Hp as [post Hp].
      now exists "", post.
    + split; [discriminate|]. intros [pre [post H]].
      destruct pre; [|discriminate]. simpl in H.
      assert (String.prefix sub "" = true) by (apply prefix_spec; eauto). congruence.
  - destruct (String.prefix sub (String c s)) eqn:Hp.
    + split; [intros _|reflexivity]. apply prefix_spec in Hp as [post Hp].
      now exists "", post.
    + rewrite IH. split.
      * intros [pre [post ->]]. now exists (String c pre), post.
      * intros [pre [post H]]. destruct pre as [|d pre].
        -- simpl in H. assert (String.prefix sub (String c s) = true)
             by (apply prefix_spec; eauto). congruence.
        -- injection H as _ ->. now exists pre, post.
Qed.

Lemma truthy_spec (s : string) : Js.truthy s = true <-> s <> "".
Proof. destruct s; simpl; split; congruence. Qed.

Lemma language_matches_spec (wanted : string) (r : RepositoryMetadata) :
  language_matches wanted r = true <->
  exists rl, language r = Some rl /\ Js.toLowerCase rl = Js.toLowerCase wanted.
Proof.
  unfold language_matches. destruct (language r) as [rl|].
  - rewrite String.eqb_eq. split; [eauto|]. now intros [? [[= <-] ?]].
  - split; [discriminate|]. now intros [? [? _]].
Qed.

Lemma topic_matches_spec (wanted : string) (r : RepositoryMetadata) :
  topic_matches wanted r = true <->
  exists topic pre post,
    In topic (topics r) /\
    Js.toLowerCase topic = pre +:+ Js.toLowerCase wanted +:+ post.
Proof.
  unfold topic_matches. rewrite existsb_exists. split.
  - intros [topic [Hin H]]. apply includes_spec in H as [pre [post H]]. eauto 6.
  - intros [topic [pre [post [Hin H]]]]. exists topic. split; [assumption|].
    apply includes_spec. eauto.
Qed.

Lemma language_stage_In (filters : SearchFilters) (repos : list RepositoryMetadata)
      (r : RepositoryMetadata) :
  In r (match f_language filters with
        | Some l => if Js.truthy l then List.filter (language_matches l) repos else repos
        | None => repos
        end) <->
  In r repos /\ language_filter_holds filters r.
Proof.
  unfold language_filter_holds. destruct (f_language filters) as [l|].
  - destruct (Js.truthy l) eqn:Hl.
    + rewrite filter_In, language_matches_spec. split.
      * intros [Hin H]. split; [assumption|]. now intros l' [= <-] _.
      * intros [Hin H]. split; [assumption|]. apply (H l eq_refl). now apply truthy_spec.
    + split; [|tauto]. intros Hin. split; [assumption|].
      intros l' [= <-] Hne. apply truthy_spec in Hne. congruence.
  - split; [|tauto]. intros Hin. split; [assumption|]. intros ? [=].
Qed.

Lemma topic_stage_In (filters : SearchFilters) (repos : list RepositoryMetadata)
      (r : RepositoryMetadata) :
  In r (match f_topic filters with
        | Some t => if Js.truthy t then List.filter (topic_matches t) repos else repos
        | None => repos
        end) <->
  In r repos /\ topic_filter_holds filters r.
Proof.
  unfold topic_filter_holds. destruct (f_topic filters) as [t|].
  - destruct (Js.truthy t) eqn:Ht.
    + rewrite filter_In, topic_matches_spec. split.
      * intros [Hin H]. split; [assumption|]. now intros t' [= <-] _.
      * intros [Hin H]. split; [assumption|]. apply (H t eq_refl). now apply truthy_spec.
    + split; [|tauto]. intros Hin. split; [assumption|].
      intros t' [= <-] Hne. apply truthy_spec in Hne. congruence.
  - split; [|tauto]. intros Hin. split; [assumption|]. intros ? [=].
Qed.

Lemma stars_stage_In (filters : SearchFilters) (repos : list RepositoryMetadata)
      (r : RepositoryMetadata) :
  In r (match f_min_stars filters with
        | Some m => List.filter (fun repo => m <=? stars repo) repos
        | None => repos
        end) <->
  In r repos /\ min_stars_filter_holds filters r.
Proof.
  unfold min_stars_filter_holds. destruct (f_min_stars filters) as [m|].
  - rewrite filter_In, Z.leb_le. split.
    + intros [Hin H]. split; [assumption|]. now intros m' [= <-].
    + intros [Hin H]. split; [assumption|]. now apply H.
  - split; [|tauto]. intros Hin. split; [assumption|]. intros ? [=].
Qed.

Lemma applyFilters_In (filters : SearchFilters) (repos : list RepositoryMetadata)
      (r : RepositoryMetadata) :
  In r (applyFilters filters repos) <->
  In r repos /\ language_filter_holds filters r /\
  topic_filter_holds filters r /\ min_stars_filter_holds filters r.
Proof.
  unfold applyFilters. cbv zeta.
  rewrite stars_stage_In, topic_stage_In, language_stage_In. tauto.
Qed.

(** C5: the search filter is the conjunction of the case-insensitive language
    equality, the case-insensitive substring match on any topic and the
    inclusive minimum star count; on languages Go, Go, Python with stars
    5, 0, 10 the filter language=go, min_stars=1 keeps exactly the first. *)
Theorem C5_search_filter_conjunction :
  (forall filters repos r,
     In r (searchRepos filters repos) <->
     In r repos /\ language_filter_holds filters r /\
     topic_filter_holds filters r /\ min_stars_filter_holds filters r) /\
  searchRepos goFilter [goA; goB; pyC] = [goA].
Proof.
  split; [|reflexivity].
  intros filters repos r. rewrite <- applyFilters_In.
  unfold searchRepos, applySort.
  destruct (f_sort_by filters); [apply sort_In | reflexivity].
Qed.

(** ** The contribution streak *)

Lemma indexOf_lower (x : Z) (l : list Z) : -1 <= Js.indexOf x l.
Proof.
  induction l as [|y t IH]; simpl; [lia|].
  destruct (x =? y); [lia|]. destruct (Js.indexOf x t <? 0); lia.
Qed.

Lemma indexOf_upper (x : Z) (l : list Z) : Js.indexOf x l < len l.
Proof.
  unfold len. induction l as [|y t IH]; simpl length; simpl Js.indexOf; [lia|].
  destruct (x =? y); [lia|]. destruct (Js.indexOf x t <? 0); lia.
Qed.

Lemma indexOf_app_in (x : Z) (pre l : list Z) :
  In x pre -> Js.indexOf x (pre ++ l) = Js.indexOf x pre.
Proof.
  induction pre as [|y t IH]; simpl; [tauto|].
  intros Hin. destruct (Z.eqb_spec x y); [reflexivity|].
  rewrite IH; [reflexivity|]. destruct Hin; congruence.
Qed.

Lemma indexOf_app_fresh (x : Z) (pre t : list Z) :
  ~ In x pre -> Js.indexOf x (pre ++ x :: t) = len pre.
Proof.
  unfold len. induction pre as [|y p IH]; simpl length; simpl Js.indexOf.
  - intros _. now rewrite Z.eqb_refl.
  - intros Hn. destruct (Z.eqb_spec x y) as [->|_]; [exfalso; apply Hn; now left|].
    rewrite IH by (intros H; apply Hn; now right).
    destruct (Z.of_nat (length p) <? 0) eqn:E; [apply Z.ltb_lt in E|]; lia.
Qed.

Lemma first_occurrence_spec (x : Z) (pre t : list Z) :
  first_occurrence x (len pre) (pre ++ x :: t) =
  if in_dec Z.eq_dec x pre then false else true.
Proof.
  unfold first_occurrence. destruct (in_dec Z.eq_dec x pre) as [Hin|Hin].
  - rewrite indexOf_app_in by assumption.
    pose proof (indexOf_upper x pre). apply Z.eqb_neq. lia.
  - rewrite indexOf_app_fresh by assumption. apply Z.eqb_refl.
Qed.

Lemma dedupe_from (l pre : list Z) :
  let kept := Js.filter_from first_occurrence (pre ++ l) (len pre) l in
  NoDup kept /\ forall y, In y kept <-> In y l /\ ~ In y pre.
Proof.
  revert pre. induction l as [|x t IH]; intros pre; cbn zeta.
  - simpl. split; [constructor | tauto].
  - cbn [Js.filter_from]. rewrite first_occurrence_spec.
    assert (Hlen : len pre + 1 = len (pre ++ [x])).
    { unfold len. rewrite length_app. simpl. lia. }
    assert (Hself : pre ++ x :: t = (pre ++ [x]) ++ t).
    { rewrite <- app_assoc. reflexivity. }
    rewrite Hlen, Hself.
    destruct (IH (pre ++ [x])) as [Hnd Hin]. cbn zeta in Hnd, Hin.
    destruct (in_dec Z.eq_dec x pre) as [Hx|Hx].
    + split; [assumption|]. intros y. rewrite Hin, in_app_iff. simpl.
      split; [tauto|]. intros [[->|Hy] Hn]; [tauto|].
      repeat split; try assumption. intros [?|[<-|[]]]; tauto.
    + split.
      * constructor; [|assumption]. rewrite list_elem_of_In, Hin, in_app_iff. simpl. tauto.
      * intros y. simpl. rewrite Hin, in_app_iff. simpl.
        destruct (Z.eq_dec x y) as [->|Hne]; tauto.
Qed.

Lemma dedupe_spec (l : list Z) :
  NoDup (Js.filter_indexed first_occurrence l) /\
  forall y, In y (Js.filter_indexed first_occurrence l) <-> In y l.
Proof.
  destruct (dedupe_from l []) as [Hnd Hin]. cbn zeta in Hnd, Hin. simpl in Hnd, Hin.
  split; [assumption|]. intros y. rewrite Hin. tauto.
Qed.

Lemma dayTime_diff (a b : Z) : (dayTime a - dayTime b) / msPerDay = a - b.
Proof.
  unfold dayTime. rewrite <- Z.mul_sub_distr_r. apply Z.div_mul. discriminate.
Qed.

Lemma Sorted_ge_NoDup_gt (l : list Z) :
  Sorted (fun a b => b <= a) l -> NoDup l -> Sorted (fun a b => b < a) l.
Proof.
  induction 1 as [|a l Hs IH Hhd]; intros Hnd; [constructor|].
  inversion Hnd as [|? ? Hnotin Hnd']; subst.
  constructor; [now apply IH|].
  destruct Hhd as [|b l Hba]; constructor.
  assert (a <> b) by (intros ->; apply Hnotin; now left). lia.
Qed.

Lemma streakDates_spec (days : list CalendarDate) :
  Sorted (fun a b => b < a) (streakDates days) /\
  forall d, In d (streakDates days) <-> In d days.
Proof.
  unfold streakDates.
  set (cmp := fun a b : Z => Some (dayTime b - dayTime a)).
  destruct (dedupe_spec days) as [Hnd Hin].
  split.
  - apply Sorted_ge_NoDup_gt.
    + assert (Hk : forall a b, Js.keeps cmp a b = true <-> b <= a).
      { intros a b. unfold Js.keeps, cmp, dayTime, msPerDay. rewrite Z.leb_le. lia. }
      assert (Hs := sort_Sorted cmp).
      eapply Sorted_ind with
        (P := fun l => Sorted (fun a b => b <= a) l);
        [constructor | | apply Hs].
      * intros a l _ IH Hhd. constructor; [assumption|].
        destruct Hhd; constructor. now apply Hk.
      * intros a b Hab.
        destruct (Js.keeps cmp b a) eqn:E; [reflexivity|].
        assert (~ (a <= b)) by (rewrite <- Hk; congruence).
        assert (~ (b <= a)) by (rewrite <- Hk; congruence). lia.
    + now rewrite sort_perm.
  - intros d. rewrite sort_In. apply Hin.
Qed.

Lemma streakLoop_cons2 (a b : CalendarDate) (l : list CalendarDate) (streak : Z) :
  streakLoop (a :: b :: l) streak =
  if (dayTime a - dayTime b) / msPerDay =? 1 then streakLoop (b :: l) (streak + 1)
  else if 1 <? (dayTime a - dayTime b) / msPerDay then streak
       else streakLoop (b :: l) streak.
Proof. reflexivity. Qed.

Lemma leadingRun_cons2 (a b : CalendarDate) (l : list CalendarDate) :
  leadingRun (a :: b :: l) = if a - b =? 1 then 1 + leadingRun (b :: l) else 0.
Proof. reflexivity. Qed.

Lemma streakLoop_leadingRun (dates : list CalendarDate) (streak : Z) :
  Sorted (fun a b => b < a) dates ->
  streakLoop dates streak = streak + leadingRun dates.
Proof.
  intros Hs. revert streak. induction Hs as [|a l Hs IH Hhd]; intros streak.
  - simpl. lia.
  - destruct Hhd as [|b l Hba].
    + simpl. lia.
    + rewrite streakLoop_cons2, leadingRun_cons2, dayTime_diff.
      destruct (Z.eqb_spec (a - b) 1).
      * rewrite IH. lia.
      * destruct (Z.ltb_spec 1 (a - b)); lia.
Qed.

Lemma leadingRun_nonneg (dates : list CalendarDate) : 0 <= leadingRun dates.
Proof.
  induction dates as [|a [|b t] IH]; simpl; try lia.
  destruct (a - b =? 1); [|lia]. simpl in IH. lia.
Qed.

Lemma omap_dates (commits : list CommitMetadata) (instants : list Z) :
  map date commits = map Instant instants ->
  omap (fun c => toISODate (date c)) commits = Ok (daysOf instants).
Proof.
  revert instants. induction commits as [|c cs IH]; intros [|t ts] H; try discriminate.
  - reflexivity.
  - simpl in H. injection H as Hc Hcs. simpl. rewrite Hc. simpl.
    now rewrite (IH ts Hcs).
Qed.

Lemma calculateStreak_valid (commits : list CommitMetadata) (instants : list Z) :
  commits <> [] ->
  map date commits = map Instant instants ->
  calculateStreak commits = Ok (1 + leadingRun (streakDates (daysOf instants))).
Proof.
  intros Hne Hd. unfold calculateStreak.
  destruct commits as [|c cs]; [congruence|].
  replace (len (c :: cs) =? 0) with false
    by (symmetry; apply Z.eqb_neq; unfold len; simpl; lia).
  rewrite (omap_dates _ _ Hd). simpl.
  now rewrite streakLoop_leadingRun by apply streakDates_spec.
Qed.

Ltac decide_cmp :=
  match goal with
  | |- context [?a =? ?b] =>
      first [ replace (a =? b) with true by (symmetry; apply Z.eqb_eq; lia)
            | replace (a =? b) with false by (symmetry; apply Z.eqb_neq; lia) ]
  | |- context [?a <? ?b] =>
      first [ replace (a <? b) with true by (symmetry; apply Z.ltb_lt; lia)
            | replace (a <? b) with false by (symmetry; apply Z.ltb_ge; lia) ]
  | |- context [?a <=? ?b] =>
      first [ replace (a <=? b) with true by (symmetry; apply Z.leb_le; lia)
            | replace (a <=? b) with false by (symmetry; apply Z.leb_gt; lia) ]
  end.

Ltac run_streak :=
  unfold streakDates, Js.filter_indexed, first_occurrence, dayTime, msPerDay;
  repeat (cbn [Js.filter_from Js.indexOf Js.sort Js.insert_sorted Js.keeps leadingRun];
          decide_cmp);
  cbn [Js.filter_from Js.indexOf Js.sort Js.insert_sorted Js.keeps leadingRun].

Lemma streakDates_three (D : CalendarDate) :
  streakDates [D; D - 1; D - 2] = [D; D - 1; D - 2].
Proof. run_streak. reflexivity. Qed.

Lemma streakDates_gap (D : CalendarDate) :
  streakDates [D; D - 2] = [D; D - 2].
Proof. run_streak. reflexivity. Qed.

Lemma nonempty_of_days {A B} (f : A -> DateString) (commits : list A)
      (instants : list Z) (d : B) (ds : list B) (g : Z -> B) :
  map f commits = map Instant instants -> map g instants = d :: ds -> commits <> [].
Proof. destruct commits, instants; simpl; congruence. Qed.

(** A commit whose date text does not parse (the client itself writes the
    empty text when the author date is missing) makes [toISOString] throw. *)
Lemma calculateStreak_invalid_date :
  calculateStreak [sampleCommit (Unparseable "")] =
  Throw (Js.mkError "RangeError" "Invalid time value").
Proof. reflexivity. Qed.

Lemma Sorted_gt_strong (l : list Z) :
  Sorted (fun a b => b < a) l -> StronglySorted (fun a b => b < a) l.
Proof. apply Sorted_StronglySorted. intros a b c. lia. Qed.

(** Two strictly descending lists with the same members are the same list. *)
Lemma descending_unique (l1 l2 : list Z) :
  Sorted (fun a b => b < a) l1 -> Sorted (fun a b => b < a) l2 ->
  (forall d, In d l1 <-> In d l2) -> l1 = l2.
Proof.
  intros H1 H2. apply Sorted_gt_strong in H1. apply Sorted_gt_strong in H2.
  revert l2 H2. induction H1 as [|a t1 Hs1 IH Hall1]; intros l2 H2 Hin.
  - destruct l2 as [|b t2]; [reflexivity|].
    exfalso. apply (Hin b). now left.
  - destruct H2 as [|b t2 Hs2 Hall2].
    + exfalso. apply (Hin a). now left.
    + rewrite List.Forall_forall in Hall1, Hall2.
      assert (Hab : a = b).
      { assert (Ha : In a (b :: t2)) by (apply Hin; now left).
        assert (Hb : In b (a :: t1)) by (apply Hin; now left).
        destruct Ha as [Ha|Ha]; [congruence|].
        destruct Hb as [Hb|Hb]; [congruence|].
        specialize (Hall1 _ Hb). specialize (Hall2 _ Ha). lia. }
      subst b. f_equal. apply IH; [assumption|].
      intros d. split; intros Hd.
      * assert (Hd' : In d (a :: t2)) by (apply Hin; now right).
        destruct Hd' as [->|Hd']; [|assumption].
        specialize (Hall1 _ Hd). lia.
      * assert (Hd' : In d (a :: t1)) by (apply Hin; now right).
        destruct Hd' as [->|Hd']; [|assumption].
        specialize (Hall2 _ Hd). lia.
Qed.

Lemma streakDates_of_set (days expected : list CalendarDate) :
  Sorted (fun a b => b < a) expected ->
  (forall d, In d days <-> In d expected) ->
  streakDates days = expected.
Proof.
  intros Hs Hin. destruct (streakDates_spec days) as [Hs' Hin'].
  apply descending_unique; [assumption|assumption|].
  intros d. now rewrite Hin'.
Qed.

Lemma omap_dates_inv (commits : list CommitMetadata) (days : list CalendarDate) :
  omap (fun c => toISODate (date c)) commits = Ok days ->
  exists instants, map date commits = map Instant instants.
Proof.
  revert days. induction commits as [|c cs IH]; intros days H.
  - now exists [].
  - simpl in H. destruct (date c) as [ms|raw] eqn:Hc; [|discriminate]. simpl in H.
    destruct (omap _ cs) as [ds| |] eqn:Hcs; try discriminate.
    destruct (IH ds eq_refl) as [instants Hi].
    exists (ms :: instants). simpl. now rewrite Hc, Hi.
Qed.

Lemma findMostActiveDay_guards (commits : list CommitMetadata) (day : string + CalendarDate) :
  findMostActiveDay commits = Ok day ->
  exists instants, map date commits = map Instant instants.
Proof.
  unfold findMostActiveDay. destruct (len commits =? 0) eqn:E.
  - intros _. destruct commits; [now exists [] | ].
    apply Z.eqb_eq in E. unfold len in E. simpl in E. lia.
  - destruct (omap _ commits) as [days| |] eqn:Hd; try discriminate.
    intros _. now apply (omap_dates_inv commits days).
Qed.

(** C2: dates [D, D-1, D-2] give streak 3 and dates [D, D-2] give streak 1
    (as listed, and in any order with any repetition); the empty sample
    gives 0; a non-empty sample gives at least 1; the streak is
    one plus the number of leading pairs of the distinct, descending dates
    that are exactly one day apart. The sample is one whose dates parse: the
    only caller runs [findMostActiveDay] on it first, which throws
    otherwise. *)
Theorem C2_contribution_streak :
  (forall D commits instants,
     map date commits = map Instant instants ->
     daysOf instants = [D; D - 1; D - 2] ->
     calculateStreak commits = Ok 3) /\
  (forall D commits instants,
     map date commits = map Instant instants ->
     daysOf instants = [D; D - 2] ->
     calculateStreak commits = Ok 1) /\
  (forall D commits instants,
     map date commits = map Instant instants ->
     (forall d, In d (daysOf instants) <-> d = D \/ d = D - 1 \/ d = D - 2) ->
     calculateStreak commits = Ok 3) /\
  (forall D commits instants,
     map date commits = map Instant instants ->
     (forall d, In d (daysOf instants) <-> d = D \/ d = D - 2) ->
     calculateStreak commits = Ok 1) /\
  calculateStreak [] = Ok 0 /\
  (forall commits instants,
     commits <> [] ->
     map date commits = map Instant instants ->
     exists n, calculateStreak commits = Ok n /\ 1 <= n) /\
  (forall commits instants,
     commits <> [] ->
     map date commits = map Instant instants ->
     let dates := streakDates (daysOf instants) in
     Sorted (fun a b => b < a) dates /\
     (forall d, In d dates <-> In d (daysOf instants)) /\
     calculateStreak commits = Ok (1 + leadingRun dates)) /\
  (forall commits day,
     findMostActiveDay commits = Ok day ->
     exists instants, map date commits = map Instant instants).
Proof.
  split; [|split; [|split; [|split; [|split; [|split; [|split]]]]]];
    [| | | | | | repeat split | apply findMostActiveDay_guards].
  - intros D commits instants Hd Hdays.
    rewrite (calculateStreak_valid commits instants);
      [|eapply nonempty_of_days; eauto|assumption].
    rewrite Hdays, streakDates_three. f_equal.
    cbn [leadingRun]. repeat decide_cmp. reflexivity.
  - intros D commits instants Hd Hdays.
    rewrite (calculateStreak_valid commits instants);
      [|eapply nonempty_of_days; eauto|assumption].
    rewrite Hdays, streakDates_gap. f_equal.
    cbn [leadingRun]. repeat decide_cmp. reflexivity.
  - intros D commits instants Hd Hdays.
    assert (Hne : commits <> []).
    { intros ->. destruct instants; [|discriminate].
      specialize (Hdays D). simpl in Hdays. tauto. }
    rewrite (calculateStreak_valid commits instants Hne Hd).
    rewrite (streakDates_of_set _ [D; D - 1; D - 2]).
    + f_equal. cbn [leadingRun]. repeat decide_cmp. reflexivity.
    + repeat constructor; lia.
    + intros d. rewrite Hdays. simpl. intuition lia.
  - intros D commits instants Hd Hdays.
    assert (Hne : commits <> []).
    { intros ->. destruct instants; [|discriminate].
      specialize (Hdays D). simpl in Hdays. tauto. }
    rewrite (calculateStreak_valid commits instants Hne Hd).
    rewrite (streakDates_of_set _ [D; D - 2]).
    + f_equal. cbn [leadingRun]. repeat decide_cmp. reflexivity.
    + repeat constructor; lia.
    + intros d. rewrite Hdays. simpl. intuition lia.
  - reflexivity.
  - intros commits instants Hne Hd. eexists. split.
    + exact (calculateStreak_valid commits instants Hne Hd).
    + pose proof (leadingRun_nonneg (streakDates (daysOf instants))). lia.
  - apply streakDates_spec.
  - apply streakDates_spec.
  - apply streakDates_spec.
  - now apply calculateStreak_valid.
Qed.

Lemma C2_witness :
  [sampleCommit (Instant 172800000); sampleCommit (Instant 86400000);
   sampleCommit (Instant 0)] <> [] /\
  calculateStreak [sampleCommit (Instant 172800000); sampleCommit (Instant 86400000);
                   sampleCommit (Instant 0)] = Ok 3.
Proof.
  split; [discriminate|].
  apply (proj1 C2_contribution_streak 2
               [sampleCommit (Instant 172800000); sampleCommit (Instant 86400000);
                sampleCommit (Instant 0)]
               [172800000; 86400000; 0]); reflexivity.
Defined.

(** * Doubles *)

Lemma pow2_pos (e : Z) : (0 < Float64.pow2 e)%Q.
Proof. apply Qpower_0_lt. reflexivity. Qed.

Lemma pow2_add (a b : Z) : (Float64.pow2 (a + b) == Float64.pow2 a * Float64.pow2 b)%Q.
Proof. apply Qpower_plus. discriminate. Qed.

Lemma pow2_Z (n : Z) : 0 <= n -> (Float64.pow2 n == inject_Z (2 ^ n))%Q.
Proof. intros H. unfold Float64.pow2. now rewrite Zpower_Qpower. Qed.

Lemma round_even_close (x : Q) :
  (x - (1 # 2) <= inject_Z (Float64.round_even x) <= x + (1 # 2))%Q.
Proof.
  unfold Float64.round_even.
  pose proof (Qfloor_le x) as Hlo. pose proof (Qlt_floor x) as Hhi.
  rewrite inject_Z_plus in Hhi. change (inject_Z 1) with 1%Q in Hhi.
  destruct (Qcompare_spec (x - inject_Z (Qfloor x)) (1 # 2)) as [E|E|E].
  - destruct (Z.even (Qfloor x)).
    + split; lra.
    + rewrite inject_Z_plus. change (inject_Z 1) with 1%Q. split; lra.
  - split; lra.
  - rewrite inject_Z_plus. change (inject_Z 1) with 1%Q. split; lra.
Qed.

Lemma round_even_nonneg (x : Q) : (0 <= x)%Q -> 0 <= Float64.round_even x.
Proof.
  intros H. assert (Hf : 0 <= Qfloor x).
  { change 0 with (Qfloor 0). now apply Qfloor_resp_le. }
  unfold Float64.round_even.
  destruct (_ ?= _)%Q; [destruct (Z.even _)| |]; lia.
Qed.

Lemma round_even_le_int (x : Q) (N : Z) :
  (x <= inject_Z N)%Q -> Float64.round_even x <= N.
Proof.
  intros H. assert (Hf : Qfloor x <= N).
  { rewrite <- (Qfloor_Z N). now apply Qfloor_resp_le. }
  unfold Float64.round_even.
  destruct (Z.eq_dec (Qfloor x) N) as [E|E].
  - assert (Hlt : (x - inject_Z (Qfloor x) < 1 # 2)%Q) by (rewrite E; lra).
    destruct (Qcompare_spec (x - inject_Z (Qfloor x)) (1 # 2)) as [E'|E'|E'];
      [exfalso; rewrite E' in Hlt; now apply Qlt_irrefl in Hlt | lia
      | exfalso; apply (Qlt_irrefl (1 # 2)); eapply Qlt_trans; eassumption].
  - destruct (_ ?= _)%Q; [destruct (Z.even _)| |]; lia.
Qed.

Lemma Qdiv_le_cross (A B n d : Z) :
  0 < B -> 0 < d -> A * d <= n * B ->
  (inject_Z A / inject_Z B <= inject_Z n / inject_Z d)%Q.
Proof.
  intros HB Hd H.
  assert (HB' : (0 < inject_Z B)%Q) by (change 0%Q with (inject_Z 0); now rewrite <- Zlt_Qlt).
  assert (Hd' : (0 < inject_Z d)%Q) by (change 0%Q with (inject_Z 0); now rewrite <- Zlt_Qlt).
  apply Qle_shift_div_r; [assumption|].
  unfold Qdiv. rewrite <- Qmult_assoc, (Qmult_comm (/ _)), Qmult_assoc.
  apply Qle_shift_div_l; [assumption|].
  rewrite <- !inject_Z_mult, <- Zle_Qle. lia.
Qed.

Lemma exponent_lower (a : Q) :
  (0 < a)%Q -> (Float64.pow2 (Float64.exponent a + 52) <= a)%Q.
Proof.
  intros Ha. unfold Float64.exponent.
  set (k := Z.log2 (Qnum a) - Z.log2 (Z.pos (Qden a))).
  destruct (Qle_bool (Float64.pow2 k) a) eqn:E.
  - apply Qle_bool_iff in E. now replace (k - 52 + 52) with k by lia.
  - clear E. replace (k - 53 + 52) with (Z.log2 (Qnum a) - (Z.log2 (Z.pos (Qden a)) + 1))
      by (unfold k; lia).
    destruct a as [n d]. cbn [Qnum Qden] in *.
    assert (Hn : 0 < n) by (unfold Qlt in Ha; simpl in Ha; lia).
    pose proof (Z.log2_spec n Hn) as [Hn1 _].
    pose proof (Z.log2_spec (Z.pos d) ltac:(lia)) as [_ Hd2].
    pose proof (Z.log2_nonneg n) as Hln. pose proof (Z.log2_nonneg (Z.pos d)) as Hld.
    unfold Float64.pow2. rewrite Qpower_minus by discriminate.
    change 2%Q with (inject_Z 2). rewrite <- !Zpower_Qpower by lia.
    rewrite (Qmake_Qdiv n d).
    apply Qdiv_le_cross; [apply Z.pow_pos_nonneg; lia | lia |].
    replace (Z.succ (Z.log2 (Z.pos d))) with (Z.log2 (Z.pos d) + 1) in Hd2 by lia.
    nia.
Qed.

(** Rounding a positive number moves it by at most [u] times itself. *)
Lemma round_pos_close (a : Q) :
  (0 < a)%Q ->
  (a - a * Float64.u <= Float64.round_pos a <= a + a * Float64.u)%Q.
Proof.
  intros Ha. unfold Float64.round_pos.
  set (e := Float64.exponent a).
  pose proof (pow2_pos e) as HP.
  pose proof (exponent_lower a Ha) as Hlow. fold e in Hlow.
  rewrite Z.add_comm, pow2_add in Hlow.
  set (P := Float64.pow2 e) in *.
  set (s := (a / P)%Q).
  assert (Has : (a == s * P)%Q).
  { unfold s. field. intros E0. rewrite E0 in HP. now apply Qlt_irrefl in HP. }
  assert (Hs : (Float64.pow2 52 <= s)%Q).
  { apply Qle_shift_div_l; assumption. }
  pose proof (round_even_close s) as [Hm1 Hm2].
  set (m := inject_Z (Float64.round_even s)) in *.
  change (Float64.pow2 52) with (4503599627370496 # 1)%Q in Hs.
  assert (H1 : ((s - s * Float64.u) * P <= m * P)%Q).
  { apply Qmult_le_compat_r; [|now apply Qlt_le_weak]. unfold Float64.u. lra. }
  assert (H2 : (m * P <= (s + s * Float64.u) * P)%Q).
  { apply Qmult_le_compat_r; [|now apply Qlt_le_weak]. unfold Float64.u. lra. }
  rewrite Has. split.
  - eapply Qle_trans; [|exact H1]. apply Qle_lteq. right. ring.
  - eapply Qle_trans; [exact H2|]. apply Qle_lteq. right. ring.
Qed.

Lemma rnd_close (x : Q) :
  (0 <= x)%Q -> (x - x * Float64.u <= Float64.rnd x <= x + x * Float64.u)%Q.
Proof.
  intros Hx. unfold Float64.rnd.
  destruct (Qcompare_spec x 0) as [E|E|E].
  - rewrite E. split; discriminate.
  - exfalso. apply (Qlt_irrefl x). eapply Qlt_le_trans; eassumption.
  - now apply round_pos_close.
Qed.

Lemma rnd_nonneg (x : Q) : (0 <= x)%Q -> (0 <= Float64.rnd x)%Q.
Proof.
  intros Hx. pose proof (rnd_close x Hx) as [H _]. unfold Float64.u in H. lra.
Qed.

(** Rounding never passes a whole number below [2^53]: such a number is a
    double. *)
Lemma rnd_le_int (x : Q) (b : Z) :
  (0 <= x)%Q -> (x <= inject_Z b)%Q -> b < 2 ^ 53 -> (Float64.rnd x <= inject_Z b)%Q.
Proof.
  intros Hx Hb Hb53. unfold Float64.rnd.
  destruct (Qcompare_spec x 0) as [E|E|E].
  - rewrite E in Hb. exact Hb.
  - exfalso. apply (Qlt_irrefl x). eapply Qlt_le_trans; eassumption.
  - unfold Float64.round_pos. set (e := Float64.exponent x).
    pose proof (pow2_pos e) as HP.
    pose proof (exponent_lower x E) as Hlow. fold e in Hlow.
    assert (He : e <= 0).
    { assert (H : (Float64.pow2 (e + 52) < Float64.pow2 53)%Q).
      { eapply Qle_lt_trans; [exact Hlow|]. eapply Qle_lt_trans; [exact Hb|].
        rewrite pow2_Z by lia. rewrite <- Zlt_Qlt. exact Hb53. }
      apply Qpower_lt_compat_l_inv in H; [lia | reflexivity]. }
    assert (HPe : (Float64.pow2 e * inject_Z (2 ^ (- e)) == 1)%Q).
    { rewrite <- pow2_Z by lia. rewrite <- pow2_add.
      replace (e + - e) with 0 by lia. reflexivity. }
    assert (Hs : (x / Float64.pow2 e <= inject_Z (b * 2 ^ (- e)))%Q).
    { apply Qle_shift_div_r; [assumption|].
      rewrite inject_Z_mult, <- Qmult_assoc, (Qmult_comm (inject_Z (2 ^ (- e)))), HPe.
      now rewrite Qmult_1_r. }
    apply round_even_le_int in Hs.
    rewrite Zle_Qle in Hs.
    eapply Qle_trans.
    + apply Qmult_le_compat_r; [exact Hs | now apply Qlt_le_weak].
    + rewrite inject_Z_mult, <- Qmult_assoc, (Qmult_comm (inject_Z (2 ^ (- e)))), HPe.
      rewrite Qmult_1_r. apply Qle_refl.
Qed.

Lemma exponent_upper (a : Q) :
  (0 < a)%Q -> (a < Float64.pow2 (Float64.exponent a + 53))%Q.
Proof.
  intros Ha. unfold Float64.exponent.
  set (k := Z.log2 (Qnum a) - Z.log2 (Z.pos (Qden a))).
  destruct (Qle_bool (Float64.pow2 k) a) eqn:E.
  - clear E. replace (k - 52 + 53) with (Z.log2 (Qnum a) + 1 - Z.log2 (Z.pos (Qden a)))
      by (unfold k; lia).
    destruct a as [n d]. cbn [Qnum Qden] in *.
    assert (Hn : 0 < n) by (unfold Qlt in Ha; simpl in Ha; lia).
    pose proof (Z.log2_spec n Hn) as [_ Hn2].
    pose proof (Z.log2_spec (Z.pos d) ltac:(lia)) as [Hd1 _].
    pose proof (Z.log2_nonneg n) as Hln. pose proof (Z.log2_nonneg (Z.pos d)) as Hld.
    replace (Z.succ (Z.log2 n)) with (Z.log2 n + 1) in Hn2 by lia.
    unfold Float64.pow2. rewrite Qpower_minus by discriminate.
    change 2%Q with (inject_Z 2). rewrite <- !Zpower_Qpower by lia.
    rewrite (Qmake_Qdiv n d).
    assert (HB : (0 < inject_Z (2 ^ Z.log2 (Z.pos d)))%Q).
    { change 0%Q with (inject_Z 0). rewrite <- Zlt_Qlt. apply Z.pow_pos_nonneg; lia. }
    assert (Hd' : (0 < inject_Z (Z.pos d))%Q) by reflexivity.
    apply Qlt_shift_div_l; [assumption|].
    unfold Qdiv. rewrite <- Qmult_assoc, (Qmult_comm (/ _)), Qmult_assoc.
    apply Qlt_shift_div_r; [assumption|].
    rewrite <- !inject_Z_mult, <- Zlt_Qlt. nia.
  - replace (k - 53 + 53) with k by lia.
    apply Qnot_le_lt. intros H. apply Qle_bool_iff in H. congruence.
Qed.

(** A whole number below [2^53] is a double. *)
Lemma rnd_int_exact (n : Z) :
  0 <= n < 2 ^ 53 -> (Float64.rnd (inject_Z n) == inject_Z n)%Q.
Proof.
  intros Hn. apply Qle_antisym.
  - apply rnd_le_int; [change 0%Q with (inject_Z 0); rewrite <- Zle_Qle; lia
                      | apply Qle_refl | lia].
  - unfold Float64.rnd.
    destruct (Qcompare_spec (inject_Z n) 0) as [E|E|E].
    + rewrite E. apply Qle_refl.
    + exfalso. change 0%Q with (inject_Z 0) in E. rewrite <- Zlt_Qlt in E. lia.
    + unfold Float64.round_pos. set (e := Float64.exponent (inject_Z n)).
      pose proof (pow2_pos e) as HP.
      pose proof (exponent_lower _ E) as Hlow. fold e in Hlow.
      assert (He : e <= 0).
      { assert (H : (Float64.pow2 (e + 52) < Float64.pow2 53)%Q).
        { eapply Qle_lt_trans; [exact Hlow|].
          rewrite pow2_Z by lia. rewrite <- Zlt_Qlt. lia. }
        apply Qpower_lt_compat_l_inv in H; [lia | reflexivity]. }
      assert (HPe : (Float64.pow2 e * inject_Z (2 ^ (- e)) == 1)%Q).
      { rewrite <- pow2_Z by lia. rewrite <- pow2_add.
        replace (e + - e) with 0 by lia. reflexivity. }
      assert (Hs : (inject_Z (n * 2 ^ (- e)) <= inject_Z n / Float64.pow2 e)%Q).
      { apply Qle_shift_div_l; [assumption|].
        rewrite inject_Z_mult, <- Qmult_assoc, (Qmult_comm (inject_Z (2 ^ (- e)))), HPe.
        rewrite Qmult_1_r. apply Qle_refl. }
      assert (Hf : n * 2 ^ (- e) <= Float64.round_even (inject_Z n / Float64.pow2 e)).
      { apply Qfloor_resp_le in Hs. rewrite Qfloor_Z in Hs.
        unfold Float64.round_even.
        destruct (_ ?= _)%Q; [destruct (Z.even _)| |]; lia. }
      rewrite Zle_Qle in Hf.
      eapply Qle_trans.
      2: { apply Qmult_le_compat_r; [exact Hf | now apply Qlt_le_weak]. }
      rewrite inject_Z_mult, <- Qmult_assoc, (Qmult_comm (inject_Z (2 ^ (- e)))), HPe.
      rewrite Qmult_1_r. apply Qle_refl.
Qed.

(** ** Percentages *)

Lemma share_range (value total : Z) :
  0 < total -> 0 <= value <= total ->
  (0 <= inject_Z value / inject_Z total <= 1)%Q.
Proof.
  intros Ht Hv.
  assert (Ht' : (0 < inject_Z total)%Q)
    by (change 0%Q with (inject_Z 0); rewrite <- Zlt_Qlt; lia).
  split.
  - apply Qle_shift_div_l; [assumption|]. rewrite Qmult_0_l.
    change 0%Q with (inject_Z 0). rewrite <- Zle_Qle. lia.
  - apply Qle_shift_div_r; [assumption|]. rewrite Qmult_1_l.
    rewrite <- Zle_Qle. lia.
Qed.

(** The steps of [calculatePercentage], each with its rounding. *)
Lemma calculatePercentage_steps (value total : Z) :
  0 < total -> 0 <= value <= total ->
  exists q d1 d2 d3 r,
    (q == inject_Z value / inject_Z total)%Q /\ (0 <= q <= 1)%Q /\
    (q - q * Float64.u <= d1 <= q + q * Float64.u)%Q /\
    (d1 * 100 - d1 * 100 * Float64.u <= d2 <= d1 * 100 + d1 * 100 * Float64.u)%Q /\
    (d2 * 100 - d2 * 100 * Float64.u <= d3 <= d2 * 100 + d2 * 100 * Float64.u)%Q /\
    (d3 - (1 # 2) <= inject_Z r <= d3 + (1 # 2))%Q /\ 0 <= r <= 10000 /\
    (inject_Z r * (1 # 100) - inject_Z r * (1 # 100) * Float64.u
     <= calculatePercentage value total
     <= inject_Z r * (1 # 100) + inject_Z r * (1 # 100) * Float64.u)%Q /\
    (calculatePercentage value total <= 100)%Q.
Proof.
  intros Ht Hv. unfold calculatePercentage, Float64.div, Float64.mul.
  replace (total =? 0) with false by (symmetry; apply Z.eqb_neq; lia).
  pose proof (share_range value total Ht Hv) as Hq.
  set (q := (inject_Z value / inject_Z total)%Q) in *.
  pose proof (rnd_close q ltac:(tauto)) as H1.
  pose proof (rnd_nonneg q ltac:(tauto)) as P1.
  set (d1 := Float64.rnd q) in *.
  assert (N1 : (0 <= d1 * 100)%Q) by lra.
  pose proof (rnd_close _ N1) as H2. pose proof (rnd_nonneg _ N1) as P2.
  set (d2 := Float64.rnd (d1 * 100)) in *.
  assert (N2 : (0 <= d2 * 100)%Q) by lra.
  pose proof (rnd_close _ N2) as H3. pose proof (rnd_nonneg _ N2) as P3.
  set (d3 := Float64.rnd (d2 * 100)) in *.
  unfold Math_round.
  pose proof (Qfloor_le (d3 + (1 # 2))) as Hlo.
  pose proof (Qlt_floor (d3 + (1 # 2))) as Hhi.
  rewrite inject_Z_plus in Hhi. change (inject_Z 1) with 1%Q in Hhi.
  assert (Hr0 : 0 <= Qfloor (d3 + (1 # 2))).
  { change 0 with (Qfloor 0). apply Qfloor_resp_le. lra. }
  assert (Hr1 : Qfloor (d3 + (1 # 2)) <= 10000).
  { assert (H : (inject_Z (Qfloor (d3 + (1 # 2))) < inject_Z 10001)%Q).
    { eapply Qle_lt_trans; [exact Hlo|]. change (inject_Z 10001) with 10001%Q.
      unfold Float64.u in *. lra. }
    rewrite <- Zlt_Qlt in H. lia. }
  set (r := Qfloor (d3 + (1 # 2))) in *.
  assert (Hn : (inject_Z r / 100 == inject_Z r * (1 # 100))%Q) by reflexivity.
  assert (N4 : (0 <= inject_Z r / 100)%Q).
  { rewrite Hn. assert ((0 <= inject_Z r)%Q)
      by (change 0%Q with (inject_Z 0); rewrite <- Zle_Qle; lia). lra. }
  pose proof (rnd_close _ N4) as H4.
  assert (H5 : (Float64.rnd (inject_Z r / 100) <= inject_Z 100)%Q).
  { apply rnd_le_int; [assumption| |lia]. rewrite Hn.
    assert ((inject_Z r <= 10000)%Q)
      by (change 10000%Q with (inject_Z 10000); rewrite <- Zle_Qle; lia).
    change (inject_Z 100) with 100%Q. lra. }
  exists q, d1, d2, d3, r.
  split; [reflexivity|]. split; [assumption|]. split; [assumption|].
  split; [assumption|]. split; [assumption|]. split; [split; lra|].
  split; [lia|]. split; [|exact H5].
  set (p := Float64.rnd (inject_Z r / 100)) in *.
  set (y := (inject_Z r / 100)%Q) in *. clearbody p y.
  unfold Float64.u in *. split; lra.
Qed.


(** ** The language breakdown *)

Lemma len_app {A} (l1 l2 : list A) : len (l1 ++ l2) = len l1 + len l2.
Proof. unfold len. rewrite length_app. lia. Qed.

Lemma total_len_push (k x : string) (m : list (string * list string)) :
  total_len (JsMap.set String.eqb k
               (default [] (JsMap.get String.eqb k m) ++ [x]) m) =
  total_len m + 1.
Proof.
  induction m as [|[k' v'] t IH]; simpl.
  - reflexivity.
  - destruct (String.eqb k k'); simpl.
    + rewrite len_app. change (len [x]) with 1. lia.
    + rewrite IH. lia.
Qed.

Lemma languageMap_step_total (m : list (string * list string)) (r : RepositoryMetadata) :
  total_len (languageMap_step m r) =
  total_len m + (if has_language r then 1 else 0).
Proof.
  unfold languageMap_step, has_language.
  destruct (language r) as [l|]; [|lia].
  destruct (Js.truthy l); [|lia]. apply total_len_push.
Qed.

Lemma languageMap_fold_total (repos : list RepositoryMetadata)
      (m : list (string * list string)) :
  total_len (fold_left languageMap_step repos m) = total_len m + withLanguage repos.
Proof.
  unfold withLanguage. revert m. induction repos as [|r t IH]; intros m; simpl.
  - change (len []) with 0. lia.
  - rewrite IH, languageMap_step_total.
    destruct (has_language r); simpl; unfold len; simpl length; lia.
Qed.

Lemma cnt_sum_entries (total : Z) (m : list (string * list string)) :
  cnt_sum (map (languageEntry total) m) = total_len m.
Proof. induction m as [|e t IH]; simpl; [reflexivity | now rewrite IH]. Qed.

Lemma cnt_sum_perm (l1 l2 : list LanguageStats) :
  Permutation l1 l2 -> cnt_sum l1 = cnt_sum l2.
Proof. induction 1; simpl; lia. Qed.

Lemma languageBreakdown_counts (repos : list RepositoryMetadata) :
  cnt_sum (languageBreakdown repos) = withLanguage repos.
Proof.
  unfold languageBreakdown.
  rewrite (cnt_sum_perm _ _ (sort_perm _ _)), cnt_sum_entries.
  unfold languageMap. rewrite languageMap_fold_total. reflexivity.
Qed.

(** A percentage is within half a hundredth of the exact share, up to the
    roundings of the four operations on doubles. *)
Lemma calculatePercentage_close (value total : Z) :
  0 < total -> 0 <= value <= total ->
  (Qabs (calculatePercentage value total
         - 100 * (inject_Z value / inject_Z total))
   <= (1 # 200) + (1 # 1000000000000))%Q.
Proof.
  intros Ht Hv.
  destruct (calculatePercentage_steps value total Ht Hv)
    as (q & d1 & d2 & d3 & r & Eq & Hq & H1 & H2 & H3 & Hr & Hr' & Hp & _).
  rewrite <- Eq. set (p := calculatePercentage value total) in *. clearbody p.
  assert (Hr0 : (0 <= inject_Z r <= 10000)%Q).
  { change 0%Q with (inject_Z 0). change 10000%Q with (inject_Z 10000).
    rewrite <- !Zle_Qle. lia. }
  set (n := inject_Z r) in *. clearbody n.
  apply Qabs_Qle_condition. unfold Float64.u in *. split; lra.
Qed.

(** The two-decimal value of the program is the one of the doubles: for 23
    repositories of 160 the product is just below 1437.5 and the percentage
    is 14.37, where the exact share 14.375 would round to 14.38. *)
Lemma calculatePercentage_tie :
  (calculatePercentage 23 160 == Float64.rnd (1437 # 100))%Q /\
  (Qabs (calculatePercentage 23 160 - 100 * (inject_Z 23 / inject_Z 160)) > 1 # 200)%Q.
Proof. split; vm_compute; reflexivity. Qed.

Lemma count_le_cnt_sum (l : list LanguageStats) (s : LanguageStats) :
  Forall (fun s => 0 <= count s) l -> In s l -> count s <= cnt_sum l.
Proof.
  intros Hall. induction Hall as [|a t Ha Hall IH]; intros Hin; [destruct Hin|].
  cbn [cnt_sum fold_right].
  change (fold_right (fun s acc => count s + acc) 0 t) with (cnt_sum t).
  assert (Ht : 0 <= cnt_sum t).
  { clear -Hall. induction Hall; cbn [cnt_sum fold_right]; [lia|].
    change (fold_right (fun s acc => count s + acc) 0 l) with (cnt_sum l). lia. }
  destruct Hin as [<-|Hin]; [lia|]. specialize (IH Hin). lia.
Qed.

Lemma pct_sum_close (total : Z) (l : list LanguageStats) :
  0 < total ->
  Forall (fun s => 0 <= count s <= total /\
                   percentage s = calculatePercentage (count s) total) l ->
  (Qabs (pct_sum l - 100 * (inject_Z (cnt_sum l) / inject_Z total))
   <= inject_Z (len l) * ((1 # 200) + (1 # 1000000000000)))%Q.
Proof.
  intros Ht Hall. induction Hall as [|s t [Hc Hs] Hall IH].
  - apply Qabs_Qle_condition. cbn. split; discriminate.
  - cbn [pct_sum cnt_sum fold_right].
    change (fold_right (fun s acc => (percentage s + acc)%Q) 0%Q t) with (pct_sum t).
    change (fold_right (fun s acc => count s + acc) 0 t) with (cnt_sum t).
    assert (Hlen : (inject_Z (len (s :: t)) == 1 + inject_Z (len t))%Q).
    { unfold len. simpl length. rewrite Nat2Z.inj_succ, <- Z.add_1_l.
      now rewrite inject_Z_plus. }
    assert (Hdiv : (inject_Z (count s + cnt_sum t) / inject_Z total ==
                    inject_Z (count s) / inject_Z total
                    + inject_Z (cnt_sum t) / inject_Z total)%Q).
    { rewrite inject_Z_plus. unfold Qdiv. ring. }
    rewrite Hlen, Hdiv, Hs.
    pose proof (calculatePercentage_close (count s) total Ht Hc) as H1.
    apply Qabs_Qle_condition in H1. apply Qabs_Qle_condition in IH.
    apply Qabs_Qle_condition.
    set (a := (inject_Z (count s) / inject_Z total)%Q) in *.
    set (b := (inject_Z (cnt_sum t) / inject_Z total)%Q) in *.
    set (p := calculatePercentage (count s) total) in *.
    set (k := inject_Z (len t)) in *.
    clearbody a b p k. lra.
Qed.

Lemma withLanguage_le (repos : list RepositoryMetadata) : withLanguage repos <= len repos.
Proof.
  unfold withLanguage, len. pose proof (List.filter_length_le has_language repos). lia.
Qed.

Lemma languageBreakdown_entries (repos : list RepositoryMetadata) :
  Forall (fun s => 0 <= count s <= len repos /\
                   percentage s = calculatePercentage (count s) (len repos))
         (languageBreakdown repos).
Proof.
  assert (Hnn : Forall (fun s => 0 <= count s) (languageBreakdown repos)).
  { apply List.Forall_forall. intros s Hin.
    apply sort_In in Hin. apply in_map_iff in Hin as [e [<- _]].
    cbn. unfold len. lia. }
  apply List.Forall_forall. intros s Hin. split.
  - pose proof (count_le_cnt_sum _ s Hnn Hin) as Hle.
    rewrite languageBreakdown_counts in Hle. pose proof (withLanguage_le repos).
    rewrite List.Forall_forall in Hnn. specialize (Hnn s Hin). lia.
  - apply sort_In in Hin. apply in_map_iff in Hin as [e [<- _]]. reflexivity.
Qed.

Lemma languageBreakdown_nil (repos : list RepositoryMetadata) :
  len repos = 0 -> languageBreakdown repos = [].
Proof. destruct repos; [reflexivity | unfold len; simpl; lia]. Qed.

(** C1, amended: the counts of the breakdown add up to the number of
    repositories that have a primary language; the percentages, doubles
    computed as the program computes them, add up to 100 times the share of
    those repositories, within 0.005 + 10^-12 per entry (half a hundredth for
    the rounding to two decimals, the rest for the roundings of the double
    operations); so they add up to 100 within 0.1 when every repository has a
    language and there are fewer than 20 entries.  With no repository the
    breakdown is empty. *)
Theorem C1_language_percentages (repos : list RepositoryMetadata) :
  let stats := repositoryStats repos in
  (total_repositories stats = 0 -> languages stats = []) /\
  cnt_sum (languages stats) = withLanguage repos /\
  (0 < total_repositories stats ->
   (Qabs (pct_sum (languages stats)
          - 100 * (inject_Z (withLanguage repos)
                   / inject_Z (total_repositories stats)))
    <= inject_Z (len (languages stats)) * ((1 # 200) + (1 # 1000000000000)))%Q) /\
  (0 < total_repositories stats ->
   withLanguage repos = total_repositories stats ->
   len (languages stats) < 20 ->
   (Qabs (pct_sum (languages stats) - 100) <= 1 # 10)%Q).
Proof.
  cbn zeta. cbn [total_repositories languages repositoryStats].
  assert (Hgen : 0 < len repos ->
    (Qabs (pct_sum (languageBreakdown repos)
           - 100 * (inject_Z (withLanguage repos) / inject_Z (len repos)))
     <= inject_Z (len (languageBreakdown repos)) * ((1 # 200) + (1 # 1000000000000)))%Q).
  { intros Ht. rewrite <- languageBreakdown_counts.
    apply pct_sum_close; [assumption | apply languageBreakdown_entries]. }
  split; [apply languageBreakdown_nil|].
  split; [apply languageBreakdown_counts|].
  split; [exact Hgen|].
  intros Ht Hall Hk. specialize (Hgen Ht). rewrite Hall in Hgen.
  assert (Hone : (inject_Z (len repos) / inject_Z (len repos) == 1)%Q).
  { apply Qmult_inv_r. change 0%Q with (inject_Z 0). rewrite inject_Z_injective. lia. }
  rewrite Hone in Hgen.
  assert (Hk' : (inject_Z (len (languageBreakdown repos)) <= 19)%Q).
  { change 19%Q with (inject_Z 19). rewrite <- Zle_Qle. lia. }
  apply Qabs_Qle_condition in Hgen. apply Qabs_Qle_condition.
  set (k := inject_Z (len (languageBreakdown repos))) in *.
  set (p := pct_sum (languageBreakdown repos)) in *.
  clearbody k p. lra.
Qed.

Lemma C1_witness :
  0 < total_repositories (repositoryStats [goA; goB; pyC]) /\
  (Qabs (pct_sum (languages (repositoryStats [goA; goB; pyC])) - 100) <= 1 # 10)%Q.
Proof.
  split; [reflexivity|].
  apply (proj2 (proj2 (proj2 (C1_language_percentages [goA; goB; pyC]))));
    [reflexivity | reflexivity | vm_compute; reflexivity].
Defined.

(** C1 as stated fails: a repository without a primary language counts in
    [total_repositories] but has no entry in the breakdown. *)
Lemma C1_counterexample :
  0 < total_repositories (repositoryStats [noLanguageRepo]) /\
  languages (repositoryStats [noLanguageRepo]) = [] /\
  ~ (Qabs (pct_sum (languages (repositoryStats [noLanguageRepo])) - 100) <= 1 # 10)%Q.
Proof.
  split; [reflexivity|]. split; [reflexivity|].
  vm_compute. intros H. apply H. reflexivity.
Qed.

(** The rounding alone can also move the sum by more than 0.1: 39 languages
    of one repository each show 2.56 apiece, about 99.84 in all. *)
Lemma breakdown_rounding_drift :
  withLanguage (polyglot 39) = total_repositories (repositoryStats (polyglot 39)) /\
  (pct_sum (languages (repositoryStats (polyglot 39))) < 999 # 10)%Q.
Proof. split; vm_compute; reflexivity. Qed.

(** ** The cache *)

Section CacheFacts.
Context {V : Type} (config : ServerConfig).
Implicit Types (c : gmap string (NodeCache.Entry V)) (k : string) (v : V).

Lemma cache_get_after_set c k v (ttl : option Z) (now elapsed : Z) :
  CacheService.get (now + elapsed) k (snd (CacheService.set config now k v ttl c)) =
  if CacheService.effective_ttl config ttl * 1000 <=? elapsed
  then (None, delete k c)
  else (Some v, <[k := NodeCache.mkEntry v now (CacheService.effective_ttl config ttl)]> c).
Proof.
  unfold CacheService.get, CacheService.set, NodeCache.get, NodeCache.set.
  cbn [snd]. rewrite lookup_insert_eq. unfold NodeCache.expired. cbn.
  replace (now + elapsed - now) with elapsed by lia.
  destruct (_ <=? elapsed); [|reflexivity].
  now rewrite delete_insert_eq.
Qed.

(** A hit is never stale: the entry it reads is younger than its ttl. *)
Lemma cache_hit_fresh c k v (now : Z) :
  fst (CacheService.get now k c) = Some v ->
  exists e, c !! k = Some e /\ NodeCache.payload e = v /\
            now - NodeCache.inserted e < NodeCache.ttl e * 1000.
Proof.
  unfold CacheService.get, NodeCache.get.
  destruct (c !! k) as [e|]; [|discriminate].
  destruct (NodeCache.expired now e) eqn:E; [discriminate|].
  intros [= <-]. exists e. repeat split.
  unfold NodeCache.expired in E. apply Z.leb_gt in E. exact E.
Qed.

(** The periodic sweep leaves no expired entry behind. *)
Lemma cache_sweep_fresh c k (e : NodeCache.Entry V) (now : Z) :
  NodeCache.sweep now c !! k = Some e ->
  c !! k = Some e /\ now - NodeCache.inserted e < NodeCache.ttl e * 1000.
Proof.
  unfold NodeCache.sweep. rewrite map_lookup_filter_Some. cbn.
  intros [H E]. split; [assumption|].
  unfold NodeCache.expired in E. apply Z.leb_gt in E. exact E.
Qed.
End CacheFacts.

(** C6: [set(k, v)] followed at once by [get(k)] returns [v], and so does every
    [get] before the ttl has elapsed; once it has elapsed, [get(k)] is a miss
    and the entry is gone; a hit never reads an entry older than its ttl. *)
Theorem C6_cache_round_trip (config : ServerConfig) (V : Type)
        (c : gmap string (NodeCache.Entry V)) (k : string) (v : V)
        (ttl : option Z) (now : Z) :
  let ttl_ms := CacheService.effective_ttl config ttl * 1000 in
  let c' := snd (CacheService.set config now k v ttl c) in
  (0 < ttl_ms -> fst (CacheService.get now k c') = Some v) /\
  (forall elapsed, elapsed < ttl_ms ->
     fst (CacheService.get (now + elapsed) k c') = Some v) /\
  (forall elapsed, ttl_ms <= elapsed ->
     fst (CacheService.get (now + elapsed) k c') = None /\
     snd (CacheService.get (now + elapsed) k c') !! k = None) /\
  (forall (c0 : gmap string (NodeCache.Entry V)) later v0,
     fst (CacheService.get later k c0) = Some v0 ->
     exists e, c0 !! k = Some e /\ NodeCache.payload e = v0 /\
               later - NodeCache.inserted e < NodeCache.ttl e * 1000).
Proof.
  cbn zeta. repeat split.
  - intros Hpos. replace now with (now + 0) at 1 by lia.
    rewrite cache_get_after_set.
    now replace (_ <=? 0) with false by (symmetry; apply Z.leb_gt; lia).
  - intros elapsed He. rewrite cache_get_after_set.
    now replace (_ <=? elapsed) with false by (symmetry; apply Z.leb_gt; lia).
  - rewrite cache_get_after_set.
    now replace (_ <=? elapsed) with true by (symmetry; apply Z.leb_le; lia).
  - rewrite cache_get_after_set.
    replace (_ <=? elapsed) with true by (symmetry; apply Z.leb_le; lia).
    simpl. exact (lookup_delete_eq c k).
  - intros c0 later v0. apply cache_hit_fresh.
Qed.

Lemma C6_witness :
  0 < CacheService.effective_ttl sampleConfig None * 1000 /\
  fst (CacheService.get 5 "repos:octocat:all"
         (snd (CacheService.set sampleConfig 5 "repos:octocat:all" 7%nat None ∅)))
  = Some 7%nat.
Proof.
  assert (H : 0 < CacheService.effective_ttl sampleConfig None * 1000) by reflexivity.
  split; [exact H|].
  exact (proj1 (C6_cache_round_trip sampleConfig nat ∅ "repos:octocat:all" 7%nat None 5) H).
Defined.

(** ** The world monad *)

Lemma world_eta (w : World) : mkWorld (cache w) (clock w) (requests w) = w.
Proof. now destruct w. Qed.

Section MonadFacts.
Context {A B : Type}.
Implicit Types (m : M A) (k : A -> M B) (h : Js.Error -> M A).

Lemma bind_Ok m k w a w' : m w = (Ok a, w') -> bind m k w = k a w'.
Proof. unfold bind. now intros ->. Qed.

Lemma bind_Throw m k w e w' : m w = (Throw e, w') -> bind m k w = (Throw e, w').
Proof. unfold bind. now intros ->. Qed.

Lemma bind_OutOfFuel m k w w' : m w = (OutOfFuel, w') -> bind m k w = (OutOfFuel, w').
Proof. unfold bind. now intros ->. Qed.

Lemma try_catch_Ok m h w a w' : m w = (Ok a, w') -> try_catch m h w = (Ok a, w').
Proof. unfold try_catch. now intros ->. Qed.

Lemma try_catch_Throw m h w e w' : m w = (Throw e, w') -> try_catch m h w = h e w'.
Proof. unfold try_catch. now intros ->. Qed.

Lemma finishes_bind m k :
  finishes m -> (forall a, finishes (k a)) -> finishes (bind m k).
Proof.
  intros Hm Hk w. unfold bind. specialize (Hm w).
  destruct (m w) as [[a|e|] w']; simpl in *; [apply Hk | discriminate | congruence].
Qed.

Lemma finishes_try_catch m h :
  finishes m -> (forall e, finishes (h e)) -> finishes (try_catch m h).
Proof.
  intros Hm Hh w. unfold try_catch. specialize (Hm w).
  destruct (m w) as [[a|e|] w']; simpl in *; [discriminate | apply Hh | congruence].
Qed.

Lemma finishes_ret (a : A) : finishes (ret a).
Proof. intros w. discriminate. Qed.

Lemma finishes_throw (e : Js.Error) : finishes (@throw A e).
Proof. intros w. discriminate. Qed.

Lemma finishes_lift (o : Outcome A) : o <> OutOfFuel -> finishes (lift o).
Proof. intros H w. exact H. Qed.

Lemma finishes_call (req : Request) (r : Response A) : finishes (call req r).
Proof. intros w. destruct r; discriminate. Qed.

Lemma finishes_cached_or (useCache : bool) (key : string)
      (read : CacheValue -> option A) (body : M A) :
  finishes body -> finishes (cached_or useCache key read body).
Proof.
  intros Hb w. unfold cached_or. destruct useCache; [|apply Hb].
  unfold bind, cache_get.
  destruct (CacheService.get (clock w) key (cache w)) as [v c].
  destruct (v ≫= read); [discriminate | apply Hb].
Qed.
End MonadFacts.

Lemma finishes_now : finishes now.
Proof. intros w. discriminate. Qed.

Lemma finishes_cache_set (config : ServerConfig) (key : string) (v : CacheValue) :
  finishes (cache_set config key v).
Proof. intros w. discriminate. Qed.

Lemma finishes_mapM {A B} (f : A -> M B) (l : list A) :
  (forall a, finishes (f a)) -> finishes (mapM f l).
Proof.
  intros Hf. induction l as [|x t IH]; simpl.
  - apply finishes_ret.
  - apply finishes_bind; [apply Hf|]. intros y.
    apply finishes_bind; [apply IH|]. intros ys. apply finishes_ret.
Qed.

Lemma omap_not_OutOfFuel {A B} (f : A -> Outcome B) (l : list A) :
  (forall a, f a <> OutOfFuel) -> omap f l <> OutOfFuel.
Proof.
  intros Hf. induction l as [|x t IH]; simpl; [discriminate|].
  specialize (Hf x). destruct (f x); simpl; try congruence.
  destruct (omap f t); simpl; congruence.
Qed.

Lemma toISODate_not_OutOfFuel (d : DateString) : toISODate d <> OutOfFuel.
Proof. destruct d; discriminate. Qed.

Lemma calculateStreak_not_OutOfFuel (commits : list CommitMetadata) :
  calculateStreak commits <> OutOfFuel.
Proof.
  unfold calculateStreak. destruct (len commits =? 0); [discriminate|].
  pose proof (omap_not_OutOfFuel (fun c => toISODate (date c)) commits
                (fun c => toISODate_not_OutOfFuel (date c))) as H.
  destruct (omap _ commits); simpl; congruence.
Qed.

Lemma findMostActiveDay_not_OutOfFuel (commits : list CommitMetadata) :
  findMostActiveDay commits <> OutOfFuel.
Proof.
  unfold findMostActiveDay. destruct (len commits =? 0); [discriminate|].
  pose proof (omap_not_OutOfFuel (fun c => toISODate (date c)) commits
                (fun c => toISODate_not_OutOfFuel (date c))) as H.
  destruct (omap _ commits); simpl; try congruence.
  destruct (fst _); discriminate.
Qed.

(** ** Every client method ends when the listing does *)

Section ClientFacts.
Variable config : ServerConfig.
Variable octokit : Octokit.
Variable decodeBase64 : string -> string.
Variable JSON_stringify : SearchFilters -> string.
Variable localeCompare : string -> string -> Z.
Variable fuel : nat.

Local Abbreviation user := (username config).
Local Abbreviation ends := (listing_ends octokit user fuel 1 = true).

Lemma fetchPages_finishes (n : nat) (page : Z) (acc : list Repository) :
  listing_ends octokit user n page = true ->
  finishes (fetchPages config octokit n page acc).
Proof.
  revert page acc. induction n as [|n IH]; intros page acc H w; [discriminate|].
  simpl in H. simpl. unfold bind, call.
  destruct (api_listForUser octokit user 100 page) as [r|e]; simpl; [|discriminate].
  destruct (len r =? 100); [now apply IH | discriminate].
Qed.

Lemma listRepositories_finishes (useCache : bool) :
  ends -> finishes (listRepositories config octokit fuel useCache).
Proof.
  intros H. apply finishes_cached_or, finishes_try_catch; [|intros; apply finishes_throw].
  apply finishes_bind; [now apply fetchPages_finishes|]. intros r.
  apply finishes_bind; [apply finishes_cache_set|]. intros _. apply finishes_ret.
Qed.

Lemma getRepositoryDetails_finishes (repoName : string) (useCache : bool) :
  finishes (getRepositoryDetails config octokit repoName useCache).
Proof.
  apply finishes_cached_or, finishes_try_catch; [|intros; apply finishes_throw].
  apply finishes_bind; [apply finishes_call|]. intros r.
  apply finishes_bind.
  - apply finishes_try_catch; [|intros; apply finishes_ret].
    apply finishes_bind; [apply finishes_call|]. intros; apply finishes_ret.
  - intros r'. apply finishes_bind; [apply finishes_cache_set|].
    intros _. apply finishes_ret.
Qed.

Lemma getRepositoryReadme_finishes (repoName : string) (useCache : bool) :
  finishes (getRepositoryReadme config octokit decodeBase64 repoName useCache).
Proof.
  apply finishes_cached_or, finishes_try_catch; [|intros; apply finishes_ret].
  apply finishes_bind; [apply finishes_call|]. intros r.
  apply finishes_bind; [apply finishes_cache_set|]. intros _. apply finishes_ret.
Qed.

Lemma fetchRepoCommits_finishes (repo : RepositoryMetadata) :
  finishes (fetchRepoCommits config octokit repo).
Proof.
  apply finishes_try_catch; [|intros; apply finishes_ret].
  apply finishes_bind; [apply finishes_call|]. intros; apply finishes_ret.
Qed.

Lemma getRecentCommits_finishes (repoName : option string) (limit : Z) (useCache : bool) :
  (repoName_given repoName = None -> ends) ->
  finishes (getRecentCommits config octokit fuel repoName limit useCache).
Proof.
  intros H. apply finishes_cached_or, finishes_try_catch; [|intros; apply finishes_throw].
  apply finishes_bind.
  - destruct (repoName_given repoName) as [r|].
    + apply finishes_bind; [apply finishes_call|]. intros; apply finishes_ret.
    + apply finishes_bind; [now apply listRepositories_finishes, H|]. intros repos.
      apply finishes_bind; [apply finishes_mapM, fetchRepoCommits_finishes|].
      intros; apply finishes_ret.
  - intros commits. apply finishes_bind; [apply finishes_cache_set|].
    intros _. apply finishes_ret.
Qed.

Lemma getRepositoryStats_finishes (useCache : bool) :
  ends -> finishes (getRepositoryStats config octokit fuel useCache).
Proof.
  intros H. apply finishes_cached_or, finishes_try_catch; [|intros; apply finishes_throw].
  apply finishes_bind; [now apply listRepositories_finishes|]. intros repos.
  apply finishes_bind; [apply finishes_cache_set|]. intros _. apply finishes_ret.
Qed.

Lemma searchProjectsByTech_finishes (filters : SearchFilters) (useCache : bool) :
  ends ->
  finishes (searchProjectsByTech config octokit JSON_stringify fuel filters useCache).
Proof.
  intros H. apply finishes_cached_or, finishes_try_catch; [|intros; apply finishes_throw].
  apply finishes_bind; [now apply listRepositories_finishes|]. intros repos.
  apply finishes_bind; [apply finishes_cache_set|]. intros _. apply finishes_ret.
Qed.

Lemma getContributionActivity_finishes (useCache : bool) :
  ends -> finishes (getContributionActivity config octokit fuel useCache).
Proof.
  intros H. apply finishes_cached_or, finishes_try_catch; [|intros; apply finishes_throw].
  apply finishes_bind; [now apply getRecentCommits_finishes|]. intros commits.
  apply finishes_bind; [apply finishes_lift, findMostActiveDay_not_OutOfFuel|]. intros day.
  apply finishes_bind; [apply finishes_lift, calculateStreak_not_OutOfFuel|]. intros streak.
  apply finishes_bind; [apply finishes_cache_set|]. intros _. apply finishes_ret.
Qed.

(** ** The envelope of a tool *)

Lemma tool_run {T X} (op : M X) (g : X -> T) (use_cache : bool)
      (code prefix : string) (w : World) :
  try_catch (let* x := op in let* t := now in ret (successResult (g x) use_cache t))
            (fail code prefix) w =
  match op w with
  | (Ok x, w1) => (Ok (successResult (g x) use_cache (clock w1)), w1)
  | (Throw e, w1) => (Ok (failureResult code prefix e (clock w1) (clock w1)), w1)
  | (OutOfFuel, w1) => (OutOfFuel, w1)
  end.
Proof.
  unfold try_catch, bind, now, ret, fail.
  destruct (op w) as [[x|e|] w1]; reflexivity.
Qed.

Lemma run_returns_envelope {T X} (m : M (ToolResult T)) (op : M X) (g : X -> T)
      (use_cache : bool) (code prefix : string) :
  (forall w, m w =
     match op w with
     | (Ok x, w1) => (Ok (successResult (g x) use_cache (clock w1)), w1)
     | (Throw e, w1) => (Ok (failureResult code prefix e (clock w1) (clock w1)), w1)
     | (OutOfFuel, w1) => (OutOfFuel, w1)
     end) ->
  finishes op -> returns_envelope code prefix m.
Proof.
  intros Hrun Hop w. rewrite Hrun. specialize (Hop w).
  destruct (op w) as [[x|e|] w1]; simpl in Hop; [| |congruence].
  - eexists _, _. split; [reflexivity|]. left. now exists (g x), use_cache.
  - eexists _, _. split; [reflexivity|]. right. now exists e.
Qed.

Lemma run_cached {T X} (m : M (ToolResult T)) (op : M X) (g : X -> T)
      (use_cache : bool) (code prefix : string) :
  (forall w, m w =
     match op w with
     | (Ok x, w1) => (Ok (successResult (g x) use_cache (clock w1)), w1)
     | (Throw e, w1) => (Ok (failureResult code prefix e (clock w1) (clock w1)), w1)
     | (OutOfFuel, w1) => (OutOfFuel, w1)
     end) ->
  forall w env w', m w = (Ok env, w') -> success env = true ->
                   cached env = Some use_cache.
Proof.
  intros Hrun w env w'. rewrite Hrun.
  destruct (op w) as [[x|e|] w1]; intros [= <- <-]; cbn; congruence.
Qed.

Lemma tool_listRepositories_run (args : ListRepositoriesArgs) (w : World) :
  tool_listRepositories config octokit localeCompare fuel args w =
  match listRepositories config octokit fuel (default true (lr_use_cache args)) w with
  | (Ok x, w1) =>
      (Ok (successResult (listPostprocess localeCompare args x) (default true (lr_use_cache args))
                         (clock w1)), w1)
  | (Throw e, w1) =>
      (Ok (failureResult "LIST_REPOSITORIES_ERROR" "Failed to list repositories: "
                         e (clock w1) (clock w1)), w1)
  | (OutOfFuel, w1) => (OutOfFuel, w1)
  end.
Proof. exact (tool_run _ (listPostprocess localeCompare args) _ _ _ w). Qed.

Lemma tool_getRepositoryDetails_run (args : GetRepositoryDetailsArgs) (w : World) :
  tool_getRepositoryDetails config octokit decodeBase64 args w =
  match detailsOp config octokit decodeBase64 args w with
  | (Ok x, w1) =>
      (Ok (successResult x (default true (rd_use_cache args)) (clock w1)), w1)
  | (Throw e, w1) =>
      (Ok (failureResult "GET_REPOSITORY_DETAILS_ERROR"
                         "Failed to get repository details: "
                         e (clock w1) (clock w1)), w1)
  | (OutOfFuel, w1) => (OutOfFuel, w1)
  end.
Proof.
  rewrite <- (tool_run (detailsOp config octokit decodeBase64 args) (fun x => x)).
  unfold tool_getRepositoryDetails, detailsOp, try_catch, bind, throw, ret, now.
  cbv zeta.
  destruct (negb (Js.truthy (rd_repository_name args))); [reflexivity|].
  destruct (getRepositoryDetails _ _ _ _ w) as [[r|e|] w1]; try reflexivity.
  destruct (default false (rd_include_readme args)); [|reflexivity].
  destruct (getRepositoryReadme _ _ _ _ _ w1) as [[s|e|] w2]; reflexivity.
Qed.

Lemma tool_getRecentCommits_run (args : GetRecentCommitsArgs) (w : World) :
  tool_getRecentCommits config octokit fuel args w =
  match getRecentCommits config octokit fuel (rc_repository_name args)
          (default 50 (rc_limit args)) (default true (rc_use_cache args)) w with
  | (Ok x, w1) =>
      (Ok (successResult x (default true (rc_use_cache args)) (clock w1)), w1)
  | (Throw e, w1) =>
      (Ok (failureResult "GET_RECENT_COMMITS_ERROR" "Failed to get recent commits: "
                         e (clock w1) (clock w1)), w1)
  | (OutOfFuel, w1) => (OutOfFuel, w1)
  end.
Proof. exact (tool_run _ (fun x => x) _ _ _ w). Qed.

Lemma tool_getRepositoryStats_run (args : GetRepositoryStatsArgs) (w : World) :
  tool_getRepositoryStats config octokit fuel args w =
  match getRepositoryStats config octokit fuel (default true (rs_use_cache args)) w with
  | (Ok x, w1) =>
      (Ok (successResult x (default true (rs_use_cache args)) (clock w1)), w1)
  | (Throw e, w1) =>
      (Ok (failureResult "GET_REPOSITORY_STATS_ERROR" "Failed to get repository stats: "
                         e (clock w1) (clock w1)), w1)
  | (OutOfFuel, w1) => (OutOfFuel, w1)
  end.
Proof. exact (tool_run _ (fun x => x) _ _ _ w). Qed.

Lemma tool_searchProjectsByTech_run (args : SearchProjectsByTechArgs) (w : World) :
  tool_searchProjectsByTech config octokit JSON_stringify fuel args w =
  match searchProjectsByTech config octokit JSON_stringify fuel (sp_filters args)
          (default true (sp_use_cache args)) w with
  | (Ok x, w1) =>
      (Ok (successResult x (default true (sp_use_cache args)) (clock w1)), w1)
  | (Throw e, w1) =>
      (Ok (failureResult "SEARCH_PROJECTS_ERROR" "Failed to search projects: "
                         e (clock w1) (clock w1)), w1)
  | (OutOfFuel, w1) => (OutOfFuel, w1)
  end.
Proof. exact (tool_run _ (fun x => x) _ _ _ w). Qed.

Lemma tool_getContributionActivity_run (args : GetContributionActivityArgs) (w : World) :
  tool_getContributionActivity config octokit fuel args w =
  match getContributionActivity config octokit fuel
          (default true (ca_use_cache args)) w with
  | (Ok x, w1) =>
      (Ok (successResult x (default true (ca_use_cache args)) (clock w1)), w1)
  | (Throw e, w1) =>
      (Ok (failureResult "GET_CONTRIBUTION_ACTIVITY_ERROR"
                         "Failed to get contribution activity: "
                         e (clock w1) (clock w1)), w1)
  | (OutOfFuel, w1) => (OutOfFuel, w1)
  end.
Proof. exact (tool_run _ (fun x => x) _ _ _ w). Qed.

Lemma detailsOp_finishes (args : GetRepositoryDetailsArgs) : finishes (detailsOp config octokit decodeBase64 args).
Proof.
  unfold detailsOp. cbv zeta.
  destruct (negb _); [apply finishes_throw|].
  apply finishes_bind; [apply getRepositoryDetails_finishes|]. intros r.
  apply finishes_bind; [|intros; apply finishes_ret].
  destruct (default false _); [|apply finishes_ret].
  apply finishes_bind; [apply getRepositoryReadme_finishes|]. intros; apply finishes_ret.
Qed.

End ClientFacts.

(** ** The tools *)

(** C3: every tool returns the uniform envelope and never throws, whatever the
    remote answers and whatever the derivations do: a value of the client
    operation becomes [success = true] with the value as [data], no error,
    the cache flag and the timestamp; a throw becomes [success = false] with
    no data and an error that holds the tool's error code, the message of the
    thrown error after the tool's prefix, and the timestamp. This needs the
    listing of repositories to end within the page bound. *)
Theorem C3_tools_return_envelopes
        (config : ServerConfig) (octokit : Octokit)
        (decodeBase64 : string -> string) (JSON_stringify : SearchFilters -> string)
        (localeCompare : string -> string -> Z) (fuel : nat) :
  listing_ends octokit (username config) fuel 1 = true ->
  (forall args,
     let tool := tool_listRepositories config octokit localeCompare fuel args in
     envelope_of "LIST_REPOSITORIES_ERROR" "Failed to list repositories: "
       (default true (lr_use_cache args)) (listPostprocess localeCompare args)
       (listRepositories config octokit fuel (default true (lr_use_cache args))) tool /\
     returns_envelope "LIST_REPOSITORIES_ERROR" "Failed to list repositories: " tool) /\
  (forall args,
     let tool := tool_getRepositoryDetails config octokit decodeBase64 args in
     envelope_of "GET_REPOSITORY_DETAILS_ERROR" "Failed to get repository details: "
       (default true (rd_use_cache args)) (fun x => x)
       (detailsOp config octokit decodeBase64 args) tool /\
     returns_envelope "GET_REPOSITORY_DETAILS_ERROR"
       "Failed to get repository details: " tool) /\
  (forall args,
     let tool := tool_getRecentCommits config octokit fuel args in
     envelope_of "GET_RECENT_COMMITS_ERROR" "Failed to get recent commits: "
       (default true (rc_use_cache args)) (fun x => x)
       (getRecentCommits config octokit fuel (rc_repository_name args)
          (default 50 (rc_limit args)) (default true (rc_use_cache args))) tool /\
     returns_envelope "GET_RECENT_COMMITS_ERROR" "Failed to get recent commits: " tool) /\
  (forall args,
     let tool := tool_getRepositoryStats config octokit fuel args in
     envelope_of "GET_REPOSITORY_STATS_ERROR" "Failed to get repository stats: "
       (default true (rs_use_cache args)) (fun x => x)
       (getRepositoryStats config octokit fuel (default true (rs_use_cache args))) tool /\
     returns_envelope "GET_REPOSITORY_STATS_ERROR"
       "Failed to get repository stats: " tool) /\
  (forall args,
     let tool := tool_searchProjectsByTech config octokit JSON_stringify fuel args in
     envelope_of "SEARCH_PROJECTS_ERROR" "Failed to search projects: "
       (default true (sp_use_cache args)) (fun x => x)
       (searchProjectsByTech config octokit JSON_stringify fuel (sp_filters args)
          (default true (sp_use_cache args))) tool /\
     returns_envelope "SEARCH_PROJECTS_ERROR" "Failed to search projects: " tool) /\
  (forall args,
     let tool := tool_getContributionActivity config octokit fuel args in
     envelope_of "GET_CONTRIBUTION_ACTIVITY_ERROR"
       "Failed to get contribution activity: "
       (default true (ca_use_cache args)) (fun x => x)
       (getContributionActivity config octokit fuel
          (default true (ca_use_cache args))) tool /\
     returns_envelope "GET_CONTRIBUTION_ACTIVITY_ERROR"
       "Failed to get contribution activity: " tool).
Proof.
  intros Hends. repeat split; try (intros w).
  - apply tool_listRepositories_run.
  - eapply run_returns_envelope;
      [apply tool_listRepositories_run | now apply listRepositories_finishes].
  - apply tool_getRepositoryDetails_run.
  - eapply run_returns_envelope;
      [apply tool_getRepositoryDetails_run | apply detailsOp_finishes].
  - apply tool_getRecentCommits_run.
  - eapply run_returns_envelope;
      [apply tool_getRecentCommits_run | now apply getRecentCommits_finishes].
  - apply tool_getRepositoryStats_run.
  - eapply run_returns_envelope;
      [apply tool_getRepositoryStats_run | now apply getRepositoryStats_finishes].
  - apply tool_searchProjectsByTech_run.
  - eapply run_returns_envelope;
      [apply tool_searchProjectsByTech_run | now apply searchProjectsByTech_finishes].
  - apply tool_getContributionActivity_run.
  - eapply run_returns_envelope;
      [apply tool_getContributionActivity_run
      | now apply getContributionActivity_finishes].
Qed.

Lemma C3_witness :
  listing_ends sampleOctokit (username sampleConfig) 3 1 = true /\
  returns_envelope "GET_CONTRIBUTION_ACTIVITY_ERROR"
    "Failed to get contribution activity: "
    (tool_getContributionActivity sampleConfig sampleOctokit 3
       {| ca_use_cache := None |}).
Proof.
  assert (H : listing_ends sampleOctokit (username sampleConfig) 3 1 = true)
    by reflexivity.
  split; [exact H|].
  exact (proj2 (proj2 (proj2 (proj2 (proj2 (proj2
           (C3_tools_return_envelopes sampleConfig sampleOctokit
              (fun s => s) (fun _ => "{}") (fun _ _ => 0) 3%nat H)))))
           {| ca_use_cache := None |})).
Defined.

(** A derivation that raises: a commit without an author date makes
    [findMostActiveDay] throw, and the tool answers with the failure
    envelope. *)
Lemma activity_undated_commit_envelope :
  fst (tool_getContributionActivity sampleConfig undatedOctokit 3
         {| ca_use_cache := None |} emptyWorld) =
  Ok (failureResult "GET_CONTRIBUTION_ACTIVITY_ERROR"
        "Failed to get contribution activity: "
        (Js.mkError "RangeError" "Invalid time value") 1000 1000).
Proof. vm_compute. reflexivity. Qed.

Lemma getRepositoryStats_stores (config : ServerConfig) (octokit : Octokit) (fuel : nat)
      (w : World) (stats : RepositoryStats) (w' : World) :
  getRepositoryStats config octokit fuel false w = (Ok stats, w') ->
  cache w' !! ("stats:" +:+ username config) =
  Some (NodeCache.mkEntry (CVStats stats) (clock w')
          (CacheService.effective_ttl config None)).
Proof.
  unfold getRepositoryStats, cached_or, try_catch, bind, cache_set, throw, ret.
  destruct (listRepositories config octokit fuel false w) as [[repos|e|] w1];
    [|discriminate|discriminate].
  cbn. intros [= <- <-]. cbn. apply lookup_insert_eq.
Qed.

(** C9: on success the [cached] field of the envelope is the [use_cache]
    argument (true when omitted), not a record of where the data came from:
    it is [false] although the fresh result has just been stored in the cache,
    and [true] on a miss that went to the remote. *)
Theorem C9_cached_flag_echoes_use_cache :
  (forall config octokit decodeBase64 JSON_stringify localeCompare fuel,
     (forall args w env w',
        tool_listRepositories config octokit localeCompare fuel args w = (Ok env, w') ->
        success env = true -> cached env = Some (default true (lr_use_cache args))) /\
     (forall args w env w',
        tool_getRepositoryDetails config octokit decodeBase64 args w = (Ok env, w') ->
        success env = true -> cached env = Some (default true (rd_use_cache args))) /\
     (forall args w env w',
        tool_getRecentCommits config octokit fuel args w = (Ok env, w') ->
        success env = true -> cached env = Some (default true (rc_use_cache args))) /\
     (forall args w env w',
        tool_getRepositoryStats config octokit fuel args w = (Ok env, w') ->
        success env = true -> cached env = Some (default true (rs_use_cache args))) /\
     (forall args w env w',
        tool_searchProjectsByTech config octokit JSON_stringify fuel args w
        = (Ok env, w') ->
        success env = true -> cached env = Some (default true (sp_use_cache args))) /\
     (forall args w env w',
        tool_getContributionActivity config octokit fuel args w = (Ok env, w') ->
        success env = true -> cached env = Some (default true (ca_use_cache args)))) /\
  (forall config octokit fuel w env w',
     tool_getRepositoryStats config octokit fuel (statsArgs (Some false)) w
     = (Ok env, w') ->
     success env = true ->
     cached env = Some false /\
     exists stats,
       data env = Some stats /\
       cache w' !! ("stats:" +:+ username config) =
       Some (NodeCache.mkEntry (CVStats stats) (clock w')
               (CacheService.effective_ttl config None))) /\
  (exists env w',
     tool_getRepositoryStats sampleConfig sampleOctokit 3 (statsArgs None) emptyWorld
     = (Ok env, w') /\
     peek "stats:octocat" emptyWorld = None /\
     success env = true /\ cached env = Some true /\
     requests w' = [ListForUser "octocat" 100 1]).
Proof.
  split; [|split].
  - intros config octokit decodeBase64 JSON_stringify localeCompare fuel.
    repeat split; intros args.
    + eapply run_cached, tool_listRepositories_run.
    + eapply run_cached, tool_getRepositoryDetails_run.
    + eapply run_cached, tool_getRecentCommits_run.
    + eapply run_cached, tool_getRepositoryStats_run.
    + eapply run_cached, tool_searchProjectsByTech_run.
    + eapply run_cached, tool_getContributionActivity_run.
  - intros config octokit fuel w env w'. rewrite tool_getRepositoryStats_run.
    destruct (getRepositoryStats config octokit fuel _ w) as [[stats|e|] w1] eqn:E;
      intros [= <- <-]; [|discriminate]. intros _.
    split; [reflexivity|]. exists stats. split; [reflexivity|].
    exact (getRepositoryStats_stores config octokit fuel w stats w1 E).
  - eexists _, _. split; [vm_compute; reflexivity|].
    repeat split.
Qed.

Lemma C9_witness :
  exists env w',
    tool_getRepositoryStats sampleConfig sampleOctokit 3 (statsArgs None) emptyWorld
    = (Ok env, w') /\
    success env = true /\ cached env = Some true.
Proof.
  eexists _, _. split; [vm_compute; reflexivity|]. split; [reflexivity|].
  eapply (proj1 (proj2 (proj2 (proj2
            (proj1 C9_cached_flag_echoes_use_cache sampleConfig sampleOctokit
               (fun s => s) (fun _ => "{}") (fun _ _ => 0) 3%nat))))
            (statsArgs None) emptyWorld);
    [vm_compute; reflexivity | reflexivity].
Defined.

(** ** The cache check at the head of a method *)

Lemma cached_or_miss {A} (useCache : bool) (key : string)
      (read : CacheValue -> option A) (body : M A) (w : World) :
  misses useCache key read w ->
  cached_or useCache key read body w = body (after_check useCache key w).
Proof.
  unfold misses, cached_or, after_check, peek, after_get, bind, cache_get.
  destruct useCache; [|reflexivity]. intros H. specialize (H eq_refl).
  destruct (CacheService.get (clock w) key (cache w)) as [v c]. simpl in *.
  now rewrite H.
Qed.

Lemma cached_or_hit {A} (key : string) (read : CacheValue -> option A)
      (body : M A) (w : World) (a : A) :
  peek key w ≫= read = Some a ->
  cached_or true key read body w = (Ok a, after_get key w).
Proof.
  unfold cached_or, peek, after_get, bind, cache_get. intros H.
  destruct (CacheService.get (clock w) key (cache w)) as [v c]. simpl in *.
  now rewrite H.
Qed.

(** ** README *)

Section ReadmeFacts.
Variable config : ServerConfig.
Variable octokit : Octokit.
Variable decodeBase64 : string -> string.

Local Abbreviation user := (username config).

Lemma readme_body_run (repoName : string) (w : World) :
  let key := "readme:" +:+ user +:+ ":" +:+ repoName in
  try_catch
    (let* response := call (GetReadme user repoName) (api_getReadme octokit user repoName) in
     let content := decodeBase64 response in
     let* _ := cache_set config key (CVReadme content) in
     ret content)
    (fun _ => ret "") w =
  match api_getReadme octokit user repoName with
  | Resolved response =>
      (Ok (decodeBase64 response),
       stored config key (CVReadme (decodeBase64 response))
              (logged (GetReadme user repoName) w))
  | Rejected _ => (Ok "", logged (GetReadme user repoName) w)
  end.
Proof.
  cbv zeta. unfold try_catch, bind, call, cache_set, ret, stored, logged.
  destruct (api_getReadme octokit user repoName); reflexivity.
Qed.


End ReadmeFacts.



(** ** Slices *)

Lemma slice0_firstn {A} (stop : Z) (l : list A) :
  0 <= stop -> Js.slice0 stop l = firstn (Z.to_nat stop) l.
Proof.
  intros H. unfold Js.slice0.
  replace (stop <? 0) with false by (symmetry; apply Z.ltb_ge; lia).
  destruct (Z.le_gt_cases stop (Z.of_nat (length l))).
  - now rewrite Z.min_l by lia.
  - rewrite Z.min_r by lia. rewrite Nat2Z.id.
    rewrite firstn_all. symmetry. apply firstn_all2. lia.
Qed.

Lemma slice0_length {A} (stop : Z) (l : list A) :
  0 <= stop -> len (Js.slice0 stop l) <= stop.
Proof.
  intros H. rewrite slice0_firstn by assumption.
  unfold len. rewrite length_firstn. lia.
Qed.

Lemma slice0_prefix {A} (stop : Z) (l : list A) :
  exists rest, l = Js.slice0 stop l ++ rest.
Proof.
  unfold Js.slice0. eexists. symmetry. apply firstn_skipn.
Qed.

Lemma slice0_In {A} (stop : Z) (l : list A) (x : A) :
  In x (Js.slice0 stop l) -> In x l.
Proof.
  intros H. destruct (slice0_prefix stop l) as [rest Hrest].
  rewrite Hrest. apply in_or_app. now left.
Qed.

Lemma slice0_len {A} (stop : Z) (l : list A) :
  0 <= stop -> len (Js.slice0 stop l) = Z.min stop (len l).
Proof.
  intros H. rewrite slice0_firstn by assumption.
  unfold len. rewrite length_firstn. lia.
Qed.

Lemma StronglySorted_app_l {A} (R : A -> A -> Prop) (l1 l2 : list A) :
  StronglySorted R (l1 ++ l2) -> StronglySorted R l1.
Proof.
  induction l1 as [|x t IH]; simpl; intros H; [constructor|].
  inversion H as [|? ? Hs Hall]; subst. constructor; [now apply IH|].
  apply List.Forall_app in Hall. tauto.
Qed.

(** ** Commits, newest first *)

Lemma by_time_desc_total (a b : CommitMetadata) :
  Js.keeps (by_time_desc date) a b = false -> Js.keeps (by_time_desc date) b a = true.
Proof.
  unfold Js.keeps, by_time_desc, num_sub.
  destruct (getTime (date a)), (getTime (date b)); try discriminate.
  rewrite Z.leb_gt, Z.leb_le. lia.
Qed.

Lemma not_older_trans (a b c : CommitMetadata) :
  not_older a b -> not_older b c -> not_older a c.
Proof.
  unfold not_older.
  destruct (getTime (date a)), (getTime (date b)), (getTime (date c)); try tauto. lia.
Qed.

Lemma keeps_not_older (a b : CommitMetadata) :
  date_parses a -> date_parses b ->
  Js.keeps (by_time_desc date) a b = true -> not_older a b.
Proof.
  intros [x Ha] [y Hb]. unfold Js.keeps, by_time_desc, num_sub, not_older.
  rewrite Ha, Hb. simpl. rewrite Z.leb_le. lia.
Qed.

Lemma Sorted_weaken {A} (R R' : A -> A -> Prop) (P : A -> Prop) (l : list A) :
  (forall a b, P a -> P b -> R a b -> R' a b) ->
  Forall P l -> Sorted R l -> Sorted R' l.
Proof.
  intros Himp Hall Hs. induction Hs as [|a l Hs IH Hhd]; [constructor|].
  inversion Hall as [|? ? Pa Hall']; subst.
  constructor; [now apply IH|].
  destruct Hhd as [|b l Hab]; constructor.
  inversion Hall' as [|? ? Pb _]; subst. now apply Himp.
Qed.

Lemma sort_commits_newest_first (l : list CommitMetadata) :
  Forall date_parses l ->
  StronglySorted not_older (Js.sort (by_time_desc date) l).
Proof.
  intros Hall. apply Sorted_StronglySorted.
  - intros a b c. apply not_older_trans.
  - apply (Sorted_weaken (fun a b => Js.keeps (by_time_desc date) a b = true)
                         not_older date_parses).
    + apply keeps_not_older.
    + now rewrite sort_perm.
    + apply sort_Sorted, by_time_desc_total.
Qed.

(** ** The cross-repository fetch *)

Section CommitsFacts.
Variable config : ServerConfig.
Variable octokit : Octokit.
Variable fuel : nat.

Lemma fetchRepoCommits_run (repo : RepositoryMetadata) (w : World) :
  fetchRepoCommits config octokit repo w =
  (Ok (commitsOf config octokit repo), logged (commitRequest config repo) w).
Proof.
  unfold fetchRepoCommits, commitsOf, commitRequest, try_catch, bind, call, ret, logged.
  destruct (api_listCommits octokit _ _ _ _); reflexivity.
Qed.

Lemma mapM_fetchRepoCommits_run (repos : list RepositoryMetadata) (w : World) :
  mapM (fetchRepoCommits config octokit) repos w =
  (Ok (map (commitsOf config octokit) repos),
   logged_all (map (commitRequest config) repos) w).
Proof.
  revert w. induction repos as [|r t IH]; intros w; simpl.
  - unfold ret, logged_all. simpl. now rewrite app_nil_r, world_eta.
  - rewrite (bind_Ok _ _ _ _ _ (fetchRepoCommits_run r w)).
    rewrite (bind_Ok _ _ _ _ _ (IH _)). unfold ret, logged_all, logged. simpl.
    now rewrite <- app_assoc.
Qed.

Lemma getRecentCommits_all_run (repoName : option string) (limit : Z) (useCache : bool)
      (w : World) (repos : list RepositoryMetadata) (w2 : World) :
  repoName_given repoName = None ->
  misses useCache (allCommitsKey config limit) read_commits w ->
  listRepositories config octokit fuel useCache
    (after_check useCache (allCommitsKey config limit) w) = (Ok repos, w2) ->
  let touched := Js.slice0 10 repos in
  let commits :=
    Js.slice0 limit
      (Js.sort (by_time_desc date) (concat (map (commitsOf config octokit) touched))) in
  getRecentCommits config octokit fuel repoName limit useCache w =
  (Ok commits,
   stored config (allCommitsKey config limit) (CVCommits commits)
          (logged_all (map (commitRequest config) touched) w2)).
Proof.
  intros Hnone Hmiss Hlist. cbv zeta.
  unfold getRecentCommits. rewrite Hnone. fold (allCommitsKey config limit).
  rewrite cached_or_miss by exact Hmiss.
  apply try_catch_Ok.
  erewrite bind_Ok; [reflexivity|].
  rewrite (bind_Ok _ _ _ _ _ Hlist).
  rewrite (bind_Ok _ _ _ _ _ (mapM_fetchRepoCommits_run _ _)).
  reflexivity.
Qed.
End CommitsFacts.

Section ListingFacts.
Variable config : ServerConfig.
Variable octokit : Octokit.

Lemma fetchPages_requests (n : nat) (page : Z) (acc : list Repository) (w : World) :
  exists pages,
    requests (snd (fetchPages config octokit n page acc w)) =
    requests w ++ map (ListForUser (username config) 100) pages.
Proof.
  revert page acc w. induction n as [|n IH]; intros page acc w; simpl.
  - exists []. simpl. now rewrite app_nil_r.
  - unfold bind, call.
    destruct (api_listForUser octokit (username config) 100 page) as [r|e]; simpl.
    + destruct (len r =? 100).
      * destruct (IH (page + 1) (acc ++ r)
                     (mkWorld (cache w) (clock w)
                        (requests w ++ [ListForUser (username config) 100 page])))
          as [pages H].
        exists (page :: pages). rewrite H. simpl. now rewrite <- app_assoc.
      * exists [page]. reflexivity.
    + exists [page]. reflexivity.
Qed.

Lemma listRepositories_requests (fuel : nat) (useCache : bool) (w : World) :
  exists pages,
    requests (snd (listRepositories config octokit fuel useCache w)) =
    requests w ++ map (ListForUser (username config) 100) pages.
Proof.
  assert (Hbody : forall w0, exists pages,
    requests (snd (try_catch
       (let* repositories := fetchPages config octokit fuel 1 [] in
        let metadata := map toMetadata repositories in
        let* _ := cache_set config ("repos:" +:+ username config +:+ ":all")
                            (CVRepos metadata) in
        ret metadata)
       (fun error => throw (handleApiError error)) w0)) =
    requests w0 ++ map (ListForUser (username config) 100) pages).
  { intros w0. destruct (fetchPages_requests fuel 1 [] w0) as [pages H].
    exists pages. unfold try_catch, bind, cache_set, throw, ret.
    destruct (fetchPages config octokit fuel 1 [] w0) as [[r|e|] w1]; exact H. }
  unfold listRepositories, cached_or. destruct useCache; [|apply Hbody].
  unfold bind, cache_get.
  destruct (CacheService.get (clock w) _ (cache w)) as [v c].
  destruct (v ≫= read_repos).
  - exists []. simpl. now rewrite app_nil_r.
  - apply (Hbody (mkWorld c (clock w) (requests w))).
Qed.
End ListingFacts.

Lemma after_check_requests (useCache : bool) (key : string) (w : World) :
  requests (after_check useCache key w) = requests w.
Proof. now destruct useCache. Qed.

Lemma concat_resolved (config : ServerConfig) (octokit : Octokit)
      (l : list RepositoryMetadata) :
  concat (map (commitsOf config octokit) l) =
  concat (map (commitsOf config octokit) (List.filter (resolves config octokit) l)).
Proof.
  induction l as [|r t IH]; [reflexivity|]. simpl.
  unfold resolves at 1. unfold commitsOf at 1.
  destruct (api_listCommits octokit _ _ _ _) eqn:E; simpl.
  - unfold commitsOf at 2. rewrite E. now rewrite IH.
  - exact IH.
Qed.

Lemma slice0_len_neg {A} (stop : Z) (l : list A) :
  stop < 0 -> len (Js.slice0 stop l) = Z.max (len l + stop) 0.
Proof.
  intros H. unfold Js.slice0, len.
  replace (stop <? 0) with true by (symmetry; apply Z.ltb_lt; lia).
  rewrite length_firstn. lia.
Qed.

Lemma slice0_all {A} (stop : Z) (l : list A) :
  len l <= stop -> Js.slice0 stop l = l.
Proof.
  intros H. unfold len in H. rewrite slice0_firstn by lia.
  apply firstn_all2. lia.
Qed.

(** The records that the answer of one repository becomes, field by field
    (lines 251-258). *)
Lemma commitsOf_In (config : ServerConfig) (octokit : Octokit)
      (repo : RepositoryMetadata) (c : CommitMetadata) :
  In c (commitsOf config octokit repo) <->
  exists response raw,
    api_listCommits octokit (username config) (name repo) 5 (username config)
    = Resolved response /\
    In raw response /\
    c = {| sha := commit_sha raw;
           message := commit_message raw;
           author := Js.or_else (commit_author raw ≫= author_name) "Unknown";
           date := default (Unparseable "") (commit_author raw ≫= author_date);
           commit_url := commit_html_url raw;
           repository := name repo |}.
Proof.
  unfold commitsOf.
  destruct (api_listCommits octokit _ _ _ _) as [response|e].
  - rewrite in_map_iff. split.
    + intros (raw & <- & Hin). now exists response, raw.
    + intros (response' & raw & [= <-] & Hin & ->). now exists raw.
  - split; [intros [] | intros (? & ? & [=] & _)].
Qed.

Lemma merged_In (config : ServerConfig) (octokit : Octokit)
      (touched : list RepositoryMetadata) (c : CommitMetadata) :
  In c (concat (map (commitsOf config octokit) touched)) <->
  exists repo response raw,
    In repo touched /\
    api_listCommits octokit (username config) (name repo) 5 (username config)
    = Resolved response /\
    In raw response /\
    c = {| sha := commit_sha raw;
           message := commit_message raw;
           author := Js.or_else (commit_author raw ≫= author_name) "Unknown";
           date := default (Unparseable "") (commit_author raw ≫= author_date);
           commit_url := commit_html_url raw;
           repository := name repo |}.
Proof.
  rewrite in_concat. split.
  - intros (cs & Hcs & Hc). apply in_map_iff in Hcs as (repo & <- & Hrepo).
    apply commitsOf_In in Hc as (response & raw & H). exists repo, response, raw. tauto.
  - intros (repo & response & raw & Hrepo & H).
    exists (commitsOf config octokit repo). split; [now apply in_map|].
    apply commitsOf_In. now exists response, raw.
Qed.

(** C4, amended: without a repository name, [getRecentCommits] asks for the
    commits of the first 10 repositories of the listing, in its order, and of
    no other; each request asks for 5 commits; the answers are merged.  The
    result holds commits of the merged list: [min(limit, n)] of the [n]
    merged commits when [limit >= 0], and [max(n + limit, 0)] when
    [limit < 0], since [slice(0, limit)] then drops the last [-limit]
    entries.  When every merged commit has a date that parses, the result is
    the merged list ordered newest first (commits of the same instant in
    merged order) and cut by [slice(0, limit)].  The comparator answers NaN
    for a commit without a date; the order is then left to the engine and
    nothing is stated about it. *)
Theorem C4_recent_commits_first_ten
        (config : ServerConfig) (octokit : Octokit) (fuel : nat)
        (limit : Z) (useCache : bool) (w : World)
        (repos : list RepositoryMetadata) (w2 : World) :
  misses useCache (allCommitsKey config limit) read_commits w ->
  listRepositories config octokit fuel useCache
    (after_check useCache (allCommitsKey config limit) w) = (Ok repos, w2) ->
  let touched := firstn 10 repos in
  let merged := concat (map (commitsOf config octokit) touched) in
  exists commits w3,
    getRecentCommits config octokit fuel None limit useCache w = (Ok commits, w3) /\
    (exists pages,
       requests w3 =
       requests w ++ map (ListForUser (username config) 100) pages
                  ++ map (fun r => ListCommits (username config) (name r) 5
                                               (username config)) touched) /\
    ((forall r response,
        api_listCommits octokit (username config) (name r) 5 (username config)
        = Resolved response -> len response <= 5) ->
     len merged <= 5 * Z.min 10 (len repos)) /\
    (forall c, In c merged <->
       exists repo response raw,
         In repo touched /\
         api_listCommits octokit (username config) (name repo) 5 (username config)
         = Resolved response /\
         In raw response /\
         c = {| sha := commit_sha raw;
                message := commit_message raw;
                author := Js.or_else (commit_author raw ≫= author_name) "Unknown";
                date := default (Unparseable "") (commit_author raw ≫= author_date);
                commit_url := commit_html_url raw;
                repository := name repo |}) /\
    (forall c, In c commits -> In c merged) /\
    len commits = (if limit <? 0 then Z.max (len merged + limit) 0
                   else Z.min limit (len merged)) /\
    (Forall date_parses merged ->
     let sorted := Js.sort (by_time_desc date) merged in
     Permutation sorted merged /\
     StronglySorted not_older sorted /\
     commits = Js.slice0 limit sorted /\
     (0 <= limit -> commits = firstn (Z.to_nat limit) sorted) /\
     (limit < 0 ->
      commits = firstn (length sorted - Z.to_nat (- limit)) sorted)).
Proof.
  intros Hmiss Hlist. cbv zeta.
  pose proof (getRecentCommits_all_run config octokit fuel None limit useCache w
                repos w2 eq_refl Hmiss Hlist) as Hrun.
  cbv zeta in Hrun. rewrite (slice0_firstn 10 repos) in Hrun by lia.
  change (Z.to_nat 10) with 10%nat in Hrun.
  set (merged := concat (map (commitsOf config octokit) (firstn 10 repos))) in *.
  eexists _, _. split; [exact Hrun|].
  split; [|split; [|split; [apply merged_In|split; [|split; [|]]]]].
  - destruct (listRepositories_requests config octokit fuel useCache
                (after_check useCache (allCommitsKey config limit) w)) as [pages Hp].
    rewrite Hlist, after_check_requests in Hp. simpl in Hp.
    exists pages. simpl. rewrite Hp. now rewrite <- app_assoc.
  - intros Hper.
    assert (Hone : forall r, len (commitsOf config octokit r) <= 5).
    { intros r. unfold commitsOf.
      destruct (api_listCommits octokit _ _ _ _) eqn:E.
      - unfold len. rewrite length_map. now apply (Hper r).
      - unfold len. simpl. lia. }
    assert (Hall : forall l, len (concat (map (commitsOf config octokit) l)) <= 5 * len l).
    { induction l as [|r t IH]; [unfold len; simpl; lia|].
      simpl. rewrite len_app. specialize (Hone r).
      unfold len in *. simpl length. lia. }
    specialize (Hall (firstn 10 repos)). unfold merged.
    unfold len in *. rewrite length_firstn in Hall. lia.
  - intros c Hin. apply slice0_In in Hin. now apply sort_In in Hin.
  - destruct (Z.ltb_spec limit 0) as [Hneg|Hpos].
    + rewrite slice0_len_neg by assumption. unfold len. now rewrite sort_length.
    + rewrite slice0_len by assumption. unfold len. now rewrite sort_length.
  - intros Hall. split; [apply sort_perm|]. split; [now apply sort_commits_newest_first|].
    split; [reflexivity|]. split.
    + intros Hlim. now apply slice0_firstn.
    + intros Hneg. unfold Js.slice0.
      replace (limit <? 0) with true by (symmetry; apply Z.ltb_lt; lia).
      f_equal. lia.
Qed.

Lemma C4_witness :
  exists commits w3,
    getRecentCommits sampleConfig sampleOctokit 3 None 50 true emptyWorld
    = (Ok commits, w3) /\
    len commits = 2.
Proof.
  edestruct (C4_recent_commits_first_ten sampleConfig sampleOctokit 3%nat 50 true
               emptyWorld)
    as (commits & w3 & Hrun & _ & _ & _ & _ & Hlen & _);
    [intros _; reflexivity | vm_compute; reflexivity |].
  exists commits, w3. split; [exact Hrun|]. rewrite Hlen. vm_compute. reflexivity.
Defined.

(** C4 as stated fails for a negative [limit], which the tool passes on as
    it is: the result is not cut to at most [limit] entries.  With two dated
    commits and [limit = -1] the older one is dropped and the newer one is
    returned. *)
Lemma C4_counterexample :
  fst (getRecentCommits sampleConfig sampleOctokit 3 None (-1) true emptyWorld)
  = Ok [ {| sha := "2222222"; message := "work"; author := "octocat";
            date := Instant 172800000;
            commit_url := "https://github.com/octocat/a/commit/2222222";
            repository := "a" |} ] /\
  ~ (len [ {| sha := "2222222"; message := "work"; author := "octocat";
              date := Instant 172800000;
              commit_url := "https://github.com/octocat/a/commit/2222222";
              repository := "a" |} ] <= -1).
Proof. split; [vm_compute; reflexivity | unfold len; simpl; lia]. Qed.

(** C10: in the cross-repository mode a repository whose commit request is
    rejected contributes the empty list; the operation still succeeds, and
    the tool answers the success envelope.  The result holds commits of the
    repositories that answered, each with its fields and the name of its
    repository, cut by [slice(0, limit)]: all of them when [limit] is at
    least their number, and, when their dates parse, in the order newest
    first. *)
Theorem C10_repository_failure_swallowed
        (config : ServerConfig) (octokit : Octokit) (fuel : nat)
        (limit : Z) (useCache : bool) (w : World)
        (repos : list RepositoryMetadata) (w2 : World) :
  misses useCache (allCommitsKey config limit) read_commits w ->
  listRepositories config octokit fuel useCache
    (after_check useCache (allCommitsKey config limit) w) = (Ok repos, w2) ->
  let touched := firstn 10 repos in
  let answered := List.filter (resolves config octokit) touched in
  let merged := concat (map (commitsOf config octokit) answered) in
  (forall repo e w0,
     api_listCommits octokit (username config) (name repo) 5 (username config)
     = Rejected e ->
     fetchRepoCommits config octokit repo w0
     = (Ok [], mkWorld (cache w0) (clock w0)
                 (requests w0 ++ [ListCommits (username config) (name repo) 5
                                              (username config)]))) /\
  exists commits w3,
    getRecentCommits config octokit fuel None limit useCache w = (Ok commits, w3) /\
    (forall c, In c commits ->
       exists repo response raw,
         In repo touched /\
         api_listCommits octokit (username config) (name repo) 5 (username config)
         = Resolved response /\
         In raw response /\
         c = {| sha := commit_sha raw;
                message := commit_message raw;
                author := Js.or_else (commit_author raw ≫= author_name) "Unknown";
                date := default (Unparseable "") (commit_author raw ≫= author_date);
                commit_url := commit_html_url raw;
                repository := name repo |}) /\
    len commits = (if limit <? 0 then Z.max (len merged + limit) 0
                   else Z.min limit (len merged)) /\
    (len merged <= limit -> Permutation commits merged) /\
    (Forall date_parses merged ->
     commits = Js.slice0 limit (Js.sort (by_time_desc date) merged)) /\
    exists w4,
      tool_getRecentCommits config octokit fuel (commitsArgs limit useCache) w =
      (Ok {| success := true; data := Some commits; error := None;
             cached := Some useCache; timestamp := clock w4 |}, w4).
Proof.
  intros Hmiss Hlist. cbv zeta. split.
  - intros repo e w0 Hrej. rewrite fetchRepoCommits_run. unfold commitsOf.
    rewrite Hrej. reflexivity.
  - pose proof (getRecentCommits_all_run config octokit fuel None limit useCache w
                  repos w2 eq_refl Hmiss Hlist) as Hrun.
    cbv zeta in Hrun. rewrite (slice0_firstn 10 repos) in Hrun by lia.
    change (Z.to_nat 10) with 10%nat in Hrun.
    rewrite concat_resolved in Hrun.
    set (merged := concat (map (commitsOf config octokit)
                     (List.filter (resolves config octokit) (firstn 10 repos)))) in *.
    eexists _, _. split; [exact Hrun|]. split; [|split; [|split; [|split]]].
    + intros c Hin. apply slice0_In in Hin. apply sort_In in Hin.
      apply merged_In in Hin as (repo & response & raw & Hrepo & H).
      apply filter_In in Hrepo as [Hrepo _]. exists repo, response, raw. tauto.
    + destruct (Z.ltb_spec limit 0) as [Hneg|Hpos].
      * rewrite slice0_len_neg by assumption. unfold len. now rewrite sort_length.
      * rewrite slice0_len by assumption. unfold len. now rewrite sort_length.
    + intros Hle. rewrite slice0_all; [apply sort_perm|].
      unfold len in *. now rewrite sort_length.
    + intros _. reflexivity.
    + rewrite tool_getRecentCommits_run.
      change (getRecentCommits config octokit fuel
                (rc_repository_name (commitsArgs limit useCache))
                (default 50 (rc_limit (commitsArgs limit useCache)))
                (default true (rc_use_cache (commitsArgs limit useCache))) w)
        with (getRecentCommits config octokit fuel None limit useCache w).
      rewrite Hrun.
      change (default true (rc_use_cache (commitsArgs limit useCache))) with useCache.
      match goal with |- exists w4, (_, ?X) = _ => exists X end. reflexivity.
Qed.

Lemma C10_witness :
  exists commits w3,
    getRecentCommits sampleConfig sampleOctokit 3 None 50 true emptyWorld
    = (Ok commits, w3) /\
    api_listCommits sampleOctokit "octocat" "b" 5 "octocat" = Rejected notFound /\
    len commits = 2.
Proof.
  edestruct (C10_repository_failure_swallowed sampleConfig sampleOctokit 3%nat 50 true
               emptyWorld)
    as (_ & commits & w3 & Hrun & _ & Hlen & _);
    [intros _; reflexivity | vm_compute; reflexivity |].
  exists commits, w3. split; [exact Hrun|]. split; [reflexivity|].
  rewrite Hlen. vm_compute. reflexivity.
Defined.

(** * Further properties of the code *)

(** ** Error translation *)

Lemma handleApiError_cases (e : Js.Error) :
  handleApiError e = e \/
  handleApiError e =
    Js.mkError "Error" "GitHub API rate limit exceeded. Please try again later." \/
  handleApiError e =
    Js.mkError "Error" "Invalid GitHub token. Please check your GITHUB_TOKEN in .env file." \/
  handleApiError e = Js.mkError "Error" "Repository or resource not found.".
Proof.
  unfold handleApiError.
  destruct (Js.includes _ "rate limit"); [auto|].
  destruct (Js.includes _ "401" || Js.includes _ "Bad credentials")%bool; [auto|].
  destruct (Js.includes _ "404"); auto.
Qed.

Lemma handleApiError_fixed (e : Js.Error) :
  handleApiError (handleApiError e) = handleApiError e.
Proof.
  destruct (handleApiError_cases e) as [H|[H|[H|H]]]; rewrite H; try reflexivity.
  unfold handleApiError in *.
  destruct (Js.includes _ "rate limit"); [discriminate H || (rewrite <- H; reflexivity)|].
  destruct (Js.includes _ "401" || Js.includes _ "Bad credentials")%bool;
    [discriminate H || (rewrite <- H; reflexivity)|].
  destruct (Js.includes _ "404"); [discriminate H || (rewrite <- H; reflexivity)|].
  reflexivity.
Qed.

(** ** The listing *)

Section ListingRun.
Variable config : ServerConfig.
Variable octokit : Octokit.
Variable fuel : nat.

Lemma listRepositories_run (useCache : bool) (w : World) :
  listRepositories config octokit fuel useCache w =
  match (if useCache then peek (reposKey config) w ≫= read_repos else None) with
  | Some l => (Ok l, after_get (reposKey config) w)
  | None =>
      match fetchPages config octokit fuel 1 [] (after_check useCache (reposKey config) w) with
      | (Ok r, w2) =>
          (Ok (map toMetadata r),
           stored config (reposKey config) (CVRepos (map toMetadata r)) w2)
      | (Throw e, w2) => (Throw (handleApiError e), w2)
      | (OutOfFuel, w2) => (OutOfFuel, w2)
      end
  end.
Proof.
  unfold listRepositories. fold (reposKey config).
  assert (Hbody : forall w1,
    try_catch
      (let* repositories := fetchPages config octokit fuel 1 [] in
       let metadata := map toMetadata repositories in
       let* _ := cache_set config (reposKey config) (CVRepos metadata) in
       ret metadata)
      (fun error => throw (handleApiError error)) w1 =
    match fetchPages config octokit fuel 1 [] w1 with
    | (Ok r, w2) =>
        (Ok (map toMetadata r),
         stored config (reposKey config) (CVRepos (map toMetadata r)) w2)
    | (Throw e, w2) => (Throw (handleApiError e), w2)
    | (OutOfFuel, w2) => (OutOfFuel, w2)
    end).
  { intros w1. unfold try_catch, bind, cache_set, throw, ret, stored.
    destruct (fetchPages config octokit fuel 1 [] w1) as [[r|e|] w2]; reflexivity. }
  destruct useCache.
  - destruct (peek (reposKey config) w ≫= read_repos) as [l|] eqn:E.
    + now apply cached_or_hit.
    + rewrite cached_or_miss by (intros _; exact E). apply Hbody.
  - unfold cached_or. apply Hbody.
Qed.

(** [fetchPages] reads and writes nothing but the request log. *)
Lemma fetchPages_frame (n : nat) (page : Z) (acc : list Repository) (w : World) :
  exists reqs,
    snd (fetchPages config octokit n page acc w) = logged_all reqs w.
Proof.
  revert page acc w. induction n as [|n IH]; intros page acc w; simpl.
  - exists []. unfold logged_all. simpl. now rewrite app_nil_r, world_eta.
  - unfold bind, call.
    destruct (api_listForUser octokit (username config) 100 page) as [r|e]; simpl.
    + destruct (len r =? 100).
      * destruct (IH (page + 1) (acc ++ r)
                     (mkWorld (cache w) (clock w)
                        (requests w ++ [ListForUser (username config) 100 page])))
          as [reqs H].
        exists (ListForUser (username config) 100 page :: reqs). rewrite H.
        unfold logged_all. simpl. now rewrite <- app_assoc.
      * now exists [ListForUser (username config) 100 page].
    + now exists [ListForUser (username config) 100 page].
Qed.

(** Against a remote that serves a finite listing page by page, the loop
    returns the whole listing and asks for one page more than there are full
    pages. *)
Lemma fetchPages_paged (all : list Repository) (n k : nat) (w : World) :
  serves_listing octokit (username config) all ->
  (100 * k <= length all)%nat ->
  ((length all - 100 * k) / 100 < n)%nat ->
  fetchPages config octokit n (Z.of_nat (S k)) (firstn (100 * k) all) w =
  (Ok all,
   logged_all (pageRequests (username config) (S k) (S ((length all - 100 * k) / 100))) w).
Proof.
  intros Hserve. revert k w. induction n as [|n IH]; intros k w Hk Hn; [lia|].
  cbn [fetchPages]. unfold bind, call.
  rewrite (Hserve (S k)) by lia. cbn [settle].
  unfold page_of. replace (S k - 1)%nat with k by lia.
  set (rest := skipn (100 * k) all).
  assert (Hrest : length rest = (length all - 100 * k)%nat)
    by (unfold rest; now rewrite length_skipn).
  assert (Hall : all = firstn (100 * k) all ++ rest)
    by (unfold rest; now rewrite firstn_skipn).
  destruct (Nat.lt_ge_cases (length rest) 100) as [Hshort|Hfull].
  - assert (Hf : firstn 100 rest = rest) by (apply firstn_all2; lia).
    rewrite Hf.
    replace (len rest =? 100) with false
      by (symmetry; apply Z.eqb_neq; unfold len; lia).
    unfold ret. rewrite <- Hall.
    replace ((length all - 100 * k) / 100)%nat with 0%nat
      by (symmetry; apply Nat.div_small; lia).
    reflexivity.
  - replace (len (firstn 100 rest) =? 100) with true
      by (symmetry; apply Z.eqb_eq; unfold len; rewrite length_firstn; lia).
    assert (Hacc : firstn (100 * k) all ++ firstn 100 rest = firstn (100 * S k) all).
    { unfold rest. rewrite take_take_drop. f_equal. lia. }
    rewrite Hacc.
    replace (Z.of_nat (S k) + 1) with (Z.of_nat (S (S k))) by lia.
    assert (Hdiv : ((length all - 100 * k) / 100 = S ((length all - 100 * S k) / 100))%nat).
    { replace (length all - 100 * k)%nat with (1 * 100 + (length all - 100 * S k))%nat by lia.
      rewrite Nat.div_add_l by lia. lia. }
    rewrite IH by lia.
    f_equal. unfold logged_all, pageRequests. cbn [cache clock requests].
    f_equal. rewrite Hdiv. rewrite <- app_assoc. f_equal.
Qed.
End ListingRun.

(** X1: the translation of remote errors is applied once and for all: a
    message that mentions "rate limit" gets the rate-limit text whatever else
    it mentions, "401" or "Bad credentials" come before "404", a message
    that mentions "404" and none of the former gets the not-found text, any
    other error passes unchanged, and translating an already translated
    error changes nothing (the client methods that call one another
    translate twice). *)
Theorem handleApiError_translates_once (e : Js.Error) :
  handleApiError (handleApiError e) = handleApiError e /\
  (Js.includes (Js.err_message e) "rate limit" = true ->
   handleApiError e =
   Js.mkError "Error" "GitHub API rate limit exceeded. Please try again later.") /\
  (Js.includes (Js.err_message e) "rate limit" = false ->
   Js.includes (Js.err_message e) "401" = true \/
   Js.includes (Js.err_message e) "Bad credentials" = true ->
   handleApiError e =
   Js.mkError "Error" "Invalid GitHub token. Please check your GITHUB_TOKEN in .env file.") /\
  (Js.includes (Js.err_message e) "rate limit" = false ->
   Js.includes (Js.err_message e) "401" = false ->
   Js.includes (Js.err_message e) "Bad credentials" = false ->
   Js.includes (Js.err_message e) "404" = true ->
   handleApiError e = Js.mkError "Error" "Repository or resource not found.") /\
  (Js.includes (Js.err_message e) "rate limit" = false ->
   Js.includes (Js.err_message e) "401" = false ->
   Js.includes (Js.err_message e) "Bad credentials" = false ->
   Js.includes (Js.err_message e) "404" = false ->
   handleApiError e = e).
Proof.
  split; [apply handleApiError_fixed|]. unfold handleApiError.
  repeat split.
  - now intros ->.
  - intros -> [->| ->]; [reflexivity|]. now rewrite orb_true_r.
  - now intros -> -> -> ->.
  - now intros -> -> -> ->.
Qed.

Lemma handleApiError_translates_once_witness :
  Js.includes (Js.err_message rateLimited) "rate limit" = true /\
  handleApiError rateLimited =
  Js.mkError "Error" "GitHub API rate limit exceeded. Please try again later.".
Proof.
  assert (H : Js.includes (Js.err_message rateLimited) "rate limit" = true)
    by reflexivity.
  split; [exact H|].
  exact (proj1 (proj2 (handleApiError_translates_once rateLimited)) H).
Defined.

(** ** Methods that cache their result *)

Lemma peek_hit_same (key : string) (w : World) (v : CacheValue) :
  peek key w = Some v -> after_get key w = w.
Proof.
  unfold peek, after_get, CacheService.get, NodeCache.get.
  destruct (cache w !! key) as [e|]; [|discriminate].
  destruct (NodeCache.expired (clock w) e); [discriminate|].
  intros _. apply world_eta.
Qed.

Lemma peek_stored (config : ServerConfig) (key : string) (v : CacheValue) (w : World) :
  0 < CacheService.effective_ttl config None ->
  peek key (stored config key v w) = Some v.
Proof.
  intros Httl. unfold peek, stored, CacheService.get, CacheService.set,
    NodeCache.get, NodeCache.set. cbn [cache clock snd].
  rewrite lookup_insert_eq. unfold NodeCache.expired.
  cbn [NodeCache.ttl NodeCache.inserted NodeCache.payload].
  now replace (_ <=? clock w - clock w) with false by (symmetry; apply Z.leb_gt; lia).
Qed.

Lemma cached_method_run {X A} (config : ServerConfig) (useCache : bool) (key : string)
      (read : CacheValue -> option A) (inj : A -> CacheValue)
      (op : M X) (f : X -> A) (w : World) :
  cached_or useCache key read
    (try_catch
       (let* x := op in
        let* _ := cache_set config key (inj (f x)) in
        ret (f x))
       (fun error => throw (handleApiError error))) w =
  match (if useCache then peek key w ≫= read else None) with
  | Some a => (Ok a, after_get key w)
  | None =>
      match op (after_check useCache key w) with
      | (Ok x, w2) => (Ok (f x), stored config key (inj (f x)) w2)
      | (Throw e, w2) => (Throw (handleApiError e), w2)
      | (OutOfFuel, w2) => (OutOfFuel, w2)
      end
  end.
Proof.
  assert (Hbody : forall w1,
    try_catch
      (let* x := op in
       let* _ := cache_set config key (inj (f x)) in
       ret (f x))
      (fun error => throw (handleApiError error)) w1 =
    match op w1 with
    | (Ok x, w2) => (Ok (f x), stored config key (inj (f x)) w2)
    | (Throw e, w2) => (Throw (handleApiError e), w2)
    | (OutOfFuel, w2) => (OutOfFuel, w2)
    end).
  { intros w1. unfold try_catch, bind, cache_set, throw, ret, stored.
    destruct (op w1) as [[x|e|] w2]; reflexivity. }
  destruct useCache.
  - destruct (peek key w ≫= read) as [a|] eqn:E.
    + now apply cached_or_hit.
    + rewrite cached_or_miss by (intros _; exact E). apply Hbody.
  - unfold cached_or. apply Hbody.
Qed.

Section StatsRun.
Variable config : ServerConfig.
Variable octokit : Octokit.
Variable fuel : nat.

Lemma getRepositoryStats_run (useCache : bool) (w : World) :
  getRepositoryStats config octokit fuel useCache w =
  match (if useCache then peek (statsKey config) w ≫= read_stats else None) with
  | Some a => (Ok a, after_get (statsKey config) w)
  | None =>
      match listRepositories config octokit fuel useCache
              (after_check useCache (statsKey config) w) with
      | (Ok repos, w2) =>
          (Ok (repositoryStats repos),
           stored config (statsKey config) (CVStats (repositoryStats repos)) w2)
      | (Throw e, w2) => (Throw (handleApiError e), w2)
      | (OutOfFuel, w2) => (OutOfFuel, w2)
      end
  end.
Proof.
  exact (cached_method_run config useCache (statsKey config) read_stats CVStats
           (listRepositories config octokit fuel useCache) repositoryStats w).
Qed.

Lemma listRepositories_rejected (useCache : bool) (w : World) (e : Js.Error) :
  (0 < fuel)%nat ->
  misses useCache (reposKey config) read_repos w ->
  api_listForUser octokit (username config) 100 1 = Rejected e ->
  listRepositories config octokit fuel useCache w =
  (Throw (handleApiError e),
   logged (ListForUser (username config) 100 1)
          (after_check useCache (reposKey config) w)).
Proof.
  intros Hfuel Hmiss Hrej. rewrite listRepositories_run.
  assert (Hnone : (if useCache then peek (reposKey config) w ≫= read_repos else None)
                  = None).
  { destruct useCache; [now apply Hmiss | reflexivity]. }
  rewrite Hnone. destruct fuel as [|n]; [lia|].
  cbn [fetchPages]. unfold bind, call. rewrite Hrej. reflexivity.
Qed.
End StatsRun.

(** X2: when the first page of the listing is rejected and nothing is served
    from the cache, [getRepositoryStats] throws the translated error after
    that one request, and [get_repository_stats] answers the failure
    envelope: no data, the code GET_REPOSITORY_STATS_ERROR, the message
    'Failed to get repository stats: ' followed by the translated text, and
    the timestamp. *)
Theorem stats_listing_rejected
        (config : ServerConfig) (octokit : Octokit) (fuel : nat)
        (useCache : bool) (w : World) (e : Js.Error) :
  (0 < fuel)%nat ->
  misses useCache (statsKey config) read_stats w ->
  misses useCache (reposKey config) read_repos
         (after_check useCache (statsKey config) w) ->
  api_listForUser octokit (username config) 100 1 = Rejected e ->
  let w' := logged (ListForUser (username config) 100 1)
              (after_check useCache (reposKey config)
                 (after_check useCache (statsKey config) w)) in
  getRepositoryStats config octokit fuel useCache w = (Throw (handleApiError e), w') /\
  tool_getRepositoryStats config octokit fuel (statsArgs (Some useCache)) w =
  (Ok {| success := false; data := None;
         error := Some {| er_error := "GET_REPOSITORY_STATS_ERROR";
                          er_message := "Failed to get repository stats: "
                                        +:+ Js.err_message (handleApiError e);
                          er_timestamp := clock w' |};
         cached := None; timestamp := clock w' |}, w') /\
  requests w' = requests w ++ [ListForUser (username config) 100 1].
Proof.
  intros Hfuel Hstats Hrepos Hrej. cbv zeta.
  assert (Hrun :
    getRepositoryStats config octokit fuel useCache w =
    (Throw (handleApiError e),
     logged (ListForUser (username config) 100 1)
       (after_check useCache (reposKey config)
          (after_check useCache (statsKey config) w)))).
  { rewrite getRepositoryStats_run.
    assert (Hnone : (if useCache then peek (statsKey config) w ≫= read_stats else None)
                    = None).
    { destruct useCache; [now apply Hstats | reflexivity]. }
    rewrite Hnone.
    rewrite (listRepositories_rejected config octokit fuel useCache _ e Hfuel Hrepos Hrej).
    now rewrite handleApiError_fixed. }
  split; [exact Hrun|]. split.
  - rewrite tool_getRepositoryStats_run.
    change (default true (rs_use_cache (statsArgs (Some useCache)))) with useCache.
    rewrite Hrun. reflexivity.
  - cbn [logged requests]. now rewrite !after_check_requests.
Qed.

Lemma stats_listing_rejected_witness :
  tool_getRepositoryStats sampleConfig (failingOctokit rateLimited) 1
    (statsArgs (Some true)) emptyWorld =
  (Ok {| success := false; data := None;
         error := Some {| er_error := "GET_REPOSITORY_STATS_ERROR";
                          er_message :=
                            "Failed to get repository stats: GitHub API rate limit exceeded. Please try again later.";
                          er_timestamp := 1000 |};
         cached := None; timestamp := 1000 |},
   {| cache := ∅; clock := 1000; requests := [ListForUser "octocat" 100 1] |}).
Proof.
  refine (proj1 (proj2 (stats_listing_rejected sampleConfig (failingOctokit rateLimited)
                          1%nat true emptyWorld rateLimited _ _ _ _))).
  - lia.
  - intros _. reflexivity.
  - intros _. reflexivity.
  - reflexivity.
Defined.

Lemma pagedOctokit_serves (all : list Repository) (user : string) :
  serves_listing (pagedOctokit all) user all.
Proof. intros page _. cbn. now rewrite Nat2Z.id. Qed.

(** X3: against a remote that serves a listing of [n] repositories in pages of
    100, a listing that is not served from the cache reads [n / 100 + 1] pages
    (one more than the full pages, so an empty page when [n] is a multiple of
    100), returns all [n] records in the order served and stores them under
    the listing key. *)
Theorem listRepositories_reads_all_pages
        (config : ServerConfig) (octokit : Octokit) (fuel : nat)
        (all : list Repository) (useCache : bool) (w : World) :
  serves_listing octokit (username config) all ->
  (length all / 100 < fuel)%nat ->
  misses useCache (reposKey config) read_repos w ->
  exists w',
    listRepositories config octokit fuel useCache w = (Ok (map toMetadata all), w') /\
    requests w' =
      requests w ++ pageRequests (username config) 1 (S (length all / 100)) /\
    peek (reposKey config) w' =
      (if 0 <? CacheService.effective_ttl config None
       then Some (CVRepos (map toMetadata all)) else None).
Proof.
  intros Hserve Hfuel Hmiss. rewrite listRepositories_run.
  assert (Hnone : (if useCache then peek (reposKey config) w ≫= read_repos else None)
                  = None).
  { destruct useCache; [now apply Hmiss | reflexivity]. }
  rewrite Hnone.
  pose proof (fetchPages_paged config octokit all fuel 0
                (after_check useCache (reposKey config) w) Hserve) as Hrun.
  rewrite Nat.mul_0_r, Nat.sub_0_r in Hrun.
  change (firstn 0 all) with (@nil Repository) in Hrun.
  change (Z.of_nat 1) with 1 in Hrun.
  rewrite Hrun by lia.
  eexists. split; [reflexivity|]. split.
  - cbn [stored logged_all requests]. now rewrite after_check_requests.
  - unfold peek, stored, CacheService.get, CacheService.set, NodeCache.get, NodeCache.set.
    cbn [cache clock snd logged_all]. rewrite lookup_insert_eq.
    unfold NodeCache.expired.
    cbn [NodeCache.ttl NodeCache.inserted NodeCache.payload].
    rewrite Z.sub_diag.
    destruct (Z.ltb_spec 0 (CacheService.effective_ttl config None)).
    + now replace (_ <=? 0) with false by (symmetry; apply Z.leb_gt; lia).
    + now replace (_ <=? 0) with true by (symmetry; apply Z.leb_le; lia).
Qed.

Lemma listRepositories_reads_all_pages_witness :
  exists w',
    listRepositories sampleConfig (pagedOctokit (manyRepositories 150)) 5 true emptyWorld
    = (Ok (map toMetadata (manyRepositories 150)), w') /\
    requests w' = [ListForUser "octocat" 100 1; ListForUser "octocat" 100 2].
Proof.
  destruct (listRepositories_reads_all_pages sampleConfig
              (pagedOctokit (manyRepositories 150)) 5%nat (manyRepositories 150)
              true emptyWorld)
    as (w' & Hrun & Hreq & _).
  - apply pagedOctokit_serves.
  - vm_compute. lia.
  - intros _. reflexivity.
  - exists w'. split; [exact Hrun|]. rewrite Hreq. reflexivity.
Defined.

(** X4: a listing that succeeded is served from the cache afterwards: a second
    call with the cache enabled returns the same records, issues no request
    and leaves the world as it is, as long as the configured ttl is positive
    and the clock has not moved. *)
Theorem listRepositories_then_cached
        (config : ServerConfig) (octokit : Octokit) (fuel : nat)
        (useCache : bool) (w w' : World) (repos : list RepositoryMetadata) :
  0 < CacheService.effective_ttl config None ->
  listRepositories config octokit fuel useCache w = (Ok repos, w') ->
  listRepositories config octokit fuel true w' = (Ok repos, w').
Proof.
  intros Httl. rewrite listRepositories_run. intros Hrun.
  assert (Hpeek : peek (reposKey config) w' = Some (CVRepos repos)).
  { destruct (if useCache then peek (reposKey config) w ≫= read_repos else None)
      as [l|] eqn:E.
    - injection Hrun as <- <-. destruct useCache; [|discriminate].
      destruct (peek (reposKey config) w) as [v|] eqn:Ev; [|discriminate].
      rewrite (peek_hit_same _ _ _ Ev), Ev.
      destruct v; try discriminate. now injection E as ->.
    - destruct (fetchPages _ _ _ _ _ _) as [[r|e|] w2]; try discriminate.
      injection Hrun as <- <-. now apply peek_stored. }
  rewrite listRepositories_run. rewrite Hpeek. cbn.
  now rewrite (peek_hit_same _ _ _ Hpeek).
Qed.

Lemma listRepositories_then_cached_witness :
  exists repos w',
    listRepositories sampleConfig sampleOctokit 3 true emptyWorld = (Ok repos, w') /\
    listRepositories sampleConfig sampleOctokit 3 true w' = (Ok repos, w').
Proof.
  eexists _, _. split; [vm_compute; reflexivity|].
  eapply (listRepositories_then_cached sampleConfig sampleOctokit 3%nat true emptyWorld);
    [reflexivity | vm_compute; reflexivity].
Defined.

Lemma peek_stored_if (config : ServerConfig) (key : string) (v : CacheValue) (w : World) :
  peek key (stored config key v w) =
  if 0 <? CacheService.effective_ttl config None then Some v else None.
Proof.
  unfold peek, stored, CacheService.get, CacheService.set, NodeCache.get, NodeCache.set.
  cbn [cache clock snd]. rewrite lookup_insert_eq. unfold NodeCache.expired.
  cbn [NodeCache.ttl NodeCache.inserted NodeCache.payload]. rewrite Z.sub_diag.
  destruct (Z.ltb_spec 0 (CacheService.effective_ttl config None)).
  - now replace (_ <=? 0) with false by (symmetry; apply Z.leb_gt; lia).
  - now replace (_ <=? 0) with true by (symmetry; apply Z.leb_le; lia).
Qed.

Lemma none_of_misses {A} (useCache : bool) (key : string)
      (read : CacheValue -> option A) (w : World) :
  misses useCache key read w ->
  (if useCache then peek key w ≫= read else None) = None.
Proof. intros H. destruct useCache; [now apply H | reflexivity]. Qed.

(** ** Commits *)

Section CommitsRun.
Variable config : ServerConfig.
Variable octokit : Octokit.
Variable fuel : nat.

Lemma getRecentCommits_run (repoName : option string) (limit : Z) (useCache : bool)
      (w : World) :
  let key := match repoName_given repoName with
             | Some r => repoCommitsKey config r limit
             | None => allCommitsKey config limit
             end in
  getRecentCommits config octokit fuel repoName limit useCache w =
  match (if useCache then peek key w ≫= read_commits else None) with
  | Some a => (Ok a, after_get key w)
  | None =>
      match (match repoName_given repoName with
             | Some r =>
                 let* response :=
                   call (ListCommits (username config) r limit (username config))
                        (api_listCommits octokit (username config) r limit
                                         (username config)) in
                 ret (map (toCommitMetadata r) response)
             | None =>
                 let* repos := listRepositories config octokit fuel useCache in
                 let* allCommits :=
                   mapM (fetchRepoCommits config octokit) (Js.slice0 10 repos) in
                 ret (Js.slice0 limit (Js.sort (by_time_desc date) (concat allCommits)))
             end) (after_check useCache key w) with
      | (Ok x, w2) => (Ok x, stored config key (CVCommits x) w2)
      | (Throw e, w2) => (Throw (handleApiError e), w2)
      | (OutOfFuel, w2) => (OutOfFuel, w2)
      end
  end.
Proof.
  cbv zeta.
  exact (cached_method_run config useCache _ read_commits CVCommits _ (fun x => x) w).
Qed.
End CommitsRun.

(** X5: with a repository name, [getRecentCommits] sends one request to that
    repository with [per_page = limit] and no listing request; the answer is
    returned in the remote's order, every record tagged with the repository,
    without sorting or truncation; a rejection is thrown (translated), not
    swallowed as in the cross-repository mode. *)
Theorem getRecentCommits_single_repository
        (config : ServerConfig) (octokit : Octokit) (fuel : nat)
        (r : string) (limit : Z) (useCache : bool) (w : World) :
  r <> "" ->
  misses useCache (repoCommitsKey config r limit) read_commits w ->
  let w1 := logged (ListCommits (username config) r limit (username config))
              (after_check useCache (repoCommitsKey config r limit) w) in
  match api_listCommits octokit (username config) r limit (username config) with
  | Resolved response =>
      let commits := map (toCommitMetadata r) response in
      getRecentCommits config octokit fuel (Some r) limit useCache w =
      (Ok commits, stored config (repoCommitsKey config r limit) (CVCommits commits) w1) /\
      length commits = length response /\
      Forall (fun c => repository c = r) commits
  | Rejected e =>
      getRecentCommits config octokit fuel (Some r) limit useCache w =
      (Throw (handleApiError e), w1)
  end.
Proof.
  intros Hr Hmiss. cbv zeta.
  pose proof (getRecentCommits_run config octokit fuel (Some r) limit useCache w) as Hrun.
  cbv zeta in Hrun. unfold repoName_given in Hrun.
  apply truthy_spec in Hr. rewrite Hr in Hrun.
  rewrite (none_of_misses _ _ _ _ Hmiss) in Hrun.
  unfold bind, call, ret in Hrun.
  destruct (api_listCommits octokit (username config) r limit (username config))
    as [response|e]; cbn [settle] in Hrun.
  - split; [exact Hrun|]. split; [apply length_map|].
    apply List.Forall_forall. intros c Hin. apply in_map_iff in Hin as [x [<- _]].
    reflexivity.
  - exact Hrun.
Qed.

Lemma getRecentCommits_single_repository_witness :
  getRecentCommits sampleConfig sampleOctokit 3 (Some "b") 5 true emptyWorld =
  (Throw notFound,
   {| cache := ∅; clock := 1000;
      requests := [ListCommits "octocat" "b" 5 "octocat"] |}).
Proof.
  refine (getRecentCommits_single_repository sampleConfig sampleOctokit 3%nat "b" 5 true
            emptyWorld _ _).
  - discriminate.
  - intros _. reflexivity.
Defined.

(** X6: the cache key of the commits of a repository named "all" is the key of
    the cross-repository result: once the cross-repository commits are cached,
    asking for the commits of repository "all" with the same limit returns
    them, without a request. *)
Theorem commits_key_of_repository_all
        (config : ServerConfig) (octokit : Octokit) (fuel : nat)
        (limit : Z) (useCache : bool) (w : World)
        (repos : list RepositoryMetadata) (w2 : World) :
  0 < CacheService.effective_ttl config None ->
  misses useCache (allCommitsKey config limit) read_commits w ->
  listRepositories config octokit fuel useCache
    (after_check useCache (allCommitsKey config limit) w) = (Ok repos, w2) ->
  repoCommitsKey config "all" limit = allCommitsKey config limit /\
  exists commits w3,
    getRecentCommits config octokit fuel None limit useCache w = (Ok commits, w3) /\
    getRecentCommits config octokit fuel (Some "all") limit true w3 = (Ok commits, w3).
Proof.
  intros Httl Hmiss Hlist. split; [reflexivity|].
  pose proof (getRecentCommits_all_run config octokit fuel None limit useCache w
                repos w2 eq_refl Hmiss Hlist) as Hrun.
  cbv zeta in Hrun. eexists _, _. split; [exact Hrun|].
  pose proof (getRecentCommits_run config octokit fuel (Some "all") limit true) as Hrun2.
  cbv zeta in Hrun2. rewrite Hrun2.
  change (repoName_given (Some "all")) with (Some "all"). cbv iota.
  change (repoCommitsKey config "all" limit) with (allCommitsKey config limit).
  match goal with |- context [peek ?k (stored ?c ?k ?v ?w0)] =>
    pose proof (peek_stored c k v w0 Httl) as Hpeek end.
  rewrite Hpeek. cbn [mbind option_bind read_commits].
  now rewrite (peek_hit_same _ _ _ Hpeek).
Qed.

Lemma commits_key_of_repository_all_witness :
  exists commits w3,
    getRecentCommits sampleConfig sampleOctokit 3 None 50 true emptyWorld
    = (Ok commits, w3) /\
    getRecentCommits sampleConfig sampleOctokit 3 (Some "all") 50 true w3
    = (Ok commits, w3).
Proof.
  edestruct (commits_key_of_repository_all sampleConfig sampleOctokit 3%nat 50 true
               emptyWorld) as (_ & commits & w3 & H1 & H2);
    [reflexivity | intros _; reflexivity | vm_compute; reflexivity |].
  exists commits, w3. split; assumption.
Defined.

(** ** README and details *)

(** X7: a README that decodes to the empty text is stored but never served
    from the cache ([if (cached)] is false for it): the next call asks the
    remote again; a non-empty README is served from the cache, without a
    request, while its entry is fresh. *)
Theorem empty_readme_is_fetched_again
        (config : ServerConfig) (octokit : Octokit) (decodeBase64 : string -> string)
        (repoName : string) (useCache : bool) (w : World) (response : string) :
  misses useCache (readmeKey config repoName) read_readme w ->
  api_getReadme octokit (username config) repoName = Resolved response ->
  exists w1,
    getRepositoryReadme config octokit decodeBase64 repoName useCache w =
    (Ok (decodeBase64 response), w1) /\
    (decodeBase64 response = "" ->
     exists w2,
       getRepositoryReadme config octokit decodeBase64 repoName true w1 = (Ok "", w2) /\
       requests w2 = requests w1 ++ [GetReadme (username config) repoName]) /\
    (decodeBase64 response <> "" ->
     0 < CacheService.effective_ttl config None ->
     getRepositoryReadme config octokit decodeBase64 repoName true w1 =
     (Ok (decodeBase64 response), w1)).
Proof.
  intros Hmiss Hres.
  assert (Hbody : forall w0,
    try_catch
      (let* response := call (GetReadme (username config) repoName)
                             (api_getReadme octokit (username config) repoName) in
       let content := decodeBase64 response in
       let* _ := cache_set config (readmeKey config repoName) (CVReadme content) in
       ret content)
      (fun _ => ret "") w0 =
    (Ok (decodeBase64 response),
     stored config (readmeKey config repoName) (CVReadme (decodeBase64 response))
       (logged (GetReadme (username config) repoName) w0))).
  { intros w0. pose proof (readme_body_run config octokit decodeBase64 repoName w0) as H.
    cbv zeta in H. unfold readmeKey. rewrite H. now rewrite Hres. }
  eexists. split; [|split].
  - unfold getRepositoryReadme. fold (readmeKey config repoName).
    rewrite cached_or_miss by exact Hmiss. apply Hbody.
  - intros Hempty.
    unfold getRepositoryReadme. fold (readmeKey config repoName).
    rewrite cached_or_miss.
    + rewrite Hbody. rewrite Hempty. eexists. split; [reflexivity|].
      cbn [stored logged requests after_check after_get]. reflexivity.
    + intros _. rewrite peek_stored_if, Hempty.
      now destruct (0 <? _).
  - intros Hne Httl.
    unfold getRepositoryReadme. fold (readmeKey config repoName).
    match goal with |- cached_or true ?k _ _ ?w0 = _ =>
      assert (Hpeek : peek k w0 = Some (CVReadme (decodeBase64 response)))
        by now apply peek_stored end.
    rewrite (cached_or_hit _ _ _ _ (decodeBase64 response)).
    + now rewrite (peek_hit_same _ _ _ Hpeek).
    + rewrite Hpeek. cbn. apply truthy_spec in Hne. now rewrite Hne.
Qed.

Lemma empty_readme_is_fetched_again_witness :
  exists w1 w2,
    getRepositoryReadme sampleConfig (readmeOctokit "") (fun s => s) "a" true emptyWorld
    = (Ok "", w1) /\
    getRepositoryReadme sampleConfig (readmeOctokit "") (fun s => s) "a" true w1
    = (Ok "", w2) /\
    requests w2 = [GetReadme "octocat" "a"; GetReadme "octocat" "a"].
Proof.
  destruct (empty_readme_is_fetched_again sampleConfig (readmeOctokit "") (fun s => s)
              "a" true emptyWorld "") as (w1 & H1 & Hempty & _).
  - intros _. reflexivity.
  - reflexivity.
  - destruct (Hempty eq_refl) as (w2 & H2 & Hreq).
    exists w1, w2. split; [exact H1|]. split; [exact H2|].
    rewrite Hreq. clear -H1. vm_compute in H1. injection H1 as <-. reflexivity.
Defined.

(** X8: [getRepositoryDetails] asks for the repository and then for its
    topics; the topics of the second answer replace those of the first, and
    the empty list replaces them when the second request is rejected; the
    result is stored. When the first request is rejected the translated error
    is thrown, the topics are not asked for and nothing is stored. *)
Theorem getRepositoryDetails_topics_best_effort
        (config : ServerConfig) (octokit : Octokit)
        (repoName : string) (useCache : bool) (w : World) :
  misses useCache (repoKey config repoName) read_repo w ->
  let w1 := logged (GetRepo (username config) repoName)
              (after_check useCache (repoKey config repoName) w) in
  match api_get octokit (username config) repoName with
  | Resolved repo =>
      let names :=
        match api_getAllTopics octokit (username config) repoName with
        | Resolved names => names
        | Rejected _ => []
        end in
      getRepositoryDetails config octokit repoName useCache w =
      (Ok (with_topics repo names),
       stored config (repoKey config repoName) (CVRepo (with_topics repo names))
         (logged (GetAllTopics (username config) repoName) w1))
  | Rejected e =>
      getRepositoryDetails config octokit repoName useCache w =
      (Throw (handleApiError e), w1)
  end.
Proof.
  intros Hmiss. cbv zeta.
  unfold getRepositoryDetails. fold (repoKey config repoName).
  rewrite cached_or_miss by exact Hmiss.
  unfold try_catch, bind, call, cache_set, throw, ret, stored, logged.
  destruct (api_get octokit (username config) repoName) as [repo|e]; cbn [settle].
  - destruct (api_getAllTopics octokit (username config) repoName); cbn [settle];
      cbn [cache clock requests]; reflexivity.
  - reflexivity.
Qed.

Lemma getRepositoryDetails_topics_best_effort_witness :
  getRepositoryDetails sampleConfig sampleOctokit "a" false emptyWorld =
  (Ok (with_topics (sampleRepository "a" (Some "Go") 5) []),
   stored sampleConfig (repoKey sampleConfig "a")
     (CVRepo (with_topics (sampleRepository "a" (Some "Go") 5) []))
     (logged (GetAllTopics "octocat" "a") (logged (GetRepo "octocat" "a") emptyWorld))).
Proof.
  refine (getRepositoryDetails_topics_best_effort sampleConfig sampleOctokit "a" false
            emptyWorld _).
  intros H. discriminate H.
Defined.

(** ** Insertion-ordered maps *)

Section JsMapFacts.
Context {K V : Type} (eqb : K -> K -> bool).
Hypothesis eqb_spec : forall a b, eqb a b = true <-> a = b.

Lemma eqb_refl_true (a : K) : eqb a a = true.
Proof. now apply eqb_spec. Qed.

Lemma eqb_neq_false (a b : K) : a <> b -> eqb a b = false.
Proof.
  intros H. destruct (eqb a b) eqn:E; [|reflexivity].
  apply eqb_spec in E. contradiction.
Qed.

Lemma get_set_eq (k : K) (v : V) (m : list (K * V)) :
  JsMap.get eqb k (JsMap.set eqb k v m) = Some v.
Proof.
  induction m as [|[k' v'] t IH]; simpl.
  - now rewrite eqb_refl_true.
  - destruct (eqb k k') eqn:E; simpl.
    + now rewrite eqb_refl_true.
    + now rewrite E.
Qed.

Lemma get_set_ne (k k0 : K) (v : V) (m : list (K * V)) :
  k0 <> k -> JsMap.get eqb k0 (JsMap.set eqb k v m) = JsMap.get eqb k0 m.
Proof.
  intros Hne. induction m as [|[k' v'] t IH]; simpl.
  - now rewrite eqb_neq_false.
  - destruct (eqb k k') eqn:E; simpl.
    + apply eqb_spec in E. subst k'. now rewrite eqb_neq_false.
    + destruct (eqb k0 k'); [reflexivity | exact IH].
Qed.

(** Setting a key keeps the order of the keys; a new key goes last. *)
Lemma keys_set (k : K) (v : V) (m : list (K * V)) :
  map fst (JsMap.set eqb k v m) =
  match JsMap.get eqb k m with
  | Some _ => map fst m
  | None => map fst m ++ [k]
  end.
Proof.
  induction m as [|[k' v'] t IH]; simpl; [reflexivity|].
  destruct (eqb k k') eqn:E; simpl.
  - apply eqb_spec in E. now subst.
  - rewrite IH. now destruct (JsMap.get eqb k t).
Qed.

Lemma get_None_keys (k : K) (m : list (K * V)) :
  JsMap.get eqb k m = None <-> ~ In k (map fst m).
Proof.
  induction m as [|[k' v'] t IH]; simpl; [tauto|].
  destruct (eqb k k') eqn:E.
  - apply eqb_spec in E. subst. split; [discriminate | tauto].
  - rewrite IH. split; [|tauto]. intros H [Heq|Hin]; [|tauto].
    subst. rewrite eqb_refl_true in E. discriminate.
Qed.

Lemma keys_set_NoDup (k : K) (v : V) (m : list (K * V)) :
  List.NoDup (map fst m) -> List.NoDup (map fst (JsMap.set eqb k v m)).
Proof.
  intros Hnd. rewrite keys_set.
  destruct (JsMap.get eqb k m) eqn:E; [assumption|].
  apply get_None_keys in E.
  apply List.NoDup_app; [assumption | repeat constructor; auto | ].
  intros x Hx [<-|[]]. contradiction.
Qed.

Lemma In_get (k : K) (v : V) (m : list (K * V)) :
  List.NoDup (map fst m) -> In (k, v) m -> JsMap.get eqb k m = Some v.
Proof.
  induction m as [|[k' v'] t IH]; simpl; [tauto|].
  intros Hnd [Heq|Hin].
  - injection Heq as -> ->. now rewrite eqb_refl_true.
  - inversion Hnd as [|? ? Hnotin Hnd']; subst.
    destruct (eqb k k') eqn:E.
    + apply eqb_spec in E. subst. exfalso. apply Hnotin.
      apply in_map_iff. now exists (k', v).
    + now apply IH.
Qed.

Lemma get_In (k : K) (v : V) (m : list (K * V)) :
  JsMap.get eqb k m = Some v -> In (k, v) m.
Proof.
  induction m as [|[k' v'] t IH]; simpl; [discriminate|].
  destruct (eqb k k') eqn:E.
  - apply eqb_spec in E. subst. intros [= ->]. now left.
  - intros H. right. now apply IH.
Qed.
End JsMapFacts.

(** ** The structure of the language breakdown *)

Lemma namesOf_app (l : string) (p q : list RepositoryMetadata) :
  namesOf l (p ++ q) = namesOf l p ++ namesOf l q.
Proof. unfold namesOf. now rewrite List.filter_app, map_app. Qed.

Lemma namesOf_single (l : string) (r : RepositoryMetadata) :
  namesOf l [r] =
  match language r with
  | Some l' => if String.eqb l' l then [name r] else []
  | None => []
  end.
Proof.
  unfold namesOf. cbn [List.filter].
  destruct (language r) as [l'|]; [|reflexivity]. now destruct (String.eqb l' l).
Qed.

Lemma languageMap_snoc (p : list RepositoryMetadata) (r : RepositoryMetadata) :
  languageMap (p ++ [r]) = languageMap_step (languageMap p) r.
Proof. unfold languageMap. now rewrite fold_left_app. Qed.

Lemma languageMap_inv (repos : list RepositoryMetadata) :
  List.NoDup (map fst (languageMap repos)) /\
  forall l,
    JsMap.get String.eqb l (languageMap repos) =
    if Js.truthy l
    then match namesOf l repos with [] => None | ns => Some ns end
    else None.
Proof.
  induction repos as [|r p IH] using rev_ind.
  - split; [constructor|]. intros l. cbn. now destruct (Js.truthy l).
  - destruct IH as [Hnd Hget]. rewrite languageMap_snoc.
    unfold languageMap_step.
    destruct (language r) as [lr|] eqn:Hlr.
    + destruct (Js.truthy lr) eqn:Htr.
      * split; [now apply keys_set_NoDup; [apply String.eqb_eq|]|].
        intros l. rewrite namesOf_app, namesOf_single, Hlr.
        destruct (String.eqb_spec l lr) as [->|Hne].
        -- rewrite get_set_eq by apply String.eqb_eq. rewrite Htr.
           rewrite Hget, Htr, String.eqb_refl.
           destruct (namesOf lr p) as [|n ns]; reflexivity.
        -- rewrite get_set_ne by (apply String.eqb_eq || assumption).
           rewrite Hget.
           replace (String.eqb lr l) with false
             by (symmetry; apply String.eqb_neq; congruence).
           now rewrite app_nil_r.
      * split; [assumption|]. intros l. rewrite Hget, namesOf_app, namesOf_single, Hlr.
        destruct (String.eqb_spec lr l) as [<-|Hne].
        -- now rewrite Htr.
        -- now rewrite app_nil_r.
    + split; [assumption|]. intros l.
      rewrite Hget, namesOf_app, namesOf_single, Hlr. now rewrite app_nil_r.
Qed.

Lemma namesOf_length (l : string) (repos : list RepositoryMetadata) :
  (length (namesOf l repos) <= length repos)%nat.
Proof. unfold namesOf. rewrite length_map. apply List.filter_length_le. Qed.

Lemma calculatePercentage_range (value total : Z) :
  0 <= value <= total ->
  (0 <= calculatePercentage value total <= 100)%Q.
Proof.
  intros Hv.
  destruct (Z.eq_dec total 0) as [->|Hne]; [unfold calculatePercentage; split; discriminate|].
  destruct (calculatePercentage_steps value total ltac:(lia) Hv)
    as (q & d1 & d2 & d3 & r & _ & _ & _ & _ & _ & _ & Hr & Hp & Hmax).
  split; [|exact Hmax].
  assert (Hr0 : (0 <= inject_Z r)%Q)
    by (change 0%Q with (inject_Z 0); rewrite <- Zle_Qle; lia).
  set (p := calculatePercentage value total) in *.
  set (n := inject_Z r) in *. clearbody p n. unfold Float64.u in *. lra.
Qed.

(** X9: the language breakdown has one entry per distinct non-empty primary
    language; an entry lists exactly the names of the repositories of that
    language, in listing order, and counts them (at least one); every
    repository with a language is listed; the entries come in descending
    order of count and each percentage lies between 0 and 100. *)
Theorem languageBreakdown_structure (repos : list RepositoryMetadata) :
  let breakdown := languages (repositoryStats repos) in
  List.NoDup (map ls_language breakdown) /\
  (forall s, In s breakdown ->
     ls_language s <> "" /\
     repositories s = namesOf (ls_language s) repos /\
     count s = len (repositories s) /\ 1 <= count s /\
     (0 <= percentage s <= 100)%Q) /\
  (forall r l, In r repos -> language r = Some l -> l <> "" ->
     exists s, In s breakdown /\ ls_language s = l /\ In (name r) (repositories s)) /\
  StronglySorted (fun a b => count b <= count a) breakdown.
Proof.
  cbn zeta. cbn [languages repositoryStats]. unfold languageBreakdown.
  destruct (languageMap_inv repos) as [Hnd Hget].
  set (cmp := fun a b : LanguageStats => Some (count b - count a)).
  assert (Hentry : forall s,
    In s (Js.sort cmp (map (languageEntry (len repos)) (languageMap repos))) ->
    exists k v, In (k, v) (languageMap repos) /\ s = languageEntry (len repos) (k, v)).
  { intros s Hin. apply sort_In in Hin. apply in_map_iff in Hin as [[k v] [<- Hin]].
    eauto. }
  split; [|split; [|split]].
  - eapply Permutation_NoDup; [symmetry; apply Permutation_map, sort_perm|].
    rewrite map_map. cbn [languageEntry ls_language]. exact Hnd.
  - intros s Hin. destruct (Hentry s Hin) as (k & v & Hkv & ->).
    cbn [languageEntry ls_language repositories count percentage fst snd].
    pose proof (In_get String.eqb String.eqb_eq k v _ Hnd Hkv) as Hk.
    rewrite Hget in Hk. destruct (Js.truthy k) eqn:Htr; [|discriminate].
    destruct (namesOf k repos) as [|n ns] eqn:Hns; [discriminate|].
    injection Hk as <-.
    assert (Hlen : 1 <= len (n :: ns) <= len repos).
    { unfold len. split; [simpl; lia|]. rewrite <- Hns.
      pose proof (namesOf_length k repos). lia. }
    split; [now apply truthy_spec|]. split; [reflexivity|].
    split; [reflexivity|]. split; [lia|].
    apply calculatePercentage_range. lia.
  - intros r l Hr Hl Hne.
    assert (Hin : In (name r) (namesOf l repos)).
    { unfold namesOf. apply in_map. apply filter_In. split; [assumption|].
      rewrite Hl. apply String.eqb_refl. }
    specialize (Hget l). apply truthy_spec in Hne. rewrite Hne in Hget.
    destruct (namesOf l repos) as [|n ns] eqn:Hns; [destruct Hin|].
    apply get_In in Hget; [|apply String.eqb_eq].
    exists (languageEntry (len repos) (l, n :: ns)). split; [|split; [reflexivity|]].
    + apply sort_In. now apply in_map.
    + exact Hin.
  - apply Sorted_StronglySorted; [intros a b c; lia|].
    eapply Sorted_weaken with (P := fun _ => True) (R := fun a b => Js.keeps cmp a b = true).
    + intros a b _ _. unfold Js.keeps, cmp. rewrite Z.leb_le. lia.
    + apply List.Forall_forall. auto.
    + apply sort_Sorted. intros a b. unfold Js.keeps, cmp.
      rewrite Z.leb_gt, Z.leb_le. lia.
Qed.

(** ** The first entries of a sorted list *)

Lemma StronglySorted_cross {A} (R : A -> A -> Prop) (l1 l2 : list A) :
  StronglySorted R (l1 ++ l2) ->
  forall x y, In x l1 -> In y l2 -> R x y.
Proof.
  induction l1 as [|a t IH]; simpl; intros Hs x y Hx Hy; [destruct Hx|].
  inversion Hs as [|? ? Hs' Hall]; subst.
  destruct Hx as [<-|Hx].
  - rewrite List.Forall_forall in Hall. apply Hall. apply in_or_app. now right.
  - now apply IH.
Qed.

Lemma slice0_split {A} (stop : Z) (l : list A) :
  0 <= stop ->
  l = Js.slice0 stop l ++ skipn (Z.to_nat stop) l.
Proof. intros H. rewrite slice0_firstn by assumption. symmetry. apply firstn_skipn. Qed.

Section ByTime.
Context {A : Type} (t : A -> DateString).

Lemma by_time_total (a b : A) :
  Js.keeps (by_time_desc t) a b = false -> Js.keeps (by_time_desc t) b a = true.
Proof.
  unfold Js.keeps, by_time_desc, num_sub.
  destruct (getTime (t a)), (getTime (t b)); try discriminate.
  rewrite Z.leb_gt, Z.leb_le. lia.
Qed.

Lemma sort_by_time (l : list A) :
  Forall (fun a => parses (t a)) l ->
  StronglySorted (at_least_as_recent t) (Js.sort (by_time_desc t) l).
Proof.
  intros Hall. apply Sorted_StronglySorted.
  - intros a b c. unfold at_least_as_recent.
    destruct (getTime (t a)), (getTime (t b)), (getTime (t c)); try tauto. lia.
  - apply (Sorted_weaken (fun a b => Js.keeps (by_time_desc t) a b = true)
                         (at_least_as_recent t) (fun a => parses (t a))).
    + intros a b [x Ha] [y Hb]. unfold Js.keeps, by_time_desc, num_sub, at_least_as_recent.
      rewrite Ha, Hb. simpl. rewrite Z.leb_le. lia.
    + now rewrite sort_perm.
    + apply sort_Sorted, by_time_total.
Qed.
End ByTime.

(** X10: [recently_updated] holds the first five repositories (or all, when
    there are fewer) of the listing ordered by last update, newest first: its
    entries are repositories of the listing, and, when the update times parse,
    they are in descending order of time and no repository left out is more
    recent than one that is shown. *)
Theorem recently_updated_top_five (repos : list RepositoryMetadata) :
  let top := recently_updated (repositoryStats repos) in
  len top = Z.min 5 (len repos) /\
  (exists rest, Permutation (top ++ rest) repos /\
     (Forall (fun r => parses (last_updated r)) repos ->
      StronglySorted (at_least_as_recent last_updated) top /\
      forall x y, In x top -> In y rest -> at_least_as_recent last_updated x y)).
Proof.
  cbn zeta. cbn [recently_updated repositoryStats]. unfold recentlyUpdated.
  set (sorted := Js.sort (by_time_desc last_updated) repos).
  split.
  - rewrite slice0_firstn by lia. unfold len. rewrite length_firstn.
    unfold sorted. rewrite sort_length. lia.
  - exists (skipn (Z.to_nat 5) sorted). split.
    + rewrite <- slice0_split by lia. apply sort_perm.
    + intros Hall. pose proof (sort_by_time last_updated repos Hall) as Hs.
      fold sorted in Hs. rewrite (slice0_split 5 sorted) in Hs by lia.
      split; [now apply StronglySorted_app_l in Hs|].
      now apply StronglySorted_cross.
Qed.

Lemma recently_updated_top_five_witness :
  Forall (fun r => parses (last_updated r)) [goA; goB; pyC] /\
  StronglySorted (at_least_as_recent last_updated)
    (recently_updated (repositoryStats [goA; goB; pyC])).
Proof.
  assert (H : Forall (fun r => parses (last_updated r)) [goA; goB; pyC])
    by (repeat constructor; now exists 0).
  split; [exact H|].
  destruct (proj2 (recently_updated_top_five [goA; goB; pyC])) as (rest & _ & Hs).
  exact (proj1 (Hs H)).
Defined.

(** ** Sorting and limiting the listing *)

Lemma sort_by_count_desc {A} (f : A -> Z) (l : list A) :
  StronglySorted (fun a b => f b <= f a) (Js.sort (fun a b => Some (f b - f a)) l).
Proof.
  apply Sorted_StronglySorted; [intros a b c; lia|].
  eapply Sorted_weaken with (P := fun _ => True)
    (R := fun a b => Js.keeps (fun a b => Some (f b - f a)) a b = true).
  - intros a b _ _. unfold Js.keeps. rewrite Z.leb_le. lia.
  - apply List.Forall_forall. auto.
  - apply sort_Sorted. intros a b. unfold Js.keeps. rewrite Z.leb_gt, Z.leb_le. lia.
Qed.


(** X11: [list_repositories] returns, on success, the listing in the order
    asked for, cut to its first [limit] entries when [limit] is positive and
    whole when [limit] is omitted, zero or negative.  Without [sort_by] the
    order of the listing is kept.  With [stars] or [forks] the listing is put
    in descending order of that count, with [updated] newest first (when the
    times parse), and the cut keeps its head: the result is in that order
    and no repository that is left out ranks before one that is shown. *)
Theorem list_repositories_sort_and_limit
        (config : ServerConfig) (octokit : Octokit)
        (localeCompare : string -> string -> Z) (fuel : nat)
        (args : ListRepositoriesArgs) (w : World)
        (env : ToolResult (list RepositoryMetadata)) (w' : World) :
  tool_listRepositories config octokit localeCompare fuel args w = (Ok env, w') ->
  success env = true ->
  exists repos out rest,
    listRepositories config octokit fuel (default true (lr_use_cache args)) w
    = (Ok repos, w') /\
    data env = Some out /\
    Permutation (out ++ rest) repos /\
    (forall r, In r out -> In r repos) /\
    len out = match lr_limit args with
              | Some n => if 0 <? n then Z.min n (len repos) else len repos
              | None => len repos
              end /\
    (lr_sort_by args = None -> repos = out ++ rest) /\
    (lr_sort_by args = Some ByStars ->
     StronglySorted (fun a b => stars b <= stars a) (out ++ rest) /\
     StronglySorted (fun a b => stars b <= stars a) out /\
     forall a b, In a out -> In b rest -> stars b <= stars a) /\
    (lr_sort_by args = Some ByForks ->
     StronglySorted (fun a b => forks b <= forks a) (out ++ rest) /\
     StronglySorted (fun a b => forks b <= forks a) out /\
     forall a b, In a out -> In b rest -> forks b <= forks a) /\
    (lr_sort_by args = Some ByUpdated ->
     Forall (fun r => parses (last_updated r)) repos ->
     StronglySorted (at_least_as_recent last_updated) (out ++ rest) /\
     StronglySorted (at_least_as_recent last_updated) out /\
     forall a b, In a out -> In b rest -> at_least_as_recent last_updated a b).
Proof.
  rewrite tool_listRepositories_run.
  destruct (listRepositories config octokit fuel _ w) as [[repos|e|] w1];
    intros [= <- <-]; [|discriminate]. intros _.
  set (sorted := match lr_sort_by args with
                 | Some sort_by => Js.sort (listCompare localeCompare sort_by) repos
                 | None => repos
                 end).
  set (rest := match lr_limit args with
               | Some limit => if 0 <? limit then skipn (Z.to_nat limit) sorted else []
               | None => []
               end).
  exists repos, (listPostprocess localeCompare args repos), rest.
  split; [reflexivity|]. split; [reflexivity|].
  unfold listPostprocess. fold sorted.
  set (out := match lr_limit args with
              | Some limit => if 0 <? limit then Js.slice0 limit sorted else sorted
              | None => sorted
              end).
  assert (Hperm : Permutation sorted repos).
  { unfold sorted. destruct (lr_sort_by args); [apply sort_perm | reflexivity]. }
  assert (Hsplit : out ++ rest = sorted).
  { unfold out, rest. destruct (lr_limit args) as [n|]; [|apply app_nil_r].
    destruct (Z.ltb_spec 0 n); [|apply app_nil_r].
    symmetry. apply slice0_split. lia. }
  assert (Hhead : forall (R : RepositoryMetadata -> RepositoryMetadata -> Prop),
            StronglySorted R sorted ->
            StronglySorted R (out ++ rest) /\ StronglySorted R out /\
            forall a b, In a out -> In b rest -> R a b).
  { intros R Hs. rewrite <- Hsplit in Hs. split; [assumption|].
    split; [now apply StronglySorted_app_l in Hs|].
    intros a b. now apply StronglySorted_cross. }
  split; [now rewrite Hsplit|]. split; [|split; [|split; [|split; [|split]]]].
  - intros r Hin. apply (Permutation_in _ Hperm). rewrite <- Hsplit.
    apply in_or_app. now left.
  - assert (Hlen : len sorted = len repos)
      by (unfold len; now rewrite (Permutation_length Hperm)).
    unfold out. destruct (lr_limit args) as [n|]; [|assumption].
    destruct (Z.ltb_spec 0 n); [|assumption].
    rewrite slice0_len by lia. now rewrite Hlen.
  - intros Hnone. rewrite Hsplit. unfold sorted. now rewrite Hnone.
  - intros Hs. apply Hhead. unfold sorted. rewrite Hs.
    apply (sort_by_count_desc stars).
  - intros Hs. apply Hhead. unfold sorted. rewrite Hs.
    apply (sort_by_count_desc forks).
  - intros Hs Hall. apply Hhead. unfold sorted. rewrite Hs.
    now apply (sort_by_time last_updated).
Qed.

Lemma list_repositories_sort_and_limit_witness :
  exists env w',
    tool_listRepositories sampleConfig sampleOctokit (fun _ _ => 0) 3
      (listArgs (Some ByStars) (Some 1)) emptyWorld = (Ok env, w') /\
    exists repos out rest : list RepositoryMetadata,
      data env = Some out /\ len repos = 2 /\ len out = 1 /\
      Permutation (out ++ rest) repos /\
      forall a b, In a out -> In b rest -> stars b <= stars a.
Proof.
  eexists _, _. split; [vm_compute; reflexivity|].
  edestruct (list_repositories_sort_and_limit sampleConfig sampleOctokit (fun _ _ => 0)
               3%nat (listArgs (Some ByStars) (Some 1)) emptyWorld)
    as (repos & out & rest & Hrun & Hdata & Hperm & _ & Hlen & _ & Hstars & _);
    [vm_compute; reflexivity | reflexivity |].
  assert (Hrepos : len repos = 2).
  { clear -Hrun. vm_compute in Hrun. injection Hrun as <-. reflexivity. }
  exists repos, out, rest. split; [exact Hdata|].
  split; [exact Hrepos|]. split; [|split; [exact Hperm | exact (proj2 (proj2 (Hstars eq_refl)))]].
  rewrite Hlen, Hrepos. reflexivity.
Defined.

(** ** The activity sample *)

Lemma filter_from_length {A} (p : A -> Z -> list A -> bool) (self : list A) (i : Z)
      (l : list A) :
  (length (Js.filter_from p self i l) <= length l)%nat.
Proof.
  revert i. induction l as [|x t IH]; intros i; simpl; [lia|].
  specialize (IH (i + 1)). destruct (p x i self); simpl; lia.
Qed.

Lemma streakDates_length (days : list CalendarDate) :
  len (streakDates days) <= len days.
Proof.
  unfold streakDates, len. rewrite sort_length.
  pose proof (filter_from_length first_occurrence days 0 days). unfold Js.filter_indexed. lia.
Qed.

Lemma leadingRun_upper (dates : list CalendarDate) :
  leadingRun dates <= Z.max 0 (len dates - 1).
Proof.
  unfold len. induction dates as [|a [|b t] IH].
  - simpl. lia.
  - simpl. lia.
  - rewrite leadingRun_cons2. destruct (a - b =? 1); simpl length in *; lia.
Qed.

Lemma len_concat_bounded {A B} (f : A -> list B) (l : list A) (k : Z) :
  (forall x, len (f x) <= k) ->
  len (concat (map f l)) <= k * len l.
Proof.
  intros H. unfold len in *. induction l as [|x t IH]; simpl; [lia|].
  rewrite length_app. specialize (H x). lia.
Qed.

Lemma size_list_to_set_le (l : list string) :
  (size (list_to_set l : gset string) <= length l)%nat.
Proof.
  induction l as [|x t IH].
  - rewrite list_to_set_nil, size_empty. simpl. lia.
  - rewrite list_to_set_cons, size_union_alt, size_singleton. simpl length.
    assert (size (list_to_set t ∖ {[x]} : gset string) <= size (list_to_set t : gset string))%nat
      by (apply subseteq_size; set_solver).
    lia.
Qed.

Lemma distinct_count_bounded (l names : list string) :
  (forall x, In x l -> In x names) ->
  distinct_count l <= len names.
Proof.
  intros Hsub. unfold distinct_count, len.
  assert (size (list_to_set l : gset string) <= size (list_to_set names : gset string))%nat.
  { apply subseteq_size. intros x. rewrite !elem_of_list_to_set, !list_elem_of_In.
    apply Hsub. }
  pose proof (size_list_to_set_le names). lia.
Qed.

Lemma commitsOf_repository (config : ServerConfig) (octokit : Octokit)
      (repo : RepositoryMetadata) (c : CommitMetadata) :
  In c (commitsOf config octokit repo) -> repository c = name repo.
Proof.
  unfold commitsOf. destruct (api_listCommits octokit _ _ _ _); [|intros []].
  intros Hin. apply in_map_iff in Hin as [x [<- _]]. reflexivity.
Qed.

(** X12: the activity is computed from at most 50 commits, not 100: the sample
    asks for 100 but only the first 10 repositories are read, 5 commits each
    (for a remote that honours [per_page]). On a fresh computation
    [total_commits] is at most 50, [repositories_contributed_to] at most 10,
    the streak is 0 exactly when there is no commit and otherwise between 1
    and the number of commits, and the three unsupported counters are 0. *)
Theorem activity_sample_bounds
        (config : ServerConfig) (octokit : Octokit) (fuel : nat)
        (useCache : bool) (w : World) (repos : list RepositoryMetadata) (w2 : World)
        (activity : ContributionActivity) (w' : World) :
  misses useCache (activityKey config) read_activity w ->
  misses useCache (allCommitsKey config 100) read_commits
         (after_check useCache (activityKey config) w) ->
  listRepositories config octokit fuel useCache
    (after_check useCache (allCommitsKey config 100)
       (after_check useCache (activityKey config) w)) = (Ok repos, w2) ->
  (forall r response,
     api_listCommits octokit (username config) (name r) 5 (username config)
     = Resolved response -> len response <= 5) ->
  getContributionActivity config octokit fuel useCache w = (Ok activity, w') ->
  0 <= total_commits activity <= 50 /\
  0 <= repositories_contributed_to activity <= 10 /\
  (contribution_streak activity = 0 <-> total_commits activity = 0) /\
  (0 < total_commits activity ->
   1 <= contribution_streak activity <= total_commits activity) /\
  total_prs activity = 0 /\ total_issues activity = 0 /\ total_reviews activity = 0.
Proof.
  intros Hact Hcom Hlist Hper.
  pose proof (getRecentCommits_all_run config octokit fuel None 100 useCache _
                repos w2 eq_refl Hcom Hlist) as Hrun.
  cbv zeta in Hrun. rewrite (slice0_firstn 10 repos) in Hrun by lia.
  change (Z.to_nat 10) with 10%nat in Hrun.
  set (touched := firstn 10 repos) in *.
  set (merged := concat (map (commitsOf config octokit) touched)) in *.
  set (commits := Js.slice0 100 (Js.sort (by_time_desc date) merged)) in *.
  assert (Htouched : len touched <= 10).
  { unfold touched, len. rewrite length_firstn. lia. }
  assert (Hmerged : len merged <= 50).
  { pose proof (len_concat_bounded (commitsOf config octokit) touched 5) as H.
    assert (Hfive : forall x, len (commitsOf config octokit x) <= 5).
    { intros x. unfold commitsOf.
      destruct (api_listCommits octokit _ _ _ _) eqn:E.
      - unfold len. rewrite length_map. now apply (Hper x).
      - unfold len. simpl. lia. }
    specialize (H Hfive). fold merged in H. lia. }
  assert (Hlen : 0 <= len commits <= 50).
  { unfold commits. rewrite slice0_len by lia. unfold len at 1 2.
    rewrite sort_length. unfold len in Hmerged. lia. }
  assert (Hrepos : distinct_count (map repository commits) <= 10).
  { etransitivity; [|exact Htouched].
    replace (len touched) with (len (map name touched))
      by (unfold len; now rewrite length_map).
    apply distinct_count_bounded. intros x Hin.
    apply in_map_iff in Hin as [c [<- Hc]].
    apply slice0_In, sort_In in Hc. apply in_concat in Hc as [cs [Hcs Hc]].
    apply in_map_iff in Hcs as [repo [<- Hrepo]].
    rewrite (commitsOf_repository _ _ _ _ Hc). now apply in_map. }
  assert (Hdc : 0 <= distinct_count (map repository commits))
    by (unfold distinct_count; lia).
  clearbody commits. clear Hmerged Htouched. clearbody merged touched.
  unfold getContributionActivity. fold (activityKey config).
  rewrite cached_or_miss by exact Hact.
  unfold try_catch. rewrite (bind_Ok _ _ _ _ _ Hrun).
  unfold bind, lift, cache_set, ret, throw.
  destruct (findMostActiveDay commits) as [day|e|] eqn:Hday; try discriminate.
  destruct (calculateStreak commits) as [streak|e|] eqn:Hstreak; try discriminate.
  intros [= <- <-].
  cbn [total_commits total_prs total_issues total_reviews
       repositories_contributed_to contribution_streak].
  assert (Hstreak' : (len commits = 0 /\ streak = 0) \/
                     (0 < len commits /\ 1 <= streak <= len commits)).
  { destruct commits as [|c cs].
    - left. split; [reflexivity|].
      change (calculateStreak []) with (@Ok Z 0) in Hstreak. congruence.
    - right. assert (Hpos : 1 <= len (c :: cs)) by (unfold len; simpl; lia).
      split; [lia|].
      destruct (findMostActiveDay_guards _ _ Hday) as [instants Hd].
      rewrite (calculateStreak_valid (c :: cs) instants) in Hstreak
        by (discriminate || assumption).
      injection Hstreak as <-.
      pose proof (leadingRun_nonneg (streakDates (daysOf instants))).
      pose proof (leadingRun_upper (streakDates (daysOf instants))).
      pose proof (streakDates_length (daysOf instants)).
      assert (len (daysOf instants) = len (c :: cs)).
      { unfold len, daysOf. rewrite length_map.
        rewrite <- (length_map Instant), <- Hd. now rewrite length_map. }
      lia. }
  repeat split; lia.
Qed.

Lemma activity_sample_bounds_witness :
  exists activity w',
    getContributionActivity sampleConfig sampleOctokit 3 true emptyWorld
    = (Ok activity, w') /\
    0 <= total_commits activity <= 50 /\
    0 <= repositories_contributed_to activity <= 10.
Proof.
  eexists _, _. split; [vm_compute; reflexivity|].
  edestruct (activity_sample_bounds sampleConfig sampleOctokit 3%nat true emptyWorld)
    as (H1 & H2 & _);
    [ intros _; reflexivity
    | intros _; reflexivity
    | vm_compute; reflexivity
    | intros r response; cbn; destruct (String.eqb (name r) "a");
      [intros [= <-]; vm_compute; discriminate | discriminate]
    | vm_compute; reflexivity
    | split; [exact H1 | exact H2] ].
Defined.

(** ** The most active day *)

Lemma occurrences_snoc (d x : CalendarDate) (p : list CalendarDate) :
  occurrences d (p ++ [x]) = occurrences d p + (if Z.eq_dec x d then 1 else 0).
Proof.
  unfold occurrences. rewrite count_occ_app. simpl.
  destruct (Z.eq_dec x d); lia.
Qed.

Lemma occurrences_zero (d : CalendarDate) (p : list CalendarDate) :
  occurrences d p = 0 <-> ~ In d p.
Proof.
  unfold occurrences. rewrite (count_occ_not_In Z.eq_dec). lia.
Qed.

Lemma Z_eqb_spec_iff (a b : Z) : (a =? b) = true <-> a = b.
Proof. apply Z.eqb_eq. Qed.

Lemma dayCount_snoc (p : list CalendarDate) (x : CalendarDate) :
  dayCount (p ++ [x]) = dayCount_step (dayCount p) x.
Proof. unfold dayCount. now rewrite fold_left_app. Qed.

(** The tally holds one entry per day, with its number of commits, in the
    order in which the days first appear in the sample. *)
Lemma dayCount_inv (days : list CalendarDate) :
  List.NoDup (map fst (dayCount days)) /\
  (forall d, JsMap.get Z.eqb d (dayCount days) =
             if occurrences d days =? 0 then None else Some (occurrences d days)) /\
  (forall ks1 d ks2,
     map fst (dayCount days) = ks1 ++ d :: ks2 ->
     exists pre post,
       days = pre ++ d :: post /\ ~ In d pre /\ (forall x, In x pre -> In x ks1)).
Proof.
  induction days as [|x p IH] using rev_ind.
  - split; [constructor|]. split; [reflexivity|].
    intros ks1 d ks2 H. destruct ks1; discriminate.
  - destruct IH as (Hnd & Hget & Hord). rewrite dayCount_snoc. unfold dayCount_step.
    assert (Hval : Js.or_zero (JsMap.get Z.eqb x (dayCount p)) + 1
                   = occurrences x (p ++ [x])).
    { rewrite Hget, occurrences_snoc.
      destruct (Z.eq_dec x x); [|congruence].
      destruct (Z.eqb_spec (occurrences x p) 0) as [->|Hne]; [reflexivity|].
      cbn. now replace (occurrences x p =? 0) with false
        by (symmetry; now apply Z.eqb_neq). }
    rewrite Hval.
    split; [now apply keys_set_NoDup; [apply Z.eqb_eq|]|]. split.
    + intros d. destruct (Z.eq_dec d x) as [->|Hne].
      * rewrite get_set_eq by apply Z.eqb_eq.
        replace (occurrences x (p ++ [x]) =? 0) with false; [reflexivity|].
        symmetry. apply Z.eqb_neq. rewrite occurrences_snoc.
        destruct (Z.eq_dec x x); [|congruence]. unfold occurrences. lia.
      * rewrite get_set_ne by (apply Z.eqb_eq || assumption).
        rewrite Hget, occurrences_snoc.
        destruct (Z.eq_dec x d); [congruence|]. now rewrite Z.add_0_r.
    + intros ks1 d ks2. rewrite keys_set by apply Z.eqb_eq.
      destruct (JsMap.get Z.eqb x (dayCount p)) as [c|] eqn:Hx.
      * intros Hks. destruct (Hord ks1 d ks2 Hks) as (pre & post & -> & Hn & Hsub).
        exists pre, (post ++ [x]). split; [now rewrite <- app_assoc|]. auto.
      * intros Hks.
        assert (Hxp : ~ In x p).
        { apply occurrences_zero. specialize (Hget x). rewrite Hx in Hget.
          destruct (Z.eqb_spec (occurrences x p) 0); [assumption | discriminate]. }
        destruct ks2 as [|k ks2'] using rev_ind.
        -- apply app_inj_tail in Hks as [Hks <-].
           exists p, []. split; [reflexivity|]. split; [assumption|].
           intros y Hy. rewrite <- Hks.
           assert (Hocc : occurrences y p <> 0) by (rewrite occurrences_zero; tauto).
           specialize (Hget y).
           replace (occurrences y p =? 0) with false in Hget
             by (symmetry; now apply Z.eqb_neq).
           apply get_In in Hget; [|apply Z.eqb_eq].
           apply in_map_iff. now exists (y, occurrences y p).
        -- clear IHks2'. rewrite app_comm_cons, app_assoc in Hks.
           apply app_inj_tail in Hks as [Hks _].
           destruct (Hord ks1 d ks2' Hks) as (pre & post & -> & Hn & Hsub).
           exists pre, (post ++ [x]). split; [now rewrite <- app_assoc|]. auto.
Qed.

(** The scan of the tally keeps the first entry with the largest count. *)
Lemma maxDay_first_max (m : list (CalendarDate * Z)) :
  Forall (fun e => 1 <= snd e) m ->
  m <> [] ->
  exists m1 d c m2,
    m = m1 ++ (d, c) :: m2 /\
    fold_left maxDay_step m (None, 0) = (Some d, c) /\
    (forall e, In e m1 -> snd e < c) /\
    (forall e, In e m2 -> snd e <= c).
Proof.
  induction m as [|[k v] l IH] using rev_ind; [congruence|].
  intros Hall _. apply List.Forall_app in Hall as [Hall Hkv].
  inversion Hkv as [|? ? Hv _]; subst. cbn [snd] in Hv.
  rewrite fold_left_app. cbn [fold_left].
  destruct l as [|e0 l0] eqn:El.
  - exists [], k, v, []. cbn. unfold maxDay_step. cbn.
    replace (0 <? v) with true by (symmetry; apply Z.ltb_lt; lia).
    repeat split; intros e [].
  - rewrite <- El in *. assert (Hne : l <> []) by (rewrite El; discriminate).
    destruct (IH Hall Hne) as (m1 & d & c & m2 & Hm & Hfold & H1 & H2).
    rewrite Hfold. unfold maxDay_step. cbn [fst snd].
    destruct (Z.ltb_spec c v).
    + exists l, k, v, []. split; [reflexivity|]. split; [reflexivity|].
      split; [|intros e []].
      intros e He. rewrite Hm in He. apply in_app_or in He as [He|[<-|He]].
      * specialize (H1 e He). lia.
      * cbn. lia.
      * specialize (H2 e He). lia.
    + exists m1, d, c, (m2 ++ [(k, v)]). split; [now rewrite Hm, <- app_assoc|].
      split; [reflexivity|]. split; [assumption|].
      intros e He. apply in_app_or in He as [He|[<-|[]]]; [now apply H2 | cbn; lia].
Qed.

(** X13: [findMostActiveDay] answers 'N/A' for the empty sample; otherwise it
    answers a day of the sample with the largest number of commits, and among
    the days with that number the one that appears first in the sample: every
    day first seen before it has strictly fewer commits. *)
Theorem findMostActiveDay_first_busiest :
  findMostActiveDay [] = Ok (inl "N/A") /\
  forall commits instants,
    commits <> [] ->
    map date commits = map Instant instants ->
    let days := daysOf instants in
    exists d pre post,
      findMostActiveDay commits = Ok (inr d) /\
      days = pre ++ d :: post /\ ~ In d pre /\
      (forall x, occurrences x days <= occurrences d days) /\
      (forall x, In x pre -> occurrences x days < occurrences d days).
Proof.
  split; [reflexivity|]. intros commits instants Hne Hd. cbv zeta.
  unfold findMostActiveDay.
  destruct commits as [|c0 cs]; [congruence|].
  replace (len (c0 :: cs) =? 0) with false
    by (symmetry; apply Z.eqb_neq; unfold len; simpl; lia).
  rewrite (omap_dates _ _ Hd). cbn [obind].
  set (days := daysOf instants). fold (dayCount days).
  destruct (dayCount_inv days) as (Hnd & Hget & Hord).
  assert (Hentries : forall k v, In (k, v) (dayCount days) ->
                                 v = occurrences k days /\ 1 <= v).
  { intros k v Hin. apply (In_get Z.eqb Z.eqb_eq) in Hin; [|assumption].
    rewrite Hget in Hin. destruct (Z.eqb_spec (occurrences k days) 0); [discriminate|].
    injection Hin as <-. split; [reflexivity|]. unfold occurrences in *. lia. }
  assert (Hkey : forall x, In x days -> In (x, occurrences x days) (dayCount days)).
  { intros x Hx. apply (get_In Z.eqb Z.eqb_eq). rewrite Hget.
    assert (occurrences x days <> 0) by (rewrite occurrences_zero; tauto).
    now replace (occurrences x days =? 0) with false by (symmetry; now apply Z.eqb_neq). }
  assert (Hdays : days <> []).
  { unfold days, daysOf. destruct instants; [discriminate Hd | discriminate]. }
  assert (Hmne : dayCount days <> []).
  { destruct days as [|x t]; [congruence|]. intros Hnil.
    pose proof (Hkey x (or_introl eq_refl)) as Hin. rewrite Hnil in Hin. destruct Hin. }
  destruct (maxDay_first_max (dayCount days)) as (m1 & d & c & m2 & Hm & Hfold & H1 & H2).
  { apply List.Forall_forall. intros [k v] Hin. exact (proj2 (Hentries k v Hin)). }
  { assumption. }
  rewrite Hfold. cbn [fst].
  destruct (Hentries d c) as [Hc _]; [rewrite Hm; apply in_or_app; right; now left|].
  destruct (Hord (map fst m1) d (map fst m2)) as (pre & post & Hsplit & Hnotin & Hsub).
  { rewrite Hm, map_app. reflexivity. }
  exists d, pre, post. split; [reflexivity|]. split; [assumption|]. split; [assumption|].
  split.
  - intros x. destruct (in_dec Z.eq_dec x days) as [Hx|Hx].
    + pose proof (Hkey x Hx) as Hin. rewrite Hm in Hin.
      apply in_app_or in Hin as [Hin|[Heq|Hin]].
      * specialize (H1 _ Hin). cbn in H1. lia.
      * injection Heq as <- <-. lia.
      * specialize (H2 _ Hin). cbn in H2. lia.
    + apply occurrences_zero in Hx. rewrite Hx. unfold occurrences. lia.
  - intros x Hx. specialize (Hsub x Hx). apply in_map_iff in Hsub as [[k v] [Hk Hin]].
    cbn in Hk. subst k.
    destruct (Hentries x v) as [-> _]; [rewrite Hm; apply in_or_app; now left|].
    specialize (H1 _ Hin). cbn in H1. lia.
Qed.

Lemma findMostActiveDay_first_busiest_witness :
  exists d pre post,
    findMostActiveDay [sampleCommit (Instant 172800000); sampleCommit (Instant 0);
                       sampleCommit (Instant 5)] = Ok (inr d) /\
    daysOf [172800000; 0; 5] = pre ++ d :: post /\ ~ In d pre.
Proof.
  destruct (proj2 findMostActiveDay_first_busiest
              [sampleCommit (Instant 172800000); sampleCommit (Instant 0);
               sampleCommit (Instant 5)]
              [172800000; 0; 5])
    as (d & pre & post & H1 & H2 & H3 & _).
  - discriminate.
  - reflexivity.
  - exists d, pre, post. auto.
Defined.

(** ** Argument checks *)

(** X14: [get_repository_details] with an empty repository name answers the
    failure envelope with the message 'repository_name is required' at once:
    the cache is not read, no request is sent and the world is unchanged. *)
Theorem details_requires_repository_name
        (config : ServerConfig) (octokit : Octokit) (decodeBase64 : string -> string)
        (args : GetRepositoryDetailsArgs) (w : World) :
  rd_repository_name args = "" ->
  tool_getRepositoryDetails config octokit decodeBase64 args w =
  (Ok {| success := false; data := None;
         error := Some {| er_error := "GET_REPOSITORY_DETAILS_ERROR";
                          er_message :=
                            "Failed to get repository details: repository_name is required";
                          er_timestamp := clock w |};
         cached := None; timestamp := clock w |}, w).
Proof.
  intros Hname. unfold tool_getRepositoryDetails. rewrite Hname. reflexivity.
Qed.

Lemma details_requires_repository_name_witness :
  fst (tool_getRepositoryDetails sampleConfig sampleOctokit (fun s => s)
         (detailsArgs "") emptyWorld) =
  Ok {| success := false; data := None;
        error := Some {| er_error := "GET_REPOSITORY_DETAILS_ERROR";
                         er_message :=
                           "Failed to get repository details: repository_name is required";
                         er_timestamp := 1000 |};
        cached := None; timestamp := 1000 |}.
Proof.
  rewrite (details_requires_repository_name sampleConfig sampleOctokit (fun s => s)
             (detailsArgs "") emptyWorld eq_refl).
  reflexivity.
Defined.

(** ** Strings *)

Lemma substring_length (m : nat) (s : string) :
  String.length (String.substring 0 m s) = Nat.min m (String.length s).
Proof.
  revert m. induction s as [|c t IH]; intros [|m]; simpl; try reflexivity.
  now rewrite IH.
Qed.

Lemma string_length_append (a b : string) :
  String.length (a +:+ b) = (String.length a + String.length b)%nat.
Proof. induction a as [|c t IH]; simpl; [reflexivity | now rewrite IH]. Qed.

Lemma substring_prefix (m : nat) (s : string) :
  exists rest, s = String.substring 0 m s +:+ rest.
Proof.
  revert m. induction s as [|c t IH]; intros [|m]; simpl.
  - now exists "".
  - now exists "".
  - now exists (String c t).
  - destruct (IH m) as [rest H]. exists rest.
    change (String c t = String c (String.substring 0 m t +:+ rest)). now f_equal.
Qed.

(** X15: [truncateString] returns a string of at most [maxLength] code units
    unchanged; a longer one is cut to a prefix of [maxLength - 3] followed by
    '...', so the result has exactly [maxLength] code units when
    [maxLength >= 3]; when [maxLength < 3] the result is '...', which is
    longer than asked. *)
Theorem truncateString_length (str : string) (maxLength : Z) :
  let out := truncateString str maxLength in
  let n := Z.of_nat (String.length str) in
  (n <= maxLength -> out = str) /\
  (maxLength < n -> 3 <= maxLength ->
   Z.of_nat (String.length out) = maxLength /\
   exists kept rest, str = kept +:+ rest /\ out = kept +:+ "..." /\
                     Z.of_nat (String.length kept) = maxLength - 3) /\
  (maxLength < n -> maxLength < 3 -> out = "...").
Proof.
  cbv zeta. unfold truncateString, substring0. repeat split.
  - intros H. now replace (_ <=? maxLength) with true by (symmetry; apply Z.leb_le; lia).
  - replace (_ <=? maxLength) with false by (symmetry; apply Z.leb_gt; lia).
    rewrite string_length_append, substring_length. simpl. lia.
  - replace (_ <=? maxLength) with false by (symmetry; apply Z.leb_gt; lia).
    destruct (substring_prefix
                (Z.to_nat (Z.max 0 (Z.min (maxLength - 3) (Z.of_nat (String.length str)))))
                str) as [rest Hrest].
    eexists _, rest. split; [exact Hrest|]. split; [reflexivity|].
    rewrite substring_length. lia.
  - intros H1 H2.
    replace (_ <=? maxLength) with false by (symmetry; apply Z.leb_gt; lia).
    replace (Z.max 0 (Z.min (maxLength - 3) (Z.of_nat (String.length str)))) with 0 by lia.
    now destruct str.
Qed.

Lemma truncateString_length_witness :
  Z.of_nat (String.length (truncateString "contribution" 8)) = 8 /\
  truncateString "contribution" 2 = "...".
Proof.
  split.
  - apply (proj1 (proj2 (truncateString_length "contribution" 8))); simpl; lia.
  - apply (proj2 (proj2 (truncateString_length "contribution" 2))); simpl; lia.
Defined.

Lemma split_on_nonempty (sep : ascii) (s : string) : split_on sep s <> [].
Proof.
  destruct s as [|c t]; simpl; [discriminate|].
  destruct (Ascii.eqb c sep); [discriminate|].
  destruct (split_on sep t); discriminate.
Qed.

Lemma split_on_plain (sep : ascii) (s : string) :
  contains_char sep s = false -> split_on sep s = [s].
Proof.
  induction s as [|c t IH]; simpl; [reflexivity|].
  destruct (Ascii.eqb c sep); simpl; [discriminate|].
  intros H. now rewrite (IH H).
Qed.

Lemma split_on_append (sep : ascii) (a b : string) :
  contains_char sep a = false ->
  split_on sep (a +:+ String sep b) = a :: split_on sep b.
Proof.
  induction a as [|c t IH]; simpl.
  - intros _. now rewrite Ascii.eqb_refl.
  - destruct (Ascii.eqb c sep); simpl; [discriminate|].
    intros H. now rewrite (IH H).
Qed.

Lemma split_on_pieces (sep : ascii) (s : string) :
  Forall (fun piece => contains_char sep piece = false) (split_on sep s).
Proof.
  induction s as [|c t IH]; simpl.
  - repeat constructor.
  - destruct (Ascii.eqb c sep) eqn:E.
    + constructor; [reflexivity | assumption].
    + destruct (split_on sep t) as [|h r]; [repeat constructor; simpl; now rewrite E|].
      inversion IH; subst. constructor; [|assumption]. simpl. now rewrite E.
Qed.

(** X16: [parseRepoFullName] splits at the slashes and keeps the first two
    pieces: 'owner/repo' gives back the two names when neither holds a slash,
    whatever follows a second slash is dropped, a name without a slash leaves
    [repo] undefined, and neither piece ever holds a slash. *)
Theorem parseRepoFullName_round_trip :
  (forall owner repo,
     contains_char "/" owner = false -> contains_char "/" repo = false ->
     parseRepoFullName (owner +:+ "/" +:+ repo) = mkRepoFullName owner (Some repo)) /\
  (forall owner repo extra,
     contains_char "/" owner = false -> contains_char "/" repo = false ->
     parseRepoFullName (owner +:+ "/" +:+ repo +:+ "/" +:+ extra)
     = mkRepoFullName owner (Some repo)) /\
  (forall s, contains_char "/" s = false ->
     parseRepoFullName s = mkRepoFullName s None) /\
  (forall s, contains_char "/" (rfn_owner (parseRepoFullName s)) = false /\
             forall repo, rfn_repo (parseRepoFullName s) = Some repo ->
                          contains_char "/" repo = false).
Proof.
  repeat split.
  - intros owner repo Ho Hr. unfold parseRepoFullName.
    change (owner +:+ "/" +:+ repo) with (owner +:+ String "/" repo).
    rewrite split_on_append by assumption. now rewrite split_on_plain.
  - intros owner repo extra Ho Hr. unfold parseRepoFullName.
    change (owner +:+ "/" +:+ repo +:+ "/" +:+ extra)
      with (owner +:+ String "/" (repo +:+ String "/" extra)).
    rewrite split_on_append by assumption. now rewrite split_on_append.
  - intros s Hs. unfold parseRepoFullName. now rewrite split_on_plain.
  - unfold parseRepoFullName. pose proof (split_on_pieces "/" s) as H.
    destruct (split_on "/" s) as [|o [|r rest]]; [reflexivity| |];
      inversion H; subst; assumption.
  - intros repo. unfold parseRepoFullName. pose proof (split_on_pieces "/" s) as H.
    destruct (split_on "/" s) as [|o [|r rest]]; try discriminate.
    intros [= <-]. inversion H as [|? ? _ H']; subst. now inversion H'.
Qed.

Lemma parseRepoFullName_round_trip_witness :
  contains_char "/" "octocat" = false /\ contains_char "/" "hello-world" = false /\
  parseRepoFullName "octocat/hello-world" = mkRepoFullName "octocat" (Some "hello-world").
Proof.
  split; [reflexivity|]. split; [reflexivity|].
  exact (proj1 parseRepoFullName_round_trip "octocat" "hello-world" eq_refl eq_refl).
Defined.

(** * The skills matrix *)

Lemma namesWhere_snoc (p : RepositoryMetadata -> bool) (l : list RepositoryMetadata)
      (r : RepositoryMetadata) :
  namesWhere p (l ++ [r]) = namesWhere p l ++ (if p r then [name r] else []).
Proof.
  unfold namesWhere. rewrite List.filter_app, map_app. simpl.
  now destruct (p r).
Qed.

Lemma namesWhere_In (p : RepositoryMetadata -> bool) (l : list RepositoryMetadata)
      (n : string) :
  In n (namesWhere p l) <-> exists r, In r l /\ p r = true /\ name r = n.
Proof.
  unfold namesWhere. rewrite in_map_iff. split.
  - intros (r & Hn & Hr). apply List.filter_In in Hr. exists r. tauto.
  - intros (r & Hr & Hp & Hn). exists r. rewrite List.filter_In. tauto.
Qed.

Lemma namesWhere_length (p : RepositoryMetadata -> bool) (l : list RepositoryMetadata) :
  len (namesWhere p l) <= len l.
Proof.
  unfold namesWhere, len. rewrite length_map.
  pose proof (List.filter_length_le p l). lia.
Qed.

(** The object built by lines 50-84: its eight keys in the order of the
    literal, each of the first six with the names of the repositories that
    meet its rule, the last two empty. *)
Lemma domainMapping_spec (repos : list RepositoryMetadata) :
  domainMapping repos
  = [("DevOps & CI/CD", namesWhere is_devops repos);
     ("Web Development", namesWhere is_web repos);
     ("AI & Machine Learning", namesWhere is_ai repos);
     ("Mobile Development", namesWhere is_mobile repos);
     ("Cloud & Infrastructure", namesWhere is_cloud repos);
     ("Microservices", namesWhere is_microservices repos);
     ("IoT & Embedded", []); ("Data Science", [])].
Proof.
  unfold domainMapping.
  induction repos as [|r l IH] using rev_ind; [reflexivity|].
  rewrite fold_left_app. simpl. rewrite IH. rewrite !namesWhere_snoc.
  unfold domainMapping_step.
  destruct (is_devops r), (is_web r), (is_ai r), (is_mobile r), (is_cloud r),
    (is_microservices r); cbn; rewrite ?app_nil_r; reflexivity.
Qed.

Lemma domainEntries_In (repos : list RepositoryMetadata) (d : DomainEntry) :
  In d (domainEntries (domainMapping repos)) <->
  exists k p, In (k, p) domainRules /\ namesWhere p repos <> [] /\
              d = mkDomainEntry k (Js.slice0 5 (namesWhere p repos))
                                (len (namesWhere p repos)).
Proof.
  unfold domainEntries. rewrite sort_In, in_map_iff. split.
  - intros ([k l] & <- & Hin). apply List.filter_In in Hin. destruct Hin as [Hin Hne].
    simpl in Hne. apply Z.ltb_lt in Hne.
    assert (Hl : l <> []) by (intros ->; unfold len in Hne; simpl in Hne; lia).
    rewrite domainMapping_spec in Hin. unfold domainRules. simpl in Hin.
    destruct Hin as [H|[H|[H|[H|[H|[H|[H|[H|[]]]]]]]]]; inversion H; subst;
      try congruence;
      eexists _, _; (split; [|split; [eassumption|reflexivity]]); simpl; tauto.
  - intros (k & p & Hin & Hne & ->).
    exists (k, namesWhere p repos). split; [reflexivity|].
    apply List.filter_In. split.
    + rewrite domainMapping_spec. unfold domainRules in Hin. simpl in Hin. simpl.
      destruct Hin as [H|[H|[H|[H|[H|[H|[]]]]]]]; inversion H; subst; tauto.
    + simpl. apply Z.ltb_lt. unfold len.
      destruct (namesWhere p repos); [congruence|simpl; lia].
Qed.

(** X17: the [domains] of the skills matrix.  An entry is listed exactly for
    each of the six classification rules that at least one repository meets;
    its [count] is the number of such repositories (so at least 1), its
    [projects] are the first five of their names in listing order.  The
    entries are in descending order of [count].  'IoT & Embedded' and
    'Data Science' never appear, no rule feeds them.  A repository whose
    lower-cased name contains 'ia' is enough for 'AI & Machine Learning' to
    be listed. *)
Theorem skills_matrix_domains (repos : list RepositoryMetadata) (stats : RepositoryStats) :
  let ds := domains (skillsMatrix repos stats) in
  (forall d, In d ds <->
     exists k p, In (k, p) domainRules /\ namesWhere p repos <> [] /\
                 d = mkDomainEntry k (Js.slice0 5 (namesWhere p repos))
                                   (len (namesWhere p repos))) /\
  StronglySorted (fun a b => domain_count b <= domain_count a) ds /\
  (forall d, In d ds ->
     1 <= domain_count d <= len repos /\
     len (domain_projects d) = Z.min 5 (domain_count d) /\
     domain d <> "IoT & Embedded" /\ domain d <> "Data Science") /\
  len ds <= 6 /\
  (forall r, In r repos -> Js.includes (Js.toLowerCase (name r)) "ia" = true ->
     exists d, In d ds /\ domain d = "AI & Machine Learning").
Proof.
  cbn zeta. change (domains (skillsMatrix repos stats))
    with (domainEntries (domainMapping repos)).
  split; [apply domainEntries_In|]. split; [apply sort_by_count_desc|].
  split; [|split].
  - intros d Hd. apply domainEntries_In in Hd.
    destruct Hd as (k & p & Hin & Hne & ->). cbn [domain_count domain_projects domain].
    split; [split|split].
    + unfold len. destruct (namesWhere p repos); [congruence|simpl; lia].
    + apply namesWhere_length.
    + apply slice0_len. lia.
    + unfold domainRules in Hin. simpl in Hin.
      destruct Hin as [H|[H|[H|[H|[H|[H|[]]]]]]]; inversion H; subst;
        split; discriminate.
  - unfold domainEntries, len. rewrite sort_length, length_map.
    rewrite domainMapping_spec.
    cbn [List.filter snd].
    change (0 <? Z.of_nat (length (@nil string))) with false. cbv iota.
    repeat match goal with
           | |- context [if ?c then _ else _] => destruct c
           end; cbn [length]; lia.
  - intros r Hr Hia.
    exists (mkDomainEntry "AI & Machine Learning" (Js.slice0 5 (namesWhere is_ai repos))
                          (len (namesWhere is_ai repos))).
    split; [|reflexivity]. apply domainEntries_In.
    exists "AI & Machine Learning", is_ai. split; [unfold domainRules; simpl; tauto|].
    split; [|reflexivity].
    assert (Hin : In (name r) (namesWhere is_ai repos)).
    { apply namesWhere_In. exists r. split; [assumption|]. split; [|reflexivity].
      unfold is_ai. rewrite Hia. now rewrite orb_true_r. }
    intros E. rewrite E in Hin. destruct Hin.
Qed.

Lemma skills_matrix_domains_witness :
  exists d, In d (domains (skillsMatrix [topicRepo "media-player" (Some "C") []]
                                        (repositoryStats [])))
            /\ domain d = "AI & Machine Learning".
Proof.
  apply (proj2 (proj2 (proj2 (proj2
           (skills_matrix_domains [topicRepo "media-player" (Some "C") []]
                                  (repositoryStats []))))))
    with (r := topicRepo "media-player" (Some "C") []).
  - left. reflexivity.
  - vm_compute. reflexivity.
Defined.

Lemma languageProficiency_tiers (n : Z) :
  languageProficiency n <> Beginner /\
  (languageProficiency n = Expert <-> 10 <= n) /\
  (languageProficiency n = Advanced <-> 5 <= n < 10) /\
  (languageProficiency n = Intermediate <-> n < 5).
Proof.
  unfold languageProficiency.
  destruct (Z.leb_spec 10 n), (Z.leb_spec 5 n);
    repeat split; intros; try discriminate; try lia; reflexivity.
Qed.

(** X18: the [technical_skills] of the skills matrix.  There are always the
    same three categories.  The first holds one skill for each of the first
    five languages of the statistics, in their order, under the name of the
    language, rated Expert from 10 repositories, Advanced from 5,
    Intermediate below, with the first five repositories of the language as
    projects; its total is the size of the listing.  The second and the
    third hold fixed skills with fixed ratings, whatever the listing, each
    with at most three projects ('Git & GitHub' with exactly one); their
    totals are the numbers of repositories classified as 'DevOps & CI/CD' and
    as 'Cloud & Infrastructure'.  No skill is ever rated Beginner. *)
Theorem skills_matrix_ratings (repos : list RepositoryMetadata) (stats : RepositoryStats) :
  let ts := technical_skills (skillsMatrix repos stats) in
  map category ts = ["Programming Languages"; "DevOps & Tools"; "Cloud & Infrastructure"] /\
  map category_total_projects ts
  = [len repos; len (namesWhere is_devops repos); len (namesWhere is_cloud repos)] /\
  (forall c, In c ts -> category c = "Programming Languages" ->
     len (skills c) = Z.min 5 (len (languages stats)) /\
     Forall2 (fun s lang =>
                skill s = ls_language lang /\
                (proficiency s = Expert <-> 10 <= count lang) /\
                (proficiency s = Advanced <-> 5 <= count lang < 10) /\
                (proficiency s = Intermediate <-> count lang < 5) /\
                skill_projects s = firstn 5 (repositories lang))
             (skills c) (firstn 5 (languages stats))) /\
  (forall c, In c ts -> category c <> "Programming Languages" ->
     map (fun s => (skill s, proficiency s)) (skills c)
     = (if String.eqb (category c) "DevOps & Tools"
        then [("Docker", Advanced); ("Jenkins", Advanced); ("CI/CD Pipelines", Advanced);
              ("Git & GitHub", Expert)]
        else [("AWS", Advanced); ("Microservices Architecture", Advanced)]) /\
     forall s, In s (skills c) ->
       if String.eqb (skill s) "Git & GitHub" then len (skill_projects s) = 1
       else len (skill_projects s) <= 3) /\
  (forall c s, In c ts -> In s (skills c) ->
     proficiency s <> Beginner /\ len (skill_projects s) <= 5).
Proof.
  cbn zeta. change (technical_skills (skillsMatrix repos stats))
    with (technicalSkills repos stats (domainMapping repos)).
  assert (Hlang : forall s, In s (map languageSkill (Js.slice0 5 (languages stats))) ->
            exists lang, In lang (languages stats) /\ s = languageSkill lang).
  { intros s Hs. apply in_map_iff in Hs. destruct Hs as (lang & <- & Hin).
    exists lang. split; [now apply slice0_In in Hin | reflexivity]. }
  unfold technicalSkills, domainOf. rewrite domainMapping_spec.
  cbn [JsMap.get String.eqb Ascii.eqb Bool.eqb default map category
       category_total_projects skills].
  split; [reflexivity|]. split; [reflexivity|]. split; [|split].
  - intros c [<-|[<-|[<-|[]]]]; cbn [category skills]; try discriminate. intros _.
    split.
    + unfold len at 1. rewrite length_map. apply slice0_len. lia.
    + rewrite (slice0_firstn 5 (languages stats)) by lia.
      change (Z.to_nat 5) with 5%nat.
      induction (firstn 5 (languages stats)) as [|lang t IH]; [constructor|].
      cbn [map]. constructor; [|exact IH].
      cbn [languageSkill skill proficiency skill_projects].
      pose proof (languageProficiency_tiers (count lang)).
      rewrite (slice0_firstn 5 (repositories lang)) by lia.
      change (Z.to_nat 5) with 5%nat. tauto.
  - intros c [<-|[<-|[<-|[]]]]; cbn [category skills]; try congruence; intros _.
    + split; [reflexivity|].
      intros s [<-|[<-|[<-|[<-|[]]]]]; cbn [skill skill_projects];
        try (change (String.eqb _ "Git & GitHub") with false; cbv iota;
             apply slice0_length; lia).
      reflexivity.
    + split; [reflexivity|].
      intros s [<-|[<-|[]]]; cbn [skill skill_projects];
        change (String.eqb _ "Git & GitHub") with false; cbv iota;
        apply slice0_length; lia.
  - intros c s [<-|[<-|[<-|[]]]]; cbn [skills].
    + intros Hs. destruct (Hlang s Hs) as (lang & Hin & ->).
      cbn [languageSkill proficiency skill_projects]. split.
      * apply languageProficiency_tiers.
      * apply slice0_length. lia.
    + intros [<-|[<-|[<-|[<-|[]]]]]; cbn [proficiency skill_projects];
        (split; [discriminate|]);
        first [ match goal with |- len (Js.slice0 3 ?l) <= 5 =>
                  pose proof (slice0_length 3 l); lia end
              | unfold len; simpl; lia ].
    + intros [<-|[<-|[]]]; cbn [proficiency skill_projects];
        (split; [discriminate|]);
        match goal with |- len (Js.slice0 3 ?l) <= 5 =>
          pose proof (slice0_length 3 l) end; lia.
Qed.

Lemma skills_matrix_ratings_witness :
  let stats := repositoryStats [goA; goB; pyC] in
  let c := mkSkillCategory "Programming Languages"
             (map languageSkill (Js.slice0 5 (languages stats))) 3 in
  In c (technical_skills (skillsMatrix [goA; goB; pyC] stats)) /\
  category c = "Programming Languages" /\
  map skill (skills c) = ["Go"; "Python"] /\
  Forall2 (fun s lang =>
             skill s = ls_language lang /\
             (proficiency s = Expert <-> 10 <= count lang) /\
             (proficiency s = Advanced <-> 5 <= count lang < 10) /\
             (proficiency s = Intermediate <-> count lang < 5) /\
             skill_projects s = firstn 5 (repositories lang))
          (skills c) (firstn 5 (languages stats)).
Proof.
  intros stats c.
  assert (Hin : In c (technical_skills (skillsMatrix [goA; goB; pyC] stats)))
    by (left; reflexivity).
  split; [exact Hin|]. split; [reflexivity|]. split; [reflexivity|].
  exact (proj2 (proj1 (proj2 (proj2 (skills_matrix_ratings [goA; goB; pyC] stats)))
                      c Hin eq_refl)).
Defined.

(** * The portfolio summary *)






(** * Patterns *)

Lemma append_empty_inv (s1 s2 : string) : s1 +:+ s2 = "" -> s1 = "" /\ s2 = "".
Proof. destruct s1; simpl; [tauto | discriminate]. Qed.

Lemma append_cons_inv (s1 s2 : string) (c : ascii) (s : string) :
  s1 +:+ s2 = String c s ->
  (s1 = "" /\ s2 = String c s) \/ exists s1', s1 = String c s1' /\ s = s1' +:+ s2.
Proof.
  destruct s1 as [|c1 t1]; simpl; [tauto|].
  intros [= -> <-]. right. now exists t1.
Qed.

Lemma nullable_Lang (r : Regex.t) : Regex.nullable r = true <-> Regex.Lang r "".
Proof.
  split.
  - induction r; simpl; intros H; try discriminate.
    + constructor.
    + apply andb_true_iff in H. destruct H as [Ha Hb].
      change "" with ("" +:+ ""). constructor; auto.
    + apply orb_true_iff in H. destruct H as [H|H].
      * apply Regex.L_AltL; auto.
      * apply Regex.L_AltR; auto.
    + constructor.
  - intros H. remember "" as s eqn:Es.
    induction H; simpl; try discriminate; try reflexivity.
    + apply append_empty_inv in Es. destruct Es as [-> ->].
      rewrite IHLang1, IHLang2; reflexivity.
    + rewrite IHLang by assumption. reflexivity.
    + rewrite IHLang by assumption. apply orb_true_r.
Qed.

Lemma star_cons_inv (a : Regex.t) (c : ascii) (s : string) :
  Regex.Lang (Regex.Star a) (String c s) ->
  exists s1 s2, s = s1 +:+ s2 /\ Regex.Lang a (String c s1)
                /\ Regex.Lang (Regex.Star a) s2.
Proof.
  intros H. remember (Regex.Star a) as r eqn:Er. remember (String c s) as w eqn:Ew.
  revert Er Ew. induction H; intros Er Ew; try discriminate.
  injection Er as ->.
  apply append_cons_inv in Ew. destruct Ew as [[-> ->]|(s1' & -> & ->)].
  - apply IHLang2; reflexivity.
  - now exists s1', s2.
Qed.

Lemma deriv_Lang (r : Regex.t) (c : ascii) (s : string) :
  Regex.Lang (Regex.deriv c r) s <-> Regex.Lang r (String c s).
Proof.
  revert s. induction r as [| |p|a IHa b IHb|a IHa b IHb|a IHa]; intros s; simpl.
  - split; intros H; inversion H.
  - split; intros H; inversion H.
  - destruct (p c) eqn:E; split; intros H; inversion H; subst.
    + now constructor.
    + constructor.
    + congruence.
  - split.
    + intros H.
      assert (Hcat : forall w, Regex.Lang (Regex.Cat (Regex.deriv c a) b) w ->
                               Regex.Lang (Regex.Cat a b) (String c w)).
      { intros w Hw. inversion Hw; subst.
        change (String c (s1 +:+ s2)) with (String c s1 +:+ s2).
        constructor; [now apply IHa | assumption]. }
      destruct (Regex.nullable a) eqn:En.
      * inversion H; subst; [now apply Hcat|].
        change (String c s) with ("" +:+ String c s).
        constructor; [now apply nullable_Lang | now apply IHb].
      * now apply Hcat.
    + intros H. inversion H as [| |a' b' s1 s2 H1 H2 Ea Ew| | | |]; subst.
      apply append_cons_inv in Ew. destruct Ew as [[-> ->]|(s1' & -> & ->)].
      * apply nullable_Lang in H1. rewrite H1.
        apply Regex.L_AltR. now apply IHb.
      * assert (Regex.Lang (Regex.Cat (Regex.deriv c a) b) (s1' +:+ s2))
          by (constructor; [now apply IHa | assumption]).
        destruct (Regex.nullable a); [now apply Regex.L_AltL | assumption].
  - split; intros H; inversion H; subst.
    + apply Regex.L_AltL. now apply IHa.
    + apply Regex.L_AltR. now apply IHb.
    + apply Regex.L_AltL. now apply IHa.
    + apply Regex.L_AltR. now apply IHb.
  - split.
    + intros H. inversion H; subst.
      change (String c (s1 +:+ s2)) with (String c s1 +:+ s2).
      constructor; [now apply IHa | assumption].
    + intros H. apply star_cons_inv in H. destruct H as (s1 & s2 & -> & H1 & H2).
      constructor; [now apply IHa | assumption].
Qed.

(** [test] decides the language of the pattern. *)
Lemma test_Lang (r : Regex.t) (s : string) :
  Regex.test r s = true <-> Regex.Lang r s.
Proof.
  revert r. induction s as [|c t IH]; intros r; simpl.
  - apply nullable_Lang.
  - rewrite IH. apply deriv_Lang.
Qed.

Lemma star_class_Lang (p : ascii -> bool) (s : string) :
  Regex.Lang (Regex.Star (Regex.Class p)) s <-> all_chars p s = true.
Proof.
  split.
  - intros H. remember (Regex.Star (Regex.Class p)) as r eqn:Er.
    induction H; try discriminate; [reflexivity|].
    injection Er as ->. inversion H as [|p' c Hc| | | | |]; subst.
    change (all_chars p (String c s2) = true). simpl.
    rewrite IHLang2 by reflexivity. now rewrite Hc.
  - induction s as [|c t IH]; simpl; intros H; [constructor|].
    apply andb_true_iff in H. destruct H as [Hc Ht].
    change (String c t) with (String c "" +:+ t).
    constructor; [now constructor | now apply IH].
Qed.

Lemma all_chars_snoc (p : ascii -> bool) (m : string) (l : ascii) :
  all_chars p (m +:+ String l "") = all_chars p m && p l.
Proof.
  induction m as [|c t IH]; simpl; [now rewrite andb_true_r|].
  rewrite IH. now rewrite andb_assoc.
Qed.

Lemma last_char_snoc (m : string) (l : ascii) : last_char (m +:+ String l "") = Some l.
Proof.
  induction m as [|c t IH]; [reflexivity|].
  simpl. rewrite IH. now destruct t.
Qed.

Lemma snoc_view (s : string) :
  s = "" \/ exists m l, s = m +:+ String l "".
Proof.
  induction s as [|c t IH]; [now left|]. right.
  destruct IH as [->|(m & l & ->)].
  - now exists "", c.
  - now exists (String c m), l.
Qed.

Lemma isAlnum_isAlnumHyphen (c : ascii) : isAlnum c = true -> isAlnumHyphen c = true.
Proof. unfold isAlnum, isAlnumHyphen. intros ->. reflexivity. Qed.

Lemma usernameRegex_Lang (s : string) :
  Regex.Lang usernameRegex s <->
  all_chars isAlnumHyphen s = true /\
  (exists c, first_char s = Some c /\ isAlnum c = true) /\
  (exists c, last_char s = Some c /\ isAlnum c = true).
Proof.
  unfold usernameRegex, Regex.Opt. split.
  - intros H. inversion H as [| |a b s1 s2 H1 H2| | | |]; subst.
    inversion H1 as [|p c Hc| | | | |]; subst.
    change (String c "" +:+ s2) with (String c s2).
    cbn [all_chars first_char]. rewrite (isAlnum_isAlnumHyphen _ Hc).
    inversion H2 as [| | |a b w Hgroup|a b w Heps| |]; subst.
    + inversion Hgroup as [| |a b m l Hm Hl| | | |]; subst.
      inversion Hl as [|p l' Hl'| | | | |]; subst.
      apply star_class_Lang in Hm.
      rewrite all_chars_snoc, Hm, (isAlnum_isAlnumHyphen _ Hl').
      split; [reflexivity|]. split; [now exists c|].
      exists l'. split; [|assumption].
      pose proof (last_char_snoc m l') as Hlast. cbn [last_char].
      destruct (m +:+ String l' "") eqn:E; [discriminate Hlast | assumption].
    + inversion Heps; subst.
      split; [reflexivity|]. split; now exists c.
  - intros (Hall & (c & Hfirst & Hc) & (l & Hlast & Hl)).
    destruct s as [|c' t]; [discriminate|]. injection Hfirst as ->.
    change (String c t) with (String c "" +:+ t).
    constructor; [now constructor|].
    destruct (snoc_view t) as [->|(m & l' & ->)].
    + apply Regex.L_AltR. constructor.
    + apply Regex.L_AltL.
      assert (l' = l).
      { pose proof (last_char_snoc m l') as E. simpl in Hlast.
        destruct (m +:+ String l' "") eqn:E'; [discriminate E|].
        rewrite E in Hlast. now injection Hlast. }
      subst l'. simpl in Hall. apply andb_true_iff in Hall. destruct Hall as [_ Hall].
      rewrite all_chars_snoc in Hall. apply andb_true_iff in Hall.
      constructor; [now apply star_class_Lang | now constructor].
Qed.

(** X20: [isValidGitHubUsername] accepts exactly the names of 1 to 39
    characters, all of them ASCII letters, digits or hyphens, whose first and
    last characters are not hyphens.  Hyphens in a row inside a name are
    accepted. *)
Theorem isValidGitHubUsername_spec (username : string) :
  isValidGitHubUsername username = true <->
  1 <= Z.of_nat (String.length username) <= 39 /\
  all_chars isAlnumHyphen username = true /\
  (exists c, first_char username = Some c /\ isAlnum c = true) /\
  (exists c, last_char username = Some c /\ isAlnum c = true).
Proof.
  unfold isValidGitHubUsername.
  rewrite andb_true_iff, test_Lang, usernameRegex_Lang, Z.leb_le.
  split.
  - intros [(Hall & Hfirst & Hlast) Hlen]. repeat split; try assumption.
    destruct Hfirst as (c & Hc & _). destruct username; [discriminate|simpl; lia].
  - intros ([_ Hlen] & Hall & Hfirst & Hlast). tauto.
Qed.

Lemma isValidGitHubUsername_spec_witness :
  isValidGitHubUsername "octo--cat9" = true /\
  isValidGitHubUsername "-octocat" = false /\
  isValidGitHubUsername "octocat-" = false /\
  isValidGitHubUsername "" = false.
Proof.
  split.
  - apply (proj2 (isValidGitHubUsername_spec "octo--cat9")).
    split; [simpl; lia|]. split; [reflexivity|].
    split; [exists "o"%char | exists "9"%char]; split; reflexivity.
  - repeat split; reflexivity.
Defined.

(** * The configuration *)

Lemma pretty_N_char_digit (r : N) :
  (r < 10)%N ->
  isDigit (pretty_N_char r) = true /\
  Z.of_nat (nat_of_ascii (pretty_N_char r)) - 48 = Z.of_N r.
Proof.
  intros H.
  assert (E : (r = 0 \/ r = 1 \/ r = 2 \/ r = 3 \/ r = 4 \/ r = 5 \/ r = 6 \/ r = 7
               \/ r = 8 \/ r = 9)%N) by lia.
  repeat (destruct E as [->|E]; [split; reflexivity|]). subst. split; reflexivity.
Qed.

Lemma isDigit_plain (c : ascii) :
  isDigit c = true ->
  isWhiteSpace c = false /\ Ascii.eqb c "-" = false /\ Ascii.eqb c "+" = false.
Proof.
  destruct c as [[] [] [] [] [] [] [] []]; vm_compute; intros H;
    first [discriminate H | repeat split].
Qed.

Lemma pretty_N_go_append (x : N) (s t : string) :
  pretty_N_go x s +:+ t = pretty_N_go x (s +:+ t).
Proof.
  revert s. induction (N.lt_wf_0 x) as [x _ IH]; intros s.
  destruct (N.eq_dec x 0%N) as [->|Hx]; [now rewrite !pretty_N_go_0|].
  rewrite (pretty_N_go_step x s), (pretty_N_go_step x (s +:+ t)) by lia.
  rewrite IH by (apply N.div_lt; lia). reflexivity.
Qed.

Lemma pretty_N_go_starts (x : N) (s : string) :
  (0 < x)%N -> starts_with_digit (pretty_N_go x s) = true.
Proof.
  revert s. induction (N.lt_wf_0 x) as [x _ IH]; intros s Hx.
  rewrite pretty_N_go_step by assumption.
  destruct (N.eq_dec (x `div` 10)%N 0%N) as [E|E].
  - rewrite E, pretty_N_go_0. simpl.
    apply pretty_N_char_digit. apply N.mod_lt. lia.
  - assert (x `div` 10 < x)%N by (apply N.div_lt; lia).
    apply IH; [assumption | now apply N.neq_0_lt_0].
Qed.

Lemma digitsValue_pretty_N_go (x : N) :
  (0 < x)%N ->
  exists p, forall acc s,
    digitsValue acc (pretty_N_go x s) = digitsValue (acc * p + Z.of_N x) s.
Proof.
  induction (N.lt_wf_0 x) as [x _ IH]; intros Hx.
  assert (Hr : (x `mod` 10 < 10)%N) by (apply N.mod_lt; lia).
  destruct (pretty_N_char_digit _ Hr) as [Hd Hv].
  pose proof (N.div_mod x 10%N ltac:(lia)) as Hdm.
  destruct (N.eq_dec (x `div` 10)%N 0%N) as [E|E].
  - exists 10. intros acc s. rewrite pretty_N_go_step by assumption.
    rewrite E, pretty_N_go_0. simpl. rewrite Hd, Hv. f_equal. lia.
  - assert (Hlt : (x `div` 10 < x)%N) by (apply N.div_lt; lia).
    destruct (IH (x `div` 10)%N Hlt (proj1 (N.neq_0_lt_0 _) E)) as [p Hp].
    exists (p * 10). intros acc s. rewrite pretty_N_go_step by assumption.
    rewrite Hp. simpl. rewrite Hd, Hv. f_equal. lia.
Qed.

Lemma digitsValue_stop (acc : Z) (s : string) :
  starts_with_digit s = false -> digitsValue acc s = acc.
Proof. destruct s as [|c t]; simpl; [reflexivity|]. now intros ->. Qed.

Lemma numberOfNat_exact (m : Z) :
  0 <= m < 2 ^ 53 -> numberOfNat m = Finite m.
Proof.
  intros Hm. unfold numberOfNat.
  replace (2 ^ 1024 - 2 ^ 970 <=? m) with false.
  - f_equal. rewrite (Qfloor_comp _ _ (rnd_int_exact m Hm)). apply Qfloor_Z.
  - symmetry. apply Z.leb_gt.
    assert (2 ^ 53 < 2 ^ 1024 - 2 ^ 970) by (vm_compute; reflexivity). lia.
Qed.

Lemma parseDigits_pretty (x : positive) (suffix : string) :
  starts_with_digit suffix = false ->
  parseDigits (pretty x +:+ suffix) = numberOfNat (Z.pos x).
Proof.
  intros Hs. unfold pretty, pretty_positive, pretty, pretty_N.
  destruct (decide (N.pos x = 0%N)) as [E|_]; [discriminate E|].
  rewrite pretty_N_go_append. change ("" +:+ suffix) with suffix.
  pose proof (pretty_N_go_starts (N.pos x) suffix ltac:(lia)) as Hstart.
  destruct (digitsValue_pretty_N_go (N.pos x) ltac:(lia)) as [p Hp].
  specialize (Hp 0 suffix). rewrite (digitsValue_stop _ suffix Hs) in Hp.
  unfold parseDigits. destruct (pretty_N_go (N.pos x) suffix) as [|c t]; [discriminate|].
  simpl in Hstart. rewrite Hstart. f_equal. rewrite Hp. reflexivity.
Qed.

Lemma skipWhiteSpace_digit (s : string) :
  starts_with_digit s = true -> skipWhiteSpace s = s.
Proof.
  destruct s as [|c t]; [discriminate|]. simpl. intros H.
  now destruct (isDigit_plain c H) as [-> _].
Qed.

Lemma pretty_positive_starts (x : positive) (suffix : string) :
  starts_with_digit (pretty x +:+ suffix) = true.
Proof.
  unfold pretty, pretty_positive, pretty, pretty_N.
  destruct (decide (N.pos x = 0%N)) as [E|_]; [discriminate E|].
  rewrite pretty_N_go_append. apply pretty_N_go_starts. lia.
Qed.

(** [parseInt] reads the decimal numeral of an integer, whatever follows it,
    as long as no digit does: the number is the double nearest to the
    integer, the integer itself below [2^53]. *)
Lemma parseInt10_numeral (n : Z) (suffix : string) :
  starts_with_digit suffix = false ->
  parseInt10 (pretty n +:+ suffix)
  = if n <? 0 then negate (numberOfNat (- n)) else numberOfNat n.
Proof.
  intros Hs. destruct n as [|x|x].
  - change (parseInt10 (pretty 0 +:+ suffix))
      with (numberOfNat (digitsValue 0 suffix)).
    now rewrite digitsValue_stop.
  - change (pretty (Z.pos x)) with (pretty x).
    pose proof (pretty_positive_starts x suffix) as Hstart.
    unfold parseInt10. rewrite skipWhiteSpace_digit by assumption.
    pose proof (parseDigits_pretty x suffix Hs) as Hp.
    destruct (pretty x +:+ suffix) as [|c t]; [discriminate|].
    simpl in Hstart. destruct (isDigit_plain c Hstart) as (_ & -> & ->). exact Hp.
  - change (pretty (Z.neg x) +:+ suffix) with (String "-" (pretty x +:+ suffix)).
    unfold parseInt10. cbn [skipWhiteSpace].
    change (isWhiteSpace "-") with false. cbv iota.
    change (Ascii.eqb "-" "-") with true. cbv iota.
    now rewrite parseDigits_pretty.
Qed.

Lemma parseInt10_pretty (n : Z) (suffix : string) :
  - 2 ^ 53 < n < 2 ^ 53 ->
  starts_with_digit suffix = false -> parseInt10 (pretty n +:+ suffix) = Finite n.
Proof.
  intros Hn Hs. rewrite parseInt10_numeral by assumption.
  destruct (Z.ltb_spec n 0).
  - rewrite numberOfNat_exact by lia. cbn. f_equal. lia.
  - now rewrite numberOfNat_exact by lia.
Qed.

(** Past [2^53] the number read is the nearest double, not the integer
    written. *)
Lemma parseInt10_rounds :
  parseInt10 "9007199254740993" = Finite 9007199254740992 /\
  parseInt10 "-9007199254740995" = Finite (-9007199254740996).
Proof. split; vm_compute; reflexivity. Qed.

Lemma parseInt10_NaN (c : ascii) (rest : string) :
  isDigit c = false -> isWhiteSpace c = false -> c <> "-"%char -> c <> "+"%char ->
  parseInt10 (String c rest) = NaN.
Proof.
  intros Hd Hw Hm Hp. unfold parseInt10. simpl. rewrite Hw.
  apply Ascii.eqb_neq in Hm, Hp. rewrite Hm, Hp. simpl. now rewrite Hd.
Qed.

(** White space before the numeral is skipped, the no-break space
    included. *)
Lemma parseInt10_skips (c : ascii) (s : string) :
  isWhiteSpace c = true -> parseInt10 (String c s) = parseInt10 s.
Proof. intros H. unfold parseInt10. simpl. now rewrite H. Qed.

Lemma or_else_unset (env : Env) (key d : string) :
  unset env key = true -> Js.or_else (env key) d = d.
Proof.
  unfold unset, Js.or_else. destruct (env key) as [v|]; [|reflexivity].
  now destruct (Js.truthy v).
Qed.

Lemma or_else_set (env : Env) (key d v : string) :
  env key = Some v -> v <> "" -> Js.or_else (env key) d = v.
Proof. intros -> Hv. simpl. destruct v; [congruence | reflexivity]. Qed.

Lemma validateConfig_spec (env : Env) :
  (validateConfig env = inr tt /\
   unset env "GITHUB_TOKEN" = false /\ unset env "GITHUB_USERNAME" = false) \/
  ((exists e, validateConfig env = inl e) /\
   (unset env "GITHUB_TOKEN" = true \/ unset env "GITHUB_USERNAME" = true)).
Proof.
  unfold validateConfig, missingVariables, requiredVariables. simpl.
  destruct (unset env "GITHUB_TOKEN"), (unset env "GITHUB_USERNAME"); simpl;
    first [left; repeat split; reflexivity | right; split; [eexists; reflexivity | tauto]].
Qed.

Lemma unset_false (env : Env) (key : string) :
  unset env key = false -> exists v, env key = Some v /\ v <> "".
Proof.
  unfold unset. destruct (env key) as [v|]; [|discriminate].
  destruct v; [discriminate|]. intros _. eexists. split; [reflexivity | discriminate].
Qed.

Lemma isWhiteSpace_spec (c : ascii) :
  isWhiteSpace c = true <-> In (nat_of_ascii c) [9; 10; 11; 12; 13; 32; 160]%nat.
Proof.
  destruct c as [[] [] [] [] [] [] [] []]; vm_compute;
    (split;
     [ intros H; first [discriminate H | repeat (first [left; reflexivity | right])]
     | intros H; first [reflexivity
                       | repeat (destruct H as [H|H]; [discriminate H|]); destruct H] ]).
Qed.

Lemma isDigit_spec (c : ascii) :
  isDigit c = true <-> (48 <= nat_of_ascii c <= 57)%nat.
Proof.
  unfold isDigit, char_between. rewrite andb_true_iff, !Nat.leb_le.
  change (nat_of_ascii "0") with 48%nat. change (nat_of_ascii "9") with 57%nat. tauto.
Qed.

Lemma all_chars_Forall (q : ascii -> bool) (s : string) :
  all_chars q s = true <-> Forall (fun c => q c = true) (list_ascii_of_string s).
Proof.
  induction s as [|c t IH]; simpl.
  - split; [constructor | reflexivity].
  - rewrite andb_true_iff, IH. split.
    + intros [H1 H2]. now constructor.
    + intros H. inversion H; subst. tauto.
Qed.

(** X21: [getConfig] throws exactly when GITHUB_TOKEN or GITHUB_USERNAME is
    unset or empty.  Otherwise it returns the two values as they are, and
    for the cache lifetime: 3600 when CACHE_TTL_SECONDS is unset or empty;
    the number [n] when the setting is the decimal numeral of an integer [n]
    of magnitude below [2^53], also with text after it that starts with no
    digit, and with white space before it (TAB, LF, VT, FF, CR, space,
    no-break space); [NaN], and not the default, when the setting starts
    with an ASCII character that is no digit, sign or white space.  The
    check period defaults to 600 and the base address to
    'https://api.github.com'. *)
Theorem getConfig_spec (env : Env) :
  ((exists e, getConfig env = inl e) <->
   unset env "GITHUB_TOKEN" = true \/ unset env "GITHUB_USERNAME" = true) /\
  (forall c, getConfig env = inr c ->
     env "GITHUB_TOKEN" = Some (loaded_github_token c) /\ loaded_github_token c <> "" /\
     env "GITHUB_USERNAME" = Some (loaded_github_username c) /\
     loaded_github_username c <> "" /\
     (unset env "CACHE_TTL_SECONDS" = true -> loaded_cache_ttl c = Finite 3600) /\
     (forall n space suffix,
        env "CACHE_TTL_SECONDS" = Some (space +:+ pretty n +:+ suffix) ->
        Forall (fun ch => In (nat_of_ascii ch) [9; 10; 11; 12; 13; 32; 160]%nat)
               (list_ascii_of_string space) ->
        - 2 ^ 53 < n < 2 ^ 53 ->
        match suffix with
        | EmptyString => True
        | String ch _ => ~ (48 <= nat_of_ascii ch <= 57)%nat
        end ->
        loaded_cache_ttl c = Finite n) /\
     (forall ch rest,
        env "CACHE_TTL_SECONDS" = Some (String ch rest) ->
        (nat_of_ascii ch < 128)%nat ->
        ~ (48 <= nat_of_ascii ch <= 57)%nat ->
        ~ In (nat_of_ascii ch) [9; 10; 11; 12; 13; 32]%nat ->
        ch <> "-"%char -> ch <> "+"%char ->
        loaded_cache_ttl c = NaN) /\
     (unset env "CACHE_CHECK_PERIOD_SECONDS" = true ->
        loaded_cache_check_period c = Finite 600) /\
     (unset env "GITHUB_API_BASE_URL" = true ->
        loaded_api_base_url c = "https://api.github.com")).
Proof.
  unfold getConfig.
  destruct (validateConfig_spec env) as [(Hv & Ht & Hu)|((e & Hv) & Hmiss)]; rewrite Hv.
  - split.
    + split; [intros [e He]; discriminate He|]. rewrite Ht, Hu. intros [H|H]; discriminate H.
    + intros c [= <-]. cbn [loaded_github_token loaded_github_username loaded_cache_ttl
                             loaded_cache_check_period loaded_api_base_url].
      destruct (unset_false env _ Ht) as (t & Et & Hne_t).
      destruct (unset_false env _ Hu) as (u & Eu & Hne_u).
      rewrite Et, Eu. cbn [default].
      split; [reflexivity|]. split; [assumption|]. split; [reflexivity|].
      split; [assumption|]. split; [|split; [|split; [|split]]].
      * intros H. now rewrite or_else_unset.
      * intros n space suffix E Hspace Hn Hsuffix.
        assert (Hs : starts_with_digit suffix = false).
        { destruct suffix as [|ch rest]; [reflexivity|]. simpl.
          destruct (isDigit ch) eqn:Ed; [|reflexivity].
          apply isDigit_spec in Ed. contradiction. }
        assert (Hparse : parseInt10 (space +:+ pretty n +:+ suffix) = Finite n).
        { clear E. induction space as [|ch sp IH].
          - now apply parseInt10_pretty.
          - simpl in Hspace. inversion Hspace as [|? ? Hch Hsp]; subst.
            change (String ch sp +:+ pretty n +:+ suffix)
              with (String ch (sp +:+ pretty n +:+ suffix)).
            rewrite parseInt10_skips by (now apply isWhiteSpace_spec). now apply IH. }
        assert (Hne : space +:+ pretty n +:+ suffix <> "").
        { intros E0. rewrite E0 in Hparse. discriminate Hparse. }
        now rewrite (or_else_set env _ _ _ E Hne).
      * intros ch rest E Hascii Hd Hw Hm Hp.
        rewrite (or_else_set env _ _ _ E) by discriminate.
        apply parseInt10_NaN; try assumption.
        -- destruct (isDigit ch) eqn:Ed; [|reflexivity].
           apply isDigit_spec in Ed. contradiction.
        -- destruct (isWhiteSpace ch) eqn:Ew; [|reflexivity].
           apply isWhiteSpace_spec in Ew. exfalso. apply Hw.
           simpl in Ew. simpl. intuition lia.
      * intros H. now rewrite or_else_unset.
      * intros H. now rewrite or_else_unset.
  - split.
    + split; [intros _; exact Hmiss | intros _; now exists e].
    + intros c H. discriminate H.
Qed.

Lemma getConfig_spec_witness :
  exists c, getConfig sampleEnv = inr c /\
            sampleEnv "CACHE_TTL_SECONDS" = Some (" " +:+ pretty 60 +:+ "s") /\
            loaded_cache_ttl c = Finite 60.
Proof.
  eexists. split; [reflexivity|]. split; [reflexivity|].
  refine (proj1 (proj2 (proj2 (proj2 (proj2 (proj2
            (proj2 (getConfig_spec sampleEnv) _ eq_refl)))))) 60 " " "s"
            eq_refl _ _ _).
  - constructor; [|constructor]. simpl. do 5 right. left. reflexivity.
  - lia.
  - change (nat_of_ascii "s") with 115%nat. lia.
Defined.
